(* ===== verification/_CoqProject ===== *)
-Q . S2P
Prelude.v
TypeMapper.v
Hex.v
Csv.v
Catalog.v
Ddl.v
PgConn.v
PgSimple.v
Transfer.v
Migrate.v
Orchestrator.v
Copy.v
Argparse.v
Cli.v
Failures.v
EndToEnd.v
