(* ===== verification/Prelude.v ===== *)
(** * A verification development of [mysqltopg] ([src/main.py])

    The program migrates a MySQL database to PostgreSQL in one run.  It
    is a single Python file.  [main] lists the tables, and for each table
    it reads the schema from MySQL, creates the table in PostgreSQL,
    exports the rows to a CSV file, imports that file (bulk [COPY], or
    row by row when [COPY] fails), and adds the primary key, the indexes
    and the sequence values.  It then runs the foreign-key pass over all
    tables and writes a report.  Each part is modelled in one file of
    this library; the files are listed in dependency order.

    - [Prelude] (this file): the Python string operations the program
      uses ([str.lower], [str.join], [str.replace], [str.split],
      slicing, [str(int)]); dictionaries as ordered association lists,
      with the grouping idiom of [get_foreign_keys]; [ORDER BY] as a
      stable insertion sort; and the state and exception monad [st]
      ([st_bind], [st_catch], notations [let*] and [;;;]) that models
      Python exceptions and [try]/[except] over an explicit state,
      with [st_preserves], the invariants a computation keeps, and the
      lemmas that compose them through [st_bind] and [st_catch]; and
      [sql_literal], the value a SQL server reads from a name the
      program pastes between single quotes (MySQL with backslash
      escapes, PostgreSQL with standard strings).
    - [TypeMapper]: [mysql_to_postgresql_type] (lines 67-107), the
      dictionary [type_mapping], and an abstract enumeration [pg_type]
      with the refinement theorem that the string function implements
      the abstract classification.
    - [Hex]: [bytes.hex()] (line 181), its inverse, and what a
      PostgreSQL [BYTEA] column makes of the hex text.
    - [Csv]: Python's [csv.writer] ([QUOTE_MINIMAL]) and [csv.reader]
      state machine, with universal newlines.  These are library code,
      modelled from their documented behaviour.
    - [Catalog]: the MySQL catalogue as a record and the queries
      [get_tables], [get_table_schema], [get_primary_keys],
      [get_foreign_keys] and [get_indexes], with their grouping loops.
      A query looks up the value of the literal the name is pasted
      into ([my_literal], [my_select]).
    - [Ddl]: every SQL statement the program sends, as an AST
      [pg_stmt] that keeps quoted and unquoted identifiers apart, and
      [render] for the exact f-string text.
    - [PgConn]: the psycopg2 connection ([execute], [commit],
      [rollback], [close]) with PostgreSQL's aborted-transaction state.  The
      server is the type class [PgEngine], so the theorems of the later
      files hold for every server.
    - [PgSimple]: a concrete [PgEngine] with PostgreSQL 16's identifier
      rules (the reserved and type/function-name keywords, UTF-8 bytes,
      folding, truncation to 63 bytes at a character boundary), COPY
      CSV, constraints and sequences.  The witnesses, [Failures] and
      [EndToEnd] use it.
    - [Transfer]: [export_table_data] (the output directory checked
      and made before the [try], then batches of 1000) and
      [import_table_data] (bulk path, then the fallback in batches of
      100), on a [world] of files, directories and a connection.
      [os.path.exists], [os.makedirs] and [open(path, 'w')] are
      modelled on that world, and MySQL's rule for the unquoted name of
      [SELECT * FROM {table_name}] ([my_plain_ident]: the reserved words
      of MySQL 8, names read as numbers) in [select_all].
    - [Migrate]: [create_postgresql_table], [migrate_constraints],
      [migrate_foreign_keys], [migrate_indexes] and [reset_sequences].
      [try]/[commit]/[except]/[rollback] is modelled once, as [attempt].
    - [Orchestrator]: the table loop of [main] ([process_table],
      [migrate_tables]), [main] itself up to [pg_conn.close()], and the
      report text.  Its [Section Preserve] lifts any invariant of the
      world kept by [execute], [commit], [rollback], the CSV write and
      the output-directory check to the whole loop and to every pass
      of [main].
    - [Copy]: the composition of the CSV writer with PostgreSQL's
      [COPY ... WITH CSV HEADER] parser: what the bulk import stores
      for each exported row.
    - [Argparse]: the option declarations of [main] (lines 528-546) and
      CPython 3.11's [argparse] on them: [parse_optional] classifies each
      argument string, a small state machine ([pstep]) consumes the
      options, and [finish_parse] checks the required options and the
      unrecognized arguments.  [int()] is modelled on ASCII.  The model
      was compared with the interpreter on several thousand random
      command lines while it was written.
    - [Cli]: [connect_to_mysql] and [connect_to_postgresql] over driver
      oracles, and [run_program], the process: parse, connect both,
      run [main], and give the exit status.
    - [Failures]: on [PgSimple], the tables a run loses because of how
      [CREATE TABLE], [SELECT], [COPY] and [INSERT] write their names.
    - [EndToEnd]: the composition of all the steps of a table on
      [PgSimple], and the theorem that a whole run migrates every table
      whose names and rows PostgreSQL takes as written.

    What the theorems show.
    - EndToEnd: on the concrete engine, a run of [main] over tables with
      plain lower-case names, constant defaults and rows that [COPY]
      accepts, into a fresh database and a ready output directory,
      returns, reports every table migrated, and after [close] leaves
      every table holding exactly the rows [COPY] read from its export.
    - Orchestrator, for every engine: the lists of migrated and failed
      tables partition the tables in order, and the report holds
      exactly those lists.  The loop returns whenever every schema query
      returns and the output directory exists or can be made.  A schema
      query that raises ends the run at the loop's world (no foreign
      key, no report), and a failing [os.makedirs], which runs outside
      the [try] of the export, ends it right after the first [CREATE
      TABLE].  A table processed in an aborted transaction is lost, so
      when the serial-column query of a table fails, the next table is
      lost.  When every schema query succeeds, the [CREATE TABLE] of
      every table is sent, in order, whatever else fails (liveness, by
      log extension).  The log of [main] is the loop's segment, with no
      foreign key, followed by foreign-key statements only.
    - Failures: a table is lost whenever its name or a column name has
      an upper-case letter (folded by the unquoted [CREATE TABLE],
      looked up as written by [COPY] and [INSERT]), a column name is a
      PostgreSQL reserved word, or the table name is one MySQL does not
      take unquoted in [SELECT * FROM {table_name}].
    - Migrate: each pass of statements refines a best-effort application
      of its statements to the committed database.  [reset_sequences]
      leaves the transaction aborted, because its handler does not roll
      back.
    - Transfer: the exported file reads back as the rows.  The fallback
      sends every row once, in batches followed by commits, and its row
      loop is equivalent, at every state, to the reference
      [insert_batches] over the rows cut in groups of 100.  A failing
      row count after a committed [COPY] inserts the rows twice.
    - Copy: [COPY] reads every exported row back in order, with an empty
      field as [NULL] unless it is the whole row.  So the bulk path turns
      [''] into [NULL], and a [NULL] of a one-column table into [''];
      the values exported as empty text are exactly [None], [''],
      empty [bytes] and an object whose [str()] is empty.
      On the concrete engine, importing the exported file into a table
      with its columns appends exactly those rows and commits them.
    - Argparse and Cli: arguments printed as a command line parse back
      to themselves.  A failed connection ends the process before any
      table, with exit status 0.
    - Catalog, TypeMapper and Hex: the functional behaviour of the
      queries, the grouping and the type mapping, and the hex round trip
      with its [BYTEA] mismatch.  A table name holding a quote is never
      looked up as written: the query raises or reads a shorter name.

    Bounds and fuel.  No definition uses fuel.  The two batch loops
    recurse on the length of the pending list (Equations, well-founded
    on [lt]).  The batch sizes 1000 and 100 are those of the code.

    What is not modelled: the drivers behind the two connections (they
    are oracles that connect or raise; on an open connection [cursor()],
    [commit()] and [rollback()] do not fail, so a connection that drops
    during the run is outside the model, and with it the [rollback()]
    of a handler raising out of the loop); a table name crafted so that
    the text after an early end of its SQL literal is valid SQL (an
    injection: the model answers with the syntax error); [mysql_conn.close()], which changes
    nothing the model holds; a namespace in which [argparse] left a list
    where [main] expects a string, which only [--opt=--] produces
    ([run_program] is [None] there); permissions and path normalisation
    in the file system (paths are compared as strings); [datetime.now]
    (the report takes the time stamps as inputs); and printing, which
    changes only the standard output.

    Conventions.  Strings are Stdlib strings of 8-bit characters, and
    [str.lower] is modelled on ASCII letters only.  Every definition is
    executable, and each theorem with hypotheses has a witness that runs
    the definitions on a concrete input. *)

From stdpp Require Export base list strings.
From Stdlib Require Export Ascii ZArith Lia DecimalString DecimalN Sorted.
From Stdlib Require String.

Declare Scope mig_scope.
Delimit Scope mig_scope with mig.
Open Scope string_scope.

Create HintDb mig discriminated.
Create Rewrite HintDb mig_rw.

(** ** Characters the program writes into SQL and CSV text *)

Definition dquote : ascii := "034"%char.
Definition squote : ascii := "039"%char.
Definition comma : ascii := "044"%char.
Definition newline : ascii := "010"%char.
Definition creturn : ascii := "013"%char.

(** [str1 +:+ str2] is stdpp's notation for [String.append]. *)
Definition chr (c : ascii) : string := String.String c String.EmptyString.

(** ** Python string operations *)

Definition lower_char (c : ascii) : ascii :=
  let n := nat_of_ascii c in
  if Nat.leb 65 n && Nat.leb n 90 then ascii_of_nat (n + 32) else c.

(** [s.lower()] on ASCII text. *)
Fixpoint lower (s : string) : string :=
  match s with
  | String.EmptyString => String.EmptyString
  | String.String c s' => String.String (lower_char c) (lower s')
  end.

(** [sep.join(xs)]. *)
Fixpoint join (sep : string) (xs : list string) : string :=
  match xs with
  | [] => ""
  | [x] => x
  | x :: xs' => x +:+ sep +:+ join sep xs'
  end.

(** [s.replace(old, new)] for a non-empty [old]: occurrences are found
    left to right and do not overlap; [skip] counts the characters of a
    matched occurrence still to drop. *)
Fixpoint replace_go (old new : string) (skip : nat) (s : string) : string :=
  match s with
  | String.EmptyString => String.EmptyString
  | String.String c s' =>
      match skip with
      | S k => replace_go old new k s'
      | O =>
          if String.prefix old s
          then new +:+ replace_go old new (String.length old - 1) s'
          else String.String c (replace_go old new 0 s')
      end
  end.

Definition replace (old new s : string) : string :=
  match old with
  | String.EmptyString => s
  | _ => replace_go old new 0 s
  end.

(** [s.split(c)] for a one-character separator. *)
Fixpoint split_go (c : ascii) (cur : string) (s : string) : list string :=
  match s with
  | String.EmptyString => [cur]
  | String.String d s' =>
      if ascii_dec c d then cur :: split_go c "" s'
      else split_go c (cur +:+ chr d) s'
  end.

Definition split (c : ascii) (s : string) : list string := split_go c "" s.

(** [s[-n:]] for [n > 0]. *)
Definition suffix (n : nat) (s : string) : string :=
  let l := String.length s in
  if Nat.leb l n then s else String.substring (l - n) n s.

(** [c in s]. *)
Fixpoint has_char (c : ascii) (s : string) : bool :=
  match s with
  | String.EmptyString => false
  | String.String d s' => if ascii_dec c d then true else has_char c s'
  end.

(** Every character of [s] satisfies [p]. *)
Fixpoint all_chars (p : ascii -> bool) (s : string) : bool :=
  match s with
  | String.EmptyString => true
  | String.String c s' => p c && all_chars p s'
  end.

(** ** SQL string literals *)

Definition bslash : ascii := "092"%char.
Definition space : ascii := "032"%char.

(** The character a MySQL escape [\c] stands for (MySQL 8 manual,
    "String Literals", table 11.1): [\%] and [\_] keep the backslash. *)
Definition my_unescape (c : ascii) : string :=
  if Ascii.eqb c "0"%char then chr "000"%char
  else if Ascii.eqb c "b"%char then chr "008"%char
  else if Ascii.eqb c "n"%char then chr newline
  else if Ascii.eqb c "r"%char then chr creturn
  else if Ascii.eqb c "t"%char then chr "009"%char
  else if Ascii.eqb c "Z"%char then chr "026"%char
  else if Ascii.eqb c "%"%char || Ascii.eqb c "_"%char then String.String bslash (chr c)
  else chr c.

(** The value of the literal ['s'] that the program writes as
    [f"... '{s}' ..."]: a doubled quote stands for one quote and, when
    [bs] (MySQL's default [sql_mode]), a backslash escapes the next
    character; PostgreSQL with [standard_conforming_strings] takes the
    backslash as written.  [None] when the literal does not end at the
    quote the program writes after [s]: a lone quote ends it early, a
    final backslash escapes the closing quote. *)
Fixpoint sql_literal (bs : bool) (s : string) : option string :=
  match s with
  | String.EmptyString => Some String.EmptyString
  | String.String c s' =>
      if Ascii.eqb c squote then
        match s' with
        | String.String d s'' =>
            if Ascii.eqb d squote then option_map (String.String squote) (sql_literal bs s'')
            else None
        | String.EmptyString => None
        end
      else if bs && Ascii.eqb c bslash then
        match s' with
        | String.String d s'' => option_map (String.append (my_unescape d)) (sql_literal bs s'')
        | String.EmptyString => None
        end
      else option_map (String.String c) (sql_literal bs s')
  end.

Fixpoint drop_spaces (l : list ascii) : list ascii :=
  match l with
  | c :: l' => if Ascii.eqb c space then drop_spaces l' else l
  | [] => []
  end.

(** [s] without its trailing spaces, as a PAD SPACE collation compares. *)
Definition rstrip_spaces (s : string) : string :=
  String.string_of_list_ascii (rev (drop_spaces (rev (String.list_ascii_of_string s)))).

(** [str(n)] for a Python [int]. *)
Definition str_of_N (n : N) : string :=
  NilEmpty.string_of_uint (N.to_uint n).

Definition str_of_Z (z : Z) : string :=
  match z with
  | Z0 => "0"
  | Zpos p => str_of_N (Npos p)
  | Zneg p => "-" +:+ str_of_N (Npos p)
  end.

(** Python truthiness of an optional integer: [None] and [0] are false. *)
Definition truthy_N (o : option N) : bool :=
  match o with Some n => negb (N.eqb n 0) | None => false end.

(** ** Python dictionaries as association lists in insertion order *)

(** [d.get(k, default)]. *)
Fixpoint dict_get {V} (k : string) (d : list (string * V)) (dflt : V) : V :=
  match d with
  | [] => dflt
  | (k', v) :: d' => if String.eqb k k' then v else dict_get k d' dflt
  end.

(** [k in d]. *)
Definition dict_mem {V} (k : string) (d : list (string * V)) : bool :=
  existsb (fun kv => String.eqb k kv.1) d.

(** [d[k] = f(d[k])] for a key already present. *)
Fixpoint dict_update {V} (k : string) (f : V -> V) (d : list (string * V))
  : list (string * V) :=
  match d with
  | [] => []
  | (k', v) :: d' =>
      if String.eqb k k' then (k', f v) :: d' else (k', v) :: dict_update k f d'
  end.

(** [d[k]] as an option. *)
Fixpoint dict_find {V} (k : string) (d : list (string * V)) : option V :=
  match d with
  | [] => None
  | (k', v) :: d' => if String.eqb k k' then Some v else dict_find k d'
  end.

(** [d[k] = v]: replaces the value of a present key in place, or adds
    the key at the end. *)
Fixpoint dict_set {V} (k : string) (v : V) (d : list (string * V)) : list (string * V) :=
  match d with
  | [] => [(k, v)]
  | (k', v') :: d' => if String.eqb k k' then (k', v) :: d' else (k', v') :: dict_set k v d'
  end.

(** The grouping idiom of [get_foreign_keys] and [get_indexes]:
    [if k not in d: d[k] = init(row)] followed by an in-place update of
    [d[k]] with the row. *)
Definition group_step {R V} (key : R -> string) (init : R -> V) (upd : R -> V -> V)
    (d : list (string * V)) (r : R) : list (string * V) :=
  let d' := if dict_mem (key r) d then d else app d [(key r, init r)] in
  dict_update (key r) (upd r) d'.

(** ** Stable insertion sort, the model of an [ORDER BY] *)

Section Sort.
Context {A : Type} (le : A -> A -> bool).

Fixpoint insert_by (x : A) (l : list A) : list A :=
  match l with
  | [] => [x]
  | y :: l' => if le x y then x :: y :: l' else y :: insert_by x l'
  end.

Fixpoint sort_by (l : list A) : list A :=
  match l with
  | [] => []
  | x :: l' => insert_by x (sort_by l')
  end.

Lemma insert_by_perm x l : Permutation (insert_by x l) (x :: l).
Proof.
  induction l as [|y l IH]; simpl; [done|].
  destruct (le x y); [done|]. rewrite IH. constructor.
Qed.

Lemma sort_by_perm l : Permutation (sort_by l) l.
Proof.
  induction l as [|x l IH]; simpl; [done|]. by rewrite insert_by_perm, IH.
Qed.

Hypothesis le_total : forall x y, le x y = true \/ le y x = true.

Lemma insert_by_sorted x l :
  Sorted (fun a b => le a b = true) l -> Sorted (fun a b => le a b = true) (insert_by x l).
Proof.
  induction 1 as [|y l Hl IH Hhd]; simpl; [by repeat constructor|].
  destruct (le x y) eqn:Exy; [by repeat constructor|].
  constructor; [exact IH|].
  destruct l as [|z l]; simpl.
  - constructor. destruct (le_total x y); congruence.
  - inversion Hhd; subst. destruct (le x z); constructor; [|done].
    destruct (le_total x y); congruence.
Qed.

Lemma sort_by_sorted l : Sorted (fun a b => le a b = true) (sort_by l).
Proof. induction l; simpl; [constructor|]. by apply insert_by_sorted. Qed.
End Sort.

Lemma sorted_weaken {A} (R1 R2 : A -> A -> Prop) (l : list A) :
  (forall a b, R1 a b -> R2 a b) -> Sorted R1 l -> Sorted R2 l.
Proof.
  intros H. induction 1 as [|a l Hs IH Hhd]; constructor; [done|].
  destruct Hhd; constructor; auto.
Qed.

Lemma dict_find_set_eq {V} k (v : V) d : dict_find k (dict_set k v d) = Some v.
Proof.
  induction d as [|[k' v'] d IH]; cbn; [by rewrite String.eqb_refl|].
  destruct (String.eqb_spec k k') as [->|]; cbn; [by rewrite String.eqb_refl|].
  destruct (String.eqb_spec k k'); [done|exact IH].
Qed.

Lemma dict_find_set_ne {V} p k (v : V) d : p <> k -> dict_find p (dict_set k v d) = dict_find p d.
Proof.
  intros Hne. induction d as [|[k' v'] d IH]; cbn.
  - destruct (String.eqb_spec p k); [done|reflexivity].
  - destruct (String.eqb_spec k k') as [<-|]; cbn.
    + destruct (String.eqb_spec p k); [congruence|reflexivity].
    + destruct (String.eqb p k'); [reflexivity|exact IH].
Qed.

(** ** The grouping idiom: what it builds *)

Section Group.
Context {R V : Type} (key : R -> string) (init : R -> V) (upd : R -> V -> V).

Lemma dict_find_update k k' f (d : list (string * V)) :
  dict_find k (dict_update k' f d) =
  if String.eqb k k' then option_map f (dict_find k d) else dict_find k d.
Proof.
  induction d as [|[k0 v] d IH]; simpl.
  - by destruct (String.eqb k k').
  - destruct (String.eqb_spec k' k0) as [->|Hne]; simpl.
    + destruct (String.eqb k k0); reflexivity.
    + rewrite IH. destruct (String.eqb_spec k k') as [->|]; simpl.
      * by destruct (String.eqb_spec k' k0).
      * by destruct (String.eqb k k0).
Qed.

Lemma dict_find_app k (d1 d2 : list (string * V)) :
  dict_find k (d1 ++ d2)%list =
  match dict_find k d1 with Some v => Some v | None => dict_find k d2 end.
Proof.
  induction d1 as [|[k0 v] d1 IH]; simpl; [done|].
  destruct (String.eqb k k0); [done|]. exact IH.
Qed.

Lemma dict_mem_find k (d : list (string * V)) :
  dict_mem k d = match dict_find k d with Some _ => true | None => false end.
Proof.
  induction d as [|[k0 v] d IH]; simpl; [done|].
  unfold dict_mem in *; simpl. destruct (String.eqb k k0); [done|]. exact IH.
Qed.


Lemma dict_find_group_step k d r :
  dict_find k (group_step key init upd d r) =
  if String.eqb k (key r) then Some (upd r (default (init r) (dict_find k d)))
  else dict_find k d.
Proof.
  unfold group_step. rewrite dict_find_update, dict_mem_find.
  destruct (String.eqb_spec k (key r)) as [->|Hne].
  2:{ destruct (dict_find (key r) d); [done|]. rewrite dict_find_app.
      destruct (dict_find k d); [done|]. simpl.
      by rewrite (proj2 (String.eqb_neq _ _) Hne). }
  destruct (dict_find (key r) d) eqn:E; simpl; [by rewrite E|].
  rewrite dict_find_app, E. simpl. by rewrite String.eqb_refl.
Qed.

Lemma dict_find_fold_group k rows d :
  dict_find k (fold_left (group_step key init upd) rows d) =
  let rs := List.filter (fun r => String.eqb k (key r)) rows in
  match dict_find k d with
  | Some v => Some (fold_left (fun v r => upd r v) rs v)
  | None =>
      match find (fun r => String.eqb k (key r)) rows with
      | Some r0 => Some (fold_left (fun v r => upd r v) rs (init r0))
      | None => None
      end
  end.
Proof.
  revert d. induction rows as [|r rows IH]; intros d; simpl.
  - by destruct (dict_find k d).
  - rewrite IH, dict_find_group_step.
    destruct (String.eqb k (key r)) eqn:E; simpl; rewrite ?E; [|done].
    by destruct (dict_find k d).
Qed.


End Group.

(** ** Python exceptions over an explicit state *)

(** The result of a Python computation: a value or a raised exception
    (its message). *)
Inductive outcome (A : Type) : Type :=
| Ret (a : A)
| Raise (e : string).
Arguments Ret {A} a.
Arguments Raise {A} e.

(** Sequencing of computations that may raise, without state. *)
Definition obind {A B} (o : outcome A) (f : A -> outcome B) : outcome B :=
  match o with Ret a => f a | Raise e => Raise e end.

Notation "'let?' x ':=' o 'in' k" := (obind o (fun x => k))
  (at level 100, x pattern, o at next level, right associativity) : mig_scope.

(** A statement sequence that threads a state [S]; an exception keeps
    the state reached when it was raised, as in Python. *)
Definition st (S A : Type) : Type := S -> outcome A * S.

Definition st_ret {S A} (a : A) : st S A := fun s => (Ret a, s).
Definition st_raise {S A} (e : string) : st S A := fun s => (Raise e, s).
Definition st_bind {S A B} (m : st S A) (k : A -> st S B) : st S B :=
  fun s => match m s with
           | (Ret a, s') => k a s'
           | (Raise e, s') => (Raise e, s')
           end.
(** [try: m except Exception as e: h(e)]. *)
Definition st_catch {S A} (m : st S A) (h : string -> st S A) : st S A :=
  fun s => match m s with
           | (Ret a, s') => (Ret a, s')
           | (Raise e, s') => h e s'
           end.
Definition st_get {S} : st S S := fun s => (Ret s, s).
Definition st_put {S} (s : S) : st S unit := fun _ => (Ret tt, s).

Notation "'let*' x ':=' c 'in' k" := (st_bind c (fun x => k))
  (at level 100, x pattern, c at next level, right associativity) : mig_scope.
Notation "c ;;; k" := (st_bind c (fun _ => k))
  (at level 100, right associativity) : mig_scope.

(** ** Generic lemmas *)

Lemma st_bind_ret {S A B} (a : A) (k : A -> st S B) s :
  st_bind (st_ret a) k s = k a s.
Proof. reflexivity. Qed.

Lemma st_bind_run {S A B} (m : st S A) (k : A -> st S B) s a s' :
  m s = (Ret a, s') -> st_bind m k s = k a s'.
Proof. unfold st_bind. by intros ->. Qed.

Lemma st_bind_raise {S A B} (m : st S A) (k : A -> st S B) s e s' :
  m s = (Raise e, s') -> st_bind m k s = (Raise e, s').
Proof. unfold st_bind. by intros ->. Qed.

Lemma st_bind_ret_inv {S A B} (m : st S A) (k : A -> st S B) s b s'' :
  st_bind m k s = (Ret b, s'') -> exists a s', m s = (Ret a, s') /\ k a s' = (Ret b, s'').
Proof.
  unfold st_bind. destruct (m s) as [[a|e] s'] eqn:E; [|discriminate]. eauto.
Qed.

Lemma st_catch_ret {S A} (m : st S A) h s a s' :
  m s = (Ret a, s') -> st_catch m h s = (Ret a, s').
Proof. unfold st_catch. by intros ->. Qed.

Lemma st_catch_raise {S A} (m : st S A) h s e s' :
  m s = (Raise e, s') -> st_catch m h s = h e s'.
Proof. unfold st_catch. by intros ->. Qed.

(** Two computations equal at every state, the equivalence the
    equivalence theorems use. *)
Lemma st_bind_ext {S A B} (m : st S A) (k k' : A -> st S B) s :
  (forall a s', k a s' = k' a s') -> st_bind m k s = st_bind m k' s.
Proof. intros Hk. unfold st_bind. destruct (m s) as [[a|e] s']; [apply Hk|reflexivity]. Qed.

Lemma st_bind_ret_unit {S} (m : st S unit) s : st_bind m (fun _ => st_ret tt) s = m s.
Proof. unfold st_bind. by destruct (m s) as [[[]|e] s']. Qed.

(** A computation that never raises: from every state it returns. *)
Definition st_total {S A} (m : st S A) : Prop := forall s, exists a s', m s = (Ret a, s').

Lemma st_ret_total {S A} (a : A) : @st_total S A (st_ret a).
Proof. intros s. eauto. Qed.

Lemma st_bind_total {S A B} (m : st S A) (k : A -> st S B) :
  st_total m -> (forall a, st_total (k a)) -> st_total (st_bind m k).
Proof.
  intros Hm Hk s. destruct (Hm s) as (a & s' & E).
  unfold st_bind. rewrite E. apply Hk.
Qed.

Lemma st_catch_total {S A} (m : st S A) (h : string -> st S A) :
  (forall e, st_total (h e)) -> st_total (st_catch m h).
Proof.
  intros Hh s. unfold st_catch. destruct (m s) as [[a|e] s']; [eauto|apply Hh].
Qed.

#[export] Hint Resolve st_ret_total st_bind_total st_catch_total : mig.

(** A predicate of the state that a computation keeps, whether it
    returns or raises. *)
Definition st_preserves {S A} (P : S -> Prop) (m : st S A) : Prop :=
  forall s, P s -> P (snd (m s)).

Lemma st_ret_preserves {S A} (P : S -> Prop) (a : A) : st_preserves P (st_ret a).
Proof. intros s Hs. exact Hs. Qed.

Lemma st_raise_preserves {S A} (P : S -> Prop) e : st_preserves P (@st_raise S A e).
Proof. intros s Hs. exact Hs. Qed.

Lemma st_bind_preserves {S A B} (P : S -> Prop) (m : st S A) (k : A -> st S B) :
  st_preserves P m -> (forall a, st_preserves P (k a)) -> st_preserves P (st_bind m k).
Proof.
  intros Hm Hk s Hs. unfold st_bind. specialize (Hm s Hs).
  destruct (m s) as [[a|e] s']; [exact (Hk a s' Hm)|exact Hm].
Qed.

Lemma st_catch_preserves {S A} (P : S -> Prop) (m : st S A) h :
  st_preserves P m -> (forall e, st_preserves P (h e)) -> st_preserves P (st_catch m h).
Proof.
  intros Hm Hh s Hs. unfold st_catch. specialize (Hm s Hs).
  destruct (m s) as [[a|e] s']; [exact Hm|exact (Hh e s' Hm)].
Qed.

#[export] Hint Resolve st_ret_preserves st_raise_preserves : mig.

(** A computation that returns from every state where [Q] holds, in a
    state where [Q] still holds. *)
Definition st_total_on {S A} (Q : S -> Prop) (m : st S A) : Prop :=
  forall s, Q s -> exists a s', m s = (Ret a, s') /\ Q s'.

Lemma st_total_on_intro {S A} (Q : S -> Prop) (m : st S A) :
  st_total m -> st_preserves Q m -> st_total_on Q m.
Proof.
  intros Ht Hp s Hs. destruct (Ht s) as (a & s' & E). exists a, s'.
  split; [done|]. specialize (Hp s Hs). by rewrite E in Hp.
Qed.

Lemma st_bind_total_on {S A B} (Q : S -> Prop) (m : st S A) (k : A -> st S B) :
  st_total_on Q m -> (forall a, st_total_on Q (k a)) -> st_total_on Q (st_bind m k).
Proof.
  intros Hm Hk s Hs. destruct (Hm s Hs) as (a & s' & E & Hs').
  unfold st_bind. rewrite E. exact (Hk a s' Hs').
Qed.

Lemma st_catch_total_on {S A} (Q : S -> Prop) (m : st S A) (h : string -> st S A) :
  st_preserves Q m -> (forall e, st_total_on Q (h e)) -> st_total_on Q (st_catch m h).
Proof.
  intros Hm Hh s Hs. specialize (Hm s Hs). unfold st_catch.
  destruct (m s) as [[a|e] s']; [eauto|exact (Hh e s' Hm)].
Qed.

#[export] Hint Resolve st_total_on_intro st_bind_total_on st_catch_total_on : mig.

(** One step of a proof that a composed computation preserves a
    predicate: close it from the hints, or split a bind, a handler or a
    case. *)
Ltac preserve_step :=
  first [ solve [eauto with mig]
        | apply st_bind_preserves; [|intros ?]
        | apply st_catch_preserves; [|intros ?]
        | progress case_match ].

Lemma lower_char_idem c : lower_char (lower_char c) = lower_char c.
Proof. destruct c as [[] [] [] [] [] [] [] []]; vm_compute; reflexivity. Qed.

Lemma lower_idem s : lower (lower s) = lower s.
Proof. induction s as [|c s IH]; simpl; [done|]. by rewrite lower_char_idem, IH. Qed.

Lemma dict_get_app {V} k (d1 d2 : list (string * V)) dflt :
  dict_mem k d1 = false -> dict_get k (d1 ++ d2) dflt = dict_get k d2 dflt.
Proof.
  induction d1 as [|[k' v] d1 IH]; simpl; [done|].
  destruct (String.eqb k k'); simpl; [done|]. exact IH.
Qed.

Lemma dict_get_not_mem {V} k (d : list (string * V)) dflt :
  dict_mem k d = false -> dict_get k d dflt = dflt.
Proof.
  intros H. rewrite <- (app_nil_r d). rewrite dict_get_app by done. done.
Qed.

Lemma has_char_cons c d s :
  has_char c (String.String d s) = false -> c <> d /\ has_char c s = false.
Proof. simpl. destruct (ascii_dec c d); [done|]. auto. Qed.

Lemma has_char_app c s1 s2 :
  has_char c (s1 +:+ s2) = has_char c s1 || has_char c s2.
Proof.
  induction s1 as [|d s1 IH]; simpl; [done|].
  destruct (ascii_dec c d); [done|]. exact IH.
Qed.

Lemma str_of_N_inj n m : str_of_N n = str_of_N m -> n = m.
Proof.
  unfold str_of_N. intros H.
  apply (f_equal NilEmpty.uint_of_string) in H. rewrite !NilEmpty.usu in H.
  injection H as H. by rewrite <- (Unsigned.of_to n), <- (Unsigned.of_to m), H.
Qed.

Lemma append_cons c (s t : string) :
  String.String c s +:+ t = String.String c (s +:+ t).
Proof. reflexivity. Qed.

Lemma append_nil_l (t : string) : "" +:+ t = t.
Proof. reflexivity. Qed.

Lemma append_nil_r (s : string) : s +:+ "" = s.
Proof. induction s as [|c s IH]; [done|]. by rewrite append_cons, IH. Qed.

Lemma append_assoc (s1 s2 s3 : string) : (s1 +:+ s2) +:+ s3 = s1 +:+ (s2 +:+ s3).
Proof. induction s1 as [|c s1 IH]; [done|]. by rewrite !append_cons, IH. Qed.

Lemma append_length (s1 s2 : string) :
  String.length (s1 +:+ s2) = String.length s1 + String.length s2.
Proof. induction s1 as [|c s1 IH]; simpl; [done|]. by rewrite IH. Qed.

Lemma append_cancel_l (s t1 t2 : string) : s +:+ t1 = s +:+ t2 -> t1 = t2.
Proof. induction s as [|c s IH]; simpl; [done|]. intros H. injection H. exact IH. Qed.

Lemma append_cancel_r (s1 s2 t : string) : s1 +:+ t = s2 +:+ t -> s1 = s2.
Proof.
  revert s2. induction s1 as [|c s1 IH]; intros [|d s2] H; simpl in *; try done.
  - apply (f_equal String.length) in H. rewrite !append_length in H. simpl in H. lia.
  - apply (f_equal String.length) in H. rewrite !append_length in H. simpl in H. lia.
  - injection H as -> H. f_equal. by apply IH.
Qed.

Lemma all_chars_app p s1 s2 :
  all_chars p (s1 +:+ s2) = all_chars p s1 && all_chars p s2.
Proof. induction s1 as [|c s1 IH]; simpl; [done|]. by rewrite IH, andb_assoc. Qed.

Lemma has_char_all_chars c p s :
  p c = false -> all_chars p s = true -> has_char c s = false.
Proof.
  intros Hc. induction s as [|d s IH]; simpl; [done|].
  intros [Hd Hs]%andb_prop. destruct (ascii_dec c d) as [->|]; [congruence|].
  by apply IH.
Qed.

Lemma split_go_sep c cur s rest :
  has_char c s = false ->
  split_go c cur (s +:+ String.String c rest) = (cur +:+ s) :: split_go c "" rest.
Proof.
  revert cur. induction s as [|d s IH]; intros cur Hs.
  - rewrite append_nil_l. cbn [split_go]. destruct (ascii_dec c c) as [_|]; [|done].
    by rewrite append_nil_r.
  - apply has_char_cons in Hs as [Hd Hs]. rewrite append_cons. cbn [split_go].
    destruct (ascii_dec c d) as [|_]; [done|]. rewrite IH by done.
    rewrite append_assoc; reflexivity.
Qed.

Lemma split_go_none c cur s : has_char c s = false -> split_go c cur s = [cur +:+ s].
Proof.
  revert cur. induction s as [|d s IH]; intros cur Hs; cbn [split_go].
  - by rewrite append_nil_r.
  - apply has_char_cons in Hs as [Hd Hs]. destruct (ascii_dec c d) as [|_]; [done|].
    rewrite IH by done. rewrite append_assoc; reflexivity.
Qed.

Lemma forallb_map {A B} (f : A -> B) (p : B -> bool) (l : list A) :
  forallb p (map f l) = forallb (fun x => p (f x)) l.
Proof. induction l as [|x l IH]; cbn; [done|]. by rewrite IH. Qed.

Lemma forallb_weaken {A} (p q : A -> bool) (l : list A) :
  (forall x, p x = true -> q x = true) -> forallb p l = true -> forallb q l = true.
Proof. intros H. induction l as [|x l IH]; cbn; [done|]. intros [?%H ?%IH]%andb_prop. by apply andb_true_intro. Qed.

(** Setting a key keeps every key of the dictionary. *)
Lemma existsb_key_dict_set {V} (g : string -> bool) k (v : V) d :
  existsb (fun kv => g kv.1) d = true -> existsb (fun kv => g kv.1) (dict_set k v d) = true.
Proof.
  induction d as [|[k' v'] d IH]; cbn; [done|].
  destruct (String.eqb k k'); cbn; [done|]. intros [->|?]%orb_true_iff; [done|]. by rewrite IH, orb_true_r.
Qed.

(** ** SQL literals *)

(** A name with no quote, and no backslash where backslashes escape, is
    its own literal. *)
Lemma sql_literal_plain bs s :
  has_char squote s = false -> (bs = false \/ has_char bslash s = false) -> sql_literal bs s = Some s.
Proof.
  induction s as [|c s IH]; intros Hq Hb; [done|].
  apply has_char_cons in Hq as [Hq1 Hq2]. cbn [sql_literal].
  destruct (Ascii.eqb_spec c squote) as [->|_]; [done|].
  assert (Hb' : bs && Ascii.eqb c bslash = false).
  { destruct Hb as [->|Hb]; [done|]. apply has_char_cons in Hb as [Hb _].
    destruct (Ascii.eqb_spec c bslash); [congruence|]. by rewrite andb_false_r. }
  rewrite Hb', IH; [done|done|]. destruct Hb as [->|Hb]; [by left|right].
  by apply has_char_cons in Hb as [_ ?].
Qed.

Lemma my_unescape_length c : String.length (my_unescape c) <= 2.
Proof. unfold my_unescape, chr. repeat destruct (Ascii.eqb _ _); cbn; lia. Qed.

(** The value of a literal is no longer than the text between the
    quotes, and shorter when that text holds a quote. *)
Lemma sql_literal_length bs s v :
  sql_literal bs s = Some v ->
  String.length v <= String.length s /\
  (has_char squote s = true -> String.length v < String.length s).
Proof.
  revert v. induction s as [s IH] using (induction_ltof1 _ String.length); intros v.
  destruct s as [|c s']; cbn [sql_literal]; [intros [= <-]; cbn; split; [lia|done]|].
  destruct (Ascii.eqb_spec c squote) as [->|Hc].
  - destruct s' as [|d s'']; [done|]. destruct (Ascii.eqb_spec d squote) as [->|]; [|done].
    destruct (sql_literal bs s'') as [v'|] eqn:E; [|done]. intros [= <-].
    destruct (IH s'' ltac:(unfold ltof; cbn; lia) v' E) as [H1 _]. cbn. lia.
  - destruct (bs && Ascii.eqb c bslash).
    + destruct s' as [|d s'']; [done|].
      destruct (sql_literal bs s'') as [v'|] eqn:E; [|done]. intros [= <-].
      destruct (IH s'' ltac:(unfold ltof; cbn; lia) v' E) as [H1 H2].
      rewrite append_length. pose proof (my_unescape_length d).
      cbn [String.length has_char]. split; [lia|].
      destruct (ascii_dec squote c); [congruence|].
      destruct (ascii_dec squote d); [|intros; specialize (H2 ltac:(done)); lia].
      subst d. unfold my_unescape. intros _. cbn.
      destruct (sql_literal bs s'') eqn:?; lia.
    + destruct (sql_literal bs s') as [v'|] eqn:E; [|done]. intros [= <-].
      destruct (IH s' ltac:(unfold ltof; cbn; lia) v' E) as [H1 H2].
      cbn [String.length has_char]. split; [lia|].
      destruct (ascii_dec squote c); [congruence|]. intros H. specialize (H2 H). lia.
Qed.

(** [str(n)] of an integer is never empty. *)
Lemma str_of_N_nonempty n : str_of_N n <> "".
Proof.
  unfold str_of_N. intros E.
  pose proof (NilEmpty.usu (N.to_uint n)) as U. rewrite E in U.
  change (NilEmpty.uint_of_string "") with (Some Decimal.Nil) in U.
  injection U as U.
  pose proof (DecimalN.Unsigned.of_to n) as O. rewrite <- U in O.
  change (N.of_uint Decimal.Nil) with 0%N in O. subst n. discriminate U.
Qed.

Lemma str_of_Z_nonempty z : str_of_Z z <> "".
Proof.
  destruct z as [|p|p]; [discriminate| apply str_of_N_nonempty | discriminate].
Qed.

#[export] Hint Rewrite @st_bind_ret lower_idem has_char_app append_cons append_nil_l append_nil_r all_chars_app : mig_rw.
