(* ===== verification/TypeMapper.v ===== *)
(** * Type Mapper: [mysql_to_postgresql_type] (src/main.py, lines 67-107)

    The Python function builds a dictionary from MySQL type names to
    PostgreSQL type strings, in which the entries for [char] and
    [varchar] depend on [max_length], checks the [tinyint(1)] rule
    first, and looks the lower-cased name up with [TEXT] as the default.

    The abstract specification is the enumeration [pg_type] of the
    target types with the classification [classify] by families of
    source names; [mysql_to_postgresql_type_refines] shows that the
    string function is [render_pg_type] after [classify]. *)

From S2P Require Import Prelude.

Module TypeMapper.

(** [f'CHAR({max_length})' if max_length else 'CHAR'] (lines 84-85). *)
Definition sized (base : string) (max_length : option N) : string :=
  match max_length with
  | Some n => if N.eqb n 0 then base else base +:+ "(" +:+ str_of_N n +:+ ")"
  | None => base
  end.

(** The dictionary literal of lines 69-101, in its order. *)
Definition type_mapping (max_length : option N) : list (string * string) :=
  [("int", "INTEGER"); ("tinyint", "SMALLINT"); ("smallint", "SMALLINT");
   ("mediumint", "INTEGER"); ("bigint", "BIGINT"); ("float", "REAL");
   ("double", "DOUBLE PRECISION"); ("decimal", "DECIMAL");
   ("numeric", "NUMERIC"); ("date", "DATE"); ("datetime", "TIMESTAMP");
   ("timestamp", "TIMESTAMP"); ("time", "TIME"); ("year", "INTEGER");
   ("char", sized "CHAR" max_length); ("varchar", sized "VARCHAR" max_length);
   ("binary", "BYTEA"); ("varbinary", "BYTEA"); ("tinyblob", "BYTEA");
   ("tinytext", "TEXT"); ("blob", "BYTEA"); ("text", "TEXT");
   ("mediumblob", "BYTEA"); ("mediumtext", "TEXT"); ("longblob", "BYTEA");
   ("longtext", "TEXT"); ("enum", "TEXT"); ("set", "TEXT");
   ("boolean", "BOOLEAN"); ("bool", "BOOLEAN"); ("json", "JSONB")].

Definition is_one (o : option N) : bool :=
  match o with Some n => N.eqb n 1 | None => false end.

(** Lines 104-107. *)
Definition mysql_to_postgresql_type (mysql_type : string) (max_length : option N)
  : string :=
  if String.eqb (lower mysql_type) "tinyint" && is_one max_length then "BOOLEAN"
  else dict_get (lower mysql_type) (type_mapping max_length) "TEXT".

(** ** Abstract specification: the target types and the families *)

Inductive pg_type : Type :=
| TInteger | TSmallint | TBigint | TReal | TDouble | TDecimal | TNumeric
| TDate | TTimestamp | TTime | TChar (n : option N) | TVarchar (n : option N)
| TBytea | TText | TBoolean | TJsonb.

#[export] Instance pg_type_eq_dec : EqDecision pg_type.
Proof. solve_decision. Defined.

Definition render_pg_type (t : pg_type) : string :=
  match t with
  | TInteger => "INTEGER" | TSmallint => "SMALLINT" | TBigint => "BIGINT"
  | TReal => "REAL" | TDouble => "DOUBLE PRECISION" | TDecimal => "DECIMAL"
  | TNumeric => "NUMERIC" | TDate => "DATE" | TTimestamp => "TIMESTAMP"
  | TTime => "TIME" | TChar n => sized "CHAR" n | TVarchar n => sized "VARCHAR" n
  | TBytea => "BYTEA" | TText => "TEXT" | TBoolean => "BOOLEAN" | TJsonb => "JSONB"
  end.

Definition mem (k : string) (l : list string) : bool := existsb (String.eqb k) l.

Definition integer_names := ["int"; "mediumint"; "year"].
Definition smallint_names := ["tinyint"; "smallint"].
Definition timestamp_names := ["datetime"; "timestamp"].
Definition bytea_names :=
  ["binary"; "varbinary"; "tinyblob"; "blob"; "mediumblob"; "longblob"].
Definition text_names :=
  ["tinytext"; "text"; "mediumtext"; "longtext"; "enum"; "set"].
Definition boolean_names := ["boolean"; "bool"].

(** Section 4.1 of the specification, by families of names. *)
Definition classify (mysql_type : string) (max_length : option N) : pg_type :=
  let k := lower mysql_type in
  if String.eqb k "tinyint" && is_one max_length then TBoolean
  else if mem k integer_names then TInteger
  else if mem k smallint_names then TSmallint
  else if String.eqb k "bigint" then TBigint
  else if String.eqb k "float" then TReal
  else if String.eqb k "double" then TDouble
  else if String.eqb k "decimal" then TDecimal
  else if String.eqb k "numeric" then TNumeric
  else if String.eqb k "date" then TDate
  else if mem k timestamp_names then TTimestamp
  else if String.eqb k "time" then TTime
  else if String.eqb k "char" then TChar max_length
  else if String.eqb k "varchar" then TVarchar max_length
  else if mem k bytea_names then TBytea
  else if mem k boolean_names then TBoolean
  else if String.eqb k "json" then TJsonb
  else TText.

(** The names the dictionary knows. *)
Definition known_types : list string := map fst (type_mapping None).

(** ** Lemmas *)

Lemma type_mapping_keys ml : map fst (type_mapping ml) = known_types.
Proof. reflexivity. Qed.

Lemma dict_mem_type_mapping k ml :
  dict_mem k (type_mapping ml) = mem k known_types.
Proof.
  reflexivity.
Qed.

(** Case analysis on which known name a lower-cased string is. *)
Ltac split_names k :=
  repeat match goal with
         | |- context [String.eqb k ?c] =>
             destruct (String.eqb_spec k c) as [->|]; [reflexivity|]
         end.

(** ** Properties *)

(** C27: the string function implements the abstract classification:
    for every source type name and length, [mysql_to_postgresql_type]
    returns the rendering of [classify], so it always returns one of the
    enumerated target types. *)
Theorem mysql_to_postgresql_type_refines t ml :
  mysql_to_postgresql_type t ml = render_pg_type (classify t ml).
Proof.
  unfold mysql_to_postgresql_type, classify, mem; cbn -[String.eqb lower sized].
  set (k := lower t).
  destruct (String.eqb k "tinyint" && is_one ml); [reflexivity|].
  split_names k.
  repeat rewrite ?orb_false_l, ?orb_false_r. reflexivity.
Qed.

Lemma mysql_to_postgresql_type_lower t ml :
  mysql_to_postgresql_type t ml = mysql_to_postgresql_type (lower t) ml.
Proof. unfold mysql_to_postgresql_type. by rewrite lower_idem. Qed.

(** C36: the [tinyint(1)] rule is checked before the dictionary: a
    [tinyint] column of length 1 maps to [BOOLEAN], every other
    [tinyint] column to [SMALLINT], whatever the letter case. *)
Theorem tinyint_rule t ml :
  lower t = "tinyint" ->
  mysql_to_postgresql_type t ml = if is_one ml then "BOOLEAN" else "SMALLINT".
Proof. unfold mysql_to_postgresql_type. intros ->. by destruct (is_one ml). Qed.

Lemma tinyint_rule_witness :
  lower "TinyInt" = "tinyint" /\
  mysql_to_postgresql_type "TinyInt" (Some 1%N) = "BOOLEAN".
Proof. split; [reflexivity|]. exact (tinyint_rule "TinyInt" (Some 1%N) eq_refl). Defined.

(** C37: a type name the dictionary does not know (in any letter case)
    maps to [TEXT]: the mapper never fails. *)
Theorem unknown_type_text t ml :
  mem (lower t) known_types = false -> mysql_to_postgresql_type t ml = "TEXT".
Proof.
  intros H. unfold mysql_to_postgresql_type.
  destruct (String.eqb_spec (lower t) "tinyint") as [E|]; [by rewrite E in H|].
  apply dict_get_not_mem. by rewrite dict_mem_type_mapping.
Qed.

Lemma unknown_type_text_witness :
  mem (lower "totally_unknown_type") known_types = false /\
  mysql_to_postgresql_type "totally_unknown_type" None = "TEXT".
Proof. split; [reflexivity|]. apply unknown_type_text. reflexivity. Defined.

Lemma sized_inj base n m :
  n <> 0%N -> m <> 0%N -> sized base (Some n) = sized base (Some m) -> n = m.
Proof.
  intros Hn Hm. unfold sized.
  rewrite (proj2 (N.eqb_neq n 0) Hn), (proj2 (N.eqb_neq m 0) Hm).
  intros H. apply append_cancel_l in H. apply append_cancel_l in H.
  apply append_cancel_r in H. by apply str_of_N_inj.
Qed.

(** C38: the declared length of a [char] or [varchar] column is kept:
    two non-zero lengths give the same target type only when they are
    equal, and the target text is [VARCHAR(n)] with [n] in decimal. *)
Theorem varchar_length_kept t n m :
  lower t = "varchar" -> n <> 0%N -> m <> 0%N ->
  mysql_to_postgresql_type t (Some n) = "VARCHAR(" +:+ str_of_N n +:+ ")" /\
  (mysql_to_postgresql_type t (Some n) = mysql_to_postgresql_type t (Some m) -> n = m).
Proof.
  intros Ht Hn Hm. unfold mysql_to_postgresql_type. rewrite Ht. cbn -[sized]. split.
  - unfold sized. by rewrite (proj2 (N.eqb_neq n 0) Hn).
  - by apply sized_inj.
Qed.

Lemma varchar_length_kept_witness :
  mysql_to_postgresql_type "VARCHAR" (Some 50%N) = "VARCHAR(50)".
Proof.
  exact (proj1 (varchar_length_kept "VARCHAR" 50 50 eq_refl ltac:(lia) ltac:(lia))).
Defined.

(** A declared length of 0 is dropped: [char(0)] becomes a bare [CHAR],
    which PostgreSQL reads as [CHAR(1)]. *)
Example char_zero_length_bare : mysql_to_postgresql_type "char" (Some 0%N) = "CHAR".
Proof. reflexivity. Qed.

End TypeMapper.
