(* ===== verification/Hex.v ===== *)
(** * Hex: [bytes.hex()] as [export_table_data] applies it (src/main.py, line 181)

    A binary column value is written to the CSV file as the lowercase
    hexadecimal text [value.hex()], two digits per byte.  This file
    models [hex], its inverse [unhex] with the round trip, the alphabet
    of the output, and what PostgreSQL's [bytea] input does with that
    text when it reaches a [BYTEA] column ([bytea_escape_in]: text with
    no backslash and no [\x] prefix is read byte for byte). *)

From S2P Require Import Prelude.

Module Hex.

Definition hex_digit (n : nat) : ascii :=
  if Nat.ltb n 10 then ascii_of_nat (48 + n) else ascii_of_nat (87 + n).

Definition byte_hex (b : Byte.byte) : string :=
  let n := Byte.to_nat b in
  String.String (hex_digit (n / 16)) (String.String (hex_digit (n mod 16)) "").

(** [value.hex()]. *)
Fixpoint hex (bs : list Byte.byte) : string :=
  match bs with
  | [] => ""
  | b :: bs' => byte_hex b +:+ hex bs'
  end.

(** ** The inverse: [bytes.fromhex] on lowercase text *)

Definition digit_val (c : ascii) : option nat :=
  let n := nat_of_ascii c in
  if Nat.leb 48 n && Nat.leb n 57 then Some (n - 48)
  else if Nat.leb 97 n && Nat.leb n 102 then Some (n - 87)
  else None.

Fixpoint unhex (s : string) : option (list Byte.byte) :=
  match s with
  | String.EmptyString => Some []
  | String.String a (String.String b s') =>
      match digit_val a, digit_val b, unhex s' with
      | Some x, Some y, Some bs => option_map (fun b => b :: bs) (Byte.of_nat (16 * x + y))
      | _, _, _ => None
      end
  | _ => None
  end.

Definition is_hex_char (c : ascii) : bool :=
  match digit_val c with Some _ => true | None => false end.


(** ** PostgreSQL's [bytea] input in escape format, for text without a
    backslash: each character becomes the byte of its code. *)
Fixpoint bytea_escape_in (s : string) : list Byte.byte :=
  match s with
  | String.EmptyString => []
  | String.String c s' => byte_of_ascii c :: bytea_escape_in s'
  end.

(** ** Lemmas *)

Lemma digit_val_hex_digit n : n < 16 -> digit_val (hex_digit n) = Some n.
Proof. intros H. do 16 (destruct n as [|n]; [reflexivity|]). lia. Qed.

Lemma unhex_byte_hex b s :
  unhex (byte_hex b +:+ s) = option_map (fun bs => b :: bs) (unhex s).
Proof.
  pose proof (Byte.to_nat_bounded b) as Hb.
  unfold byte_hex. rewrite !append_cons, append_nil_l. cbn [unhex].
  rewrite !digit_val_hex_digit.
  2: apply Nat.mod_upper_bound; lia.
  2: apply Nat.Div0.div_lt_upper_bound; lia.
  destruct (unhex s); [|reflexivity].
  rewrite <- Nat.div_mod_eq, Byte.of_to_nat. reflexivity.
Qed.

Lemma byte_hex_chars b : all_chars is_hex_char (byte_hex b) = true.
Proof. destruct b; reflexivity. Qed.



Lemma bytea_escape_in_app s1 s2 :
  bytea_escape_in (s1 +:+ s2) = (bytea_escape_in s1 ++ bytea_escape_in s2)%list.
Proof. induction s1 as [|c s1 IH]; simpl; [done|]. by rewrite IH. Qed.

Lemma bytea_escape_in_length s : length (bytea_escape_in s) = String.length s.
Proof. induction s as [|c s IH]; simpl; [done|]. by rewrite IH. Qed.

Lemma hex_length bs : String.length (hex bs) = 2 * length bs.
Proof.
  induction bs as [|b bs IH]; [done|]. cbn [hex length].
  rewrite append_length, IH. change (String.length (byte_hex b)) with 2. lia.
Qed.

#[export] Hint Rewrite unhex_byte_hex bytea_escape_in_app : mig_rw.

(** ** Properties *)

(** C29: [hex] is lossless: decoding the text written for a binary value
    gives back its bytes. *)
Theorem unhex_hex bs : unhex (hex bs) = Some bs.
Proof.
  induction bs as [|b bs IH]; [reflexivity|].
  cbn [hex]. rewrite unhex_byte_hex, IH. reflexivity.
Qed.

(** C30: the text written for a binary value uses only the characters
    [0-9a-f], so it contains no comma, quote, newline or backslash: the
    CSV writer never quotes it and nothing escapes inside it. *)
Theorem hex_alphabet bs :
  all_chars is_hex_char (hex bs) = true /\
  has_char comma (hex bs) = false /\ has_char dquote (hex bs) = false /\
  has_char newline (hex bs) = false /\ has_char creturn (hex bs) = false /\
  has_char "092"%char (hex bs) = false.
Proof.
  assert (H : all_chars is_hex_char (hex bs) = true).
  { induction bs as [|b bs IH]; [done|]. cbn [hex].
    rewrite all_chars_app, byte_hex_chars. exact IH. }
  repeat split; [exact H|..]; apply (has_char_all_chars _ is_hex_char); done.
Qed.

(** C28: the hex text is not what a [BYTEA] column needs: read by
    PostgreSQL's [bytea] input (no [\x] prefix, so escape format), a
    non-empty binary value [bs] is stored as the [2 * length bs] bytes of
    its hex digits, never as [bs] itself. *)
Theorem hex_not_restored bs :
  bs <> [] ->
  bytea_escape_in (hex bs) <> bs /\
  length (bytea_escape_in (hex bs)) = 2 * length bs.
Proof.
  intros Hne.
  assert (Hl : length (bytea_escape_in (hex bs)) = 2 * length bs)
    by now rewrite bytea_escape_in_length, hex_length.
  split; [|exact Hl].
  intros E. rewrite E in Hl. destruct bs; [done|]. simpl in Hl. lia.
Qed.

Lemma hex_not_restored_witness :
  hex [Byte.xff; Byte.x00] = "ff00" /\
  bytea_escape_in (hex [Byte.xff; Byte.x00]) <> [Byte.xff; Byte.x00].
Proof.
  split; [reflexivity|].
  exact (proj1 (hex_not_restored [Byte.xff; Byte.x00] ltac:(discriminate))).
Defined.

End Hex.
