(* ===== verification/Csv.v ===== *)
(** * Csv: the interchange file (specification, section 6)

    [export_table_data] writes the file with [csv.writer(csv_file,
    quoting=csv.QUOTE_MINIMAL)] (lines 164-187) and [import_table_data]
    reads it back with [csv.reader] on a file opened in text mode
    (lines 230-243).  Both are Python's library, modelled here from the
    behaviour the specification and the library document:

    - the writer turns [None] into an empty field, quotes a field that
      contains a comma, a double quote, CR or LF, doubles the quotes in
      it, writes a row made of one empty field as [""] and ends every
      row with CR LF;
    - text mode applies universal newlines: CR LF and lone CR become LF;
    - the reader is the state machine of [_csv.c] ([parse_process_char])
      on a text without CR: a blank line gives the empty row, a field
      that starts with a quote ends at the next single quote, and a row
      ends at LF.  At the end of the input an unfinished row is kept.
      The field size limit of the library is not modelled. *)

From S2P Require Import Prelude.

Module Csv.

(** ** The writer *)

Definition needs_quote (s : string) : bool :=
  has_char comma s || has_char dquote s || has_char newline s || has_char creturn s.

Fixpoint double_quotes (s : string) : string :=
  match s with
  | String.EmptyString => ""
  | String.String c s' =>
      if ascii_dec c dquote then String.String dquote (String.String dquote (double_quotes s'))
      else String.String c (double_quotes s')
  end.

Definition field_text (f : option string) : string :=
  match f with Some s => s | None => "" end.

Definition write_field (f : option string) : string :=
  let s := field_text f in
  if needs_quote s then chr dquote +:+ double_quotes s +:+ chr dquote else s.

Definition crlf : string := String.String creturn (chr newline).

(** The fields of a row joined by commas; a row made of one empty field
    is written as two quotes so that it is not read as a blank line. *)
Definition row_body (r : list (option string)) : string :=
  match r with
  | [f] => if String.eqb (field_text f) "" then chr dquote +:+ chr dquote
           else write_field f
  | _ => join (chr comma) (map write_field r)
  end.

(** [writer.writerow(row)]. *)
Definition write_row (r : list (option string)) : string := row_body r +:+ crlf.

(** [writer.writerows(rows)]. *)
Fixpoint write_rows (rows : list (list (option string))) : string :=
  match rows with
  | [] => ""
  | r :: rows' => write_row r +:+ write_rows rows'
  end.

Lemma write_rows_app (l1 l2 : list (list (option string))) :
  write_rows (l1 ++ l2)%list = write_rows l1 +:+ write_rows l2.
Proof.
  induction l1 as [|r l1 IH]; [done|]. cbn [write_rows app].
  by rewrite IH, append_assoc.
Qed.

(** ** Universal newlines of [open(path, 'r')] *)

Fixpoint univ_nl (s : string) : string :=
  match s with
  | String.EmptyString => ""
  | String.String c s' =>
      if ascii_dec c creturn then
        match s' with
        | String.String d s'' =>
            if ascii_dec d newline then String.String newline (univ_nl s'')
            else String.String newline (univ_nl s')
        | String.EmptyString => chr newline
        end
      else String.String c (univ_nl s')
  end.

(** ** The reader *)

Inductive pstate : Type :=
| StartRecord | StartField | InField | InQuoted | QuoteInQuoted.

#[export] Instance pstate_eq_dec : EqDecision pstate.
Proof. solve_decision. Defined.

(** The parser: its state, the field being read, the fields of the
    current row (last first) and the rows read so far (last first). *)
Record parser : Type := mkParser {
  pst : pstate;
  pfield : string;
  prow : list string;
  pout : list (list string)
}.

Definition add_char (p : parser) (c : ascii) (s : pstate) : parser :=
  mkParser s (pfield p +:+ chr c) (prow p) (pout p).

Definition save_field (p : parser) : parser :=
  mkParser StartField "" (pfield p :: prow p) (pout p).

Definition end_row (p : parser) : parser :=
  mkParser StartRecord "" [] (rev (pfield p :: prow p) :: pout p).

Definition start_field (p : parser) (c : ascii) : parser :=
  if ascii_dec c newline then end_row p
  else if ascii_dec c dquote then mkParser InQuoted (pfield p) (prow p) (pout p)
  else if ascii_dec c comma then save_field p
  else add_char p c InField.

Definition step (p : parser) (c : ascii) : parser :=
  match pst p with
  | StartRecord =>
      if ascii_dec c newline then mkParser StartRecord "" [] ([] :: pout p)
      else start_field p c
  | StartField => start_field p c
  | InField =>
      if ascii_dec c newline then end_row p
      else if ascii_dec c comma then save_field p
      else add_char p c InField
  | InQuoted =>
      if ascii_dec c dquote then mkParser QuoteInQuoted (pfield p) (prow p) (pout p)
      else add_char p c InQuoted
  | QuoteInQuoted =>
      if ascii_dec c dquote then add_char p dquote InQuoted
      else if ascii_dec c comma then save_field p
      else if ascii_dec c newline then end_row p
      else add_char p c InField
  end.

Fixpoint run (s : string) (p : parser) : parser :=
  match s with
  | String.EmptyString => p
  | String.String c s' => run s' (step p c)
  end.

Definition finish (p : parser) : list (list string) :=
  match pst p with
  | StartRecord => rev (pout p)
  | _ => rev (rev (pfield p :: prow p) :: pout p)
  end.

Definition init : parser := mkParser StartRecord "" [] [].

(** [list(csv.reader(f))] for a file [f] holding [s]. *)
Definition read_rows (s : string) : list (list string) := finish (run (univ_nl s) init).

Example write_read_example :
  read_rows (write_rows [[Some "a,b"; None; Some ("q" +:+ chr dquote)]; [None]; []])
  = [["a,b"; ""; "q" +:+ chr dquote]; [""]; []].
Proof. vm_compute. reflexivity. Qed.

(** ** Lemmas on the reader *)

Lemma run_app s1 s2 p : run (s1 +:+ s2) p = run s2 (run s1 p).
Proof. revert p. induction s1 as [|c s1 IH]; intros p; [done|]. exact (IH _). Qed.

(** Characters that are not the quote, the comma or LF. *)
Definition plain (c : ascii) : Prop := c <> dquote /\ c <> comma /\ c <> newline.

Ltac decide_chars :=
  repeat match goal with
         | |- context [ascii_dec ?a ?b] =>
             let E := fresh "E" in
             destruct (ascii_dec a b) as [E|E];
             [ try (exfalso; unfold dquote, comma, newline, creturn in E;
                    discriminate E);
               try (exfalso; congruence)
             | try (exfalso; congruence) ]
         end.

Lemma step_plain p c st :
  plain c -> (pst p = st) -> (st = InField \/ st = StartField \/ st = StartRecord) ->
  step p c = add_char p c InField.
Proof.
  intros (Hq & Hc & Hn) <- Hst. unfold step, start_field.
  destruct Hst as [-> | [-> | ->]]; decide_chars; reflexivity.
Qed.

Lemma run_plain s p :
  pst p = InField -> has_char comma s = false -> has_char dquote s = false ->
  has_char newline s = false ->
  run s p = mkParser InField (pfield p +:+ s) (prow p) (pout p).
Proof.
  revert p. induction s as [|c s IH]; intros p Hp Hc Hq Hn.
  - destruct p; simpl in *; subst. by rewrite append_nil_r.
  - apply has_char_cons in Hc as [Hc1 Hc2], Hq as [Hq1 Hq2], Hn as [Hn1 Hn2].
    cbn [run]. rewrite (step_plain p c InField); [|split_and!; congruence|done|auto].
    rewrite IH by done. unfold add_char; simpl. by rewrite append_assoc.
Qed.

Lemma run_double_quotes s p :
  pst p = InQuoted ->
  run (double_quotes s) p = mkParser InQuoted (pfield p +:+ s) (prow p) (pout p).
Proof.
  revert p. induction s as [|c s IH]; intros p Hp.
  - destruct p; simpl in *; subst. by rewrite append_nil_r.
  - cbn [double_quotes]. destruct (ascii_dec c dquote) as [->|Hc].
    + cbn [run]. unfold step at 2. rewrite Hp. decide_chars.
      simpl. rewrite IH by done. simpl. by rewrite append_assoc.
    + cbn [run]. unfold step. rewrite Hp. decide_chars.
      rewrite IH by done. unfold add_char; simpl. by rewrite append_assoc.
Qed.

Lemma needs_quote_false s :
  needs_quote s = false ->
  has_char comma s = false /\ has_char dquote s = false /\
  has_char newline s = false /\ has_char creturn s = false.
Proof. unfold needs_quote. rewrite !orb_false_iff. tauto. Qed.

Lemma run_field f p :
  pfield p = "" -> pst p = StartRecord \/ pst p = StartField ->
  exists st, run (write_field f) p = mkParser st (field_text f) (prow p) (pout p) /\
    (st = InField \/ st = QuoteInQuoted \/ (st = pst p /\ field_text f = "")).
Proof.
  intros Hf Hst. unfold write_field. set (s := field_text f).
  destruct (needs_quote s) eqn:Q.
  - exists QuoteInQuoted. split; [|auto].
    rewrite !run_app. cbn [run chr].
    assert (E : step p dquote = mkParser InQuoted "" (prow p) (pout p)).
    { unfold step, start_field. rewrite <- Hf.
      destruct Hst as [-> | ->]; decide_chars; reflexivity. }
    rewrite E, run_double_quotes by done. cbn. decide_chars. reflexivity.
  - apply needs_quote_false in Q as (Hc & Hq & Hn & _).
    destruct s as [|c s'] eqn:Es.
    + exists (pst p). split; [|auto]. destruct p; simpl in *; by subst.
    + exists InField. split; [|auto].
      apply has_char_cons in Hc as [Hc1 Hc2], Hq as [Hq1 Hq2], Hn as [Hn1 Hn2].
      cbn [run]. rewrite (step_plain p c (pst p)); [|split_and!; congruence|done|tauto].
      rewrite run_plain by done. simpl. by rewrite Hf.
Qed.

Lemma step_comma_ready q : pst q <> InQuoted -> step q comma = save_field q.
Proof. destruct q as [[] f r o]; intros H; unfold step, start_field; simpl; decide_chars; done. Qed.

Lemma step_newline_ready q :
  pst q = StartField \/ pst q = InField \/ pst q = QuoteInQuoted ->
  step q newline = end_row q.
Proof.
  destruct q as [[] f r o]; simpl; intros H; unfold step, start_field; simpl;
    decide_chars; try done; naive_solver.
Qed.

Lemma join_cons2 sep x y l : join sep (x :: y :: l) = x +:+ sep +:+ join sep (y :: l).
Proof. reflexivity. Qed.

Lemma run_fields f fs p rest :
  pfield p = "" ->
  pst p = StartField \/ (pst p = StartRecord /\ (fs <> [] \/ field_text f <> "")) ->
  run (join (chr comma) (map write_field (f :: fs)) +:+ chr newline +:+ rest) p =
  run rest (mkParser StartRecord "" [] ((rev (prow p) ++ map field_text (f :: fs))%list :: pout p)).
Proof.
  revert f p. induction fs as [|g fs IH]; intros f p Hf Hst.
  - cbn [map join]. rewrite !run_app.
    destruct (run_field f p Hf) as (st & -> & Hst'); [naive_solver|].
    cbn [run chr].
    rewrite step_newline_ready by (simpl; naive_solver).
    unfold end_row; simpl. by rewrite <- (app_nil_l [field_text f]).
  - cbn [map]. rewrite join_cons2, !append_assoc, run_app.
    destruct (run_field f p Hf) as (st & -> & Hst'); [naive_solver|].
    rewrite run_app. cbn [run chr].
    rewrite step_comma_ready
      by (simpl; destruct Hst' as [->|[->|[-> _]]]; [done|done|];
          destruct Hst as [->|[-> _]]; done).
    change (write_field g :: map write_field fs) with (map write_field (g :: fs)).
    rewrite IH by (simpl; auto).
    simpl. by rewrite <- app_assoc.
Qed.

Lemma run_row r out rest :
  run (row_body r +:+ chr newline +:+ rest) (mkParser StartRecord "" [] out) =
  run rest (mkParser StartRecord "" [] (map field_text r :: out)).
Proof.
  destruct r as [|f [|g fs]].
  - reflexivity.
  - cbn [row_body]. destruct (String.eqb_spec (field_text f) "") as [E|E].
    + cbn. rewrite E. reflexivity.
    + exact (run_fields f [] (mkParser StartRecord "" [] out) rest eq_refl
               (or_intror (conj eq_refl (or_intror E)))).
  - refine (run_fields f (g :: fs) (mkParser StartRecord "" [] out) rest eq_refl
              (or_intror (conj eq_refl (or_introl _)))).
    discriminate.
Qed.

(** ** Lemmas on universal newlines *)

Lemma univ_nl_app s t :
  has_char creturn s = false -> univ_nl (s +:+ t) = s +:+ univ_nl t.
Proof.
  induction s as [|c s IH]; intros H; [done|].
  apply has_char_cons in H as [Hc Hs]. rewrite append_cons. cbn [univ_nl].
  destruct (ascii_dec c creturn); [congruence|]. by rewrite IH.
Qed.

Lemma univ_nl_crlf t : univ_nl (crlf +:+ t) = chr newline +:+ univ_nl t.
Proof. reflexivity. Qed.

Lemma has_char_double_quotes c s :
  c <> dquote -> has_char c (double_quotes s) = has_char c s.
Proof.
  intros Hc. induction s as [|d s IH]; [done|]. cbn [double_quotes].
  destruct (ascii_dec d dquote) as [->|]; simpl; decide_chars; done.
Qed.

Lemma has_char_join c sep xs :
  has_char c sep = false -> Forall (fun x => has_char c x = false) xs ->
  has_char c (join sep xs) = false.
Proof.
  intros Hs. induction 1 as [|x xs Hx Hxs IH]; [done|].
  destruct xs; [done|]. rewrite join_cons2, !has_char_app, Hx, Hs, IH. done.
Qed.

Definition no_cr (f : option string) : Prop := has_char creturn (field_text f) = false.

(** A character other than the quote and the comma that no field
    holds is not in the text the writer makes of them. *)
Lemma write_field_no_char c f :
  c <> dquote -> has_char c (field_text f) = false -> has_char c (write_field f) = false.
Proof.
  unfold write_field. intros Hd H. destruct (needs_quote _); [|done].
  rewrite !has_char_app, has_char_double_quotes, H by exact Hd. cbn [has_char chr].
  by destruct (ascii_dec c dquote).
Qed.

Lemma row_body_no_char c r :
  c <> dquote -> c <> comma -> Forall (fun f => has_char c (field_text f) = false) r ->
  has_char c (row_body r) = false.
Proof.
  intros Hd Hc H. destruct r as [|f [|g fs]].
  - done.
  - cbn [row_body]. destruct (String.eqb _ _).
    + rewrite has_char_app. cbn [has_char chr]. by destruct (ascii_dec c dquote).
    + apply write_field_no_char; [done|]. by inversion H.
  - apply has_char_join; [cbn [has_char chr]; by destruct (ascii_dec c comma)|].
    clear -H Hd. induction H; constructor; [by apply write_field_no_char|done].
Qed.

Lemma write_field_no_cr f : no_cr f -> has_char creturn (write_field f) = false.
Proof. apply write_field_no_char. discriminate. Qed.

Lemma row_body_no_cr r : Forall no_cr r -> has_char creturn (row_body r) = false.
Proof. apply row_body_no_char; discriminate. Qed.

Lemma run_write_rows rows out :
  Forall (Forall no_cr) rows ->
  run (univ_nl (write_rows rows)) (mkParser StartRecord "" [] out) =
  mkParser StartRecord "" [] (rev (map (map field_text) rows) ++ out)%list.
Proof.
  intros H. revert out. induction H as [|r rows Hr Hrows IH]; intros out; [done|].
  cbn [write_rows]. unfold write_row.
  rewrite append_assoc, univ_nl_app by (by apply row_body_no_cr).
  rewrite univ_nl_crlf, run_row, IH. simpl. by rewrite <- app_assoc.
Qed.

(** ** Properties *)

(** The interchange file round-trips: reading back, through
    universal newlines and [csv.reader], the text [csv.writer] wrote for
    any rows whose fields hold no CR gives every row and every field in
    order, with [None] read as the empty string. *)
Theorem read_write_rows rows :
  Forall (Forall no_cr) rows ->
  read_rows (write_rows rows) = map (map field_text) rows.
Proof.
  intros H. unfold read_rows, init. rewrite run_write_rows by done.
  unfold finish; simpl. by rewrite app_nil_r, rev_involutive.
Qed.

Lemma read_write_rows_witness :
  read_rows (write_rows [[Some "id"; Some "v"]; [Some "1"; None]; [Some "2"; Some "a,b"]])
  = [["id"; "v"]; ["1"; ""]; ["2"; "a,b"]].
Proof. apply read_write_rows. repeat constructor. Defined.

End Csv.
