(* ===== verification/Catalog.v ===== *)
(** * Catalog: the MySQL side and the introspection queries

    The source database is read only: it is a record of catalogue rows
    ([INFORMATION_SCHEMA.COLUMNS], [KEY_COLUMN_USAGE], [STATISTICS]) and
    table contents, with a failure oracle [my_fails] for the queries the
    server rejects for reasons outside the model (lost connection,
    missing privilege).  The queries interpolate names into SQL string
    literals ([WHERE TABLE_NAME = '{table_name}']).  The server reads
    the literal with its escapes ([sql_literal] of the prelude, with
    backslash escapes): a doubled quote or an escape sequence stands
    for one character, so the query looks up another name than the one
    written, and a literal that ends early or never ends is a syntax
    error ([my_literal], [my_select]).  A name crafted so that the text
    after the early end is valid SQL (an injection) is outside the
    model, which answers with the syntax error.  [ORDER BY] is the stable
    sort [sort_by] of the prelude.

    Functions of src/main.py modelled here: [get_tables] (40-46),
    [get_table_schema] (48-65), [get_primary_keys] (268-282),
    [get_foreign_keys] (312-347) and [get_indexes] (387-418).  None of
    them catches an exception: a failed query raises to the caller. *)

From S2P Require Import Prelude.

Module Catalog.

(** A value of a row as the MySQL cursor returns it: [None], [bytes],
    [int], [str], or another Python object ([Decimal], [datetime], ...)
    given by its [str()]. *)
Inductive pyval : Type :=
| PyNone
| PyBytes (b : list Byte.byte)
| PyInt (z : Z)
| PyStr (s : string)
| PyOther (text : string).

(** A row of [INFORMATION_SCHEMA.COLUMNS] as selected at lines 52-57. *)
Record column_row : Type := mkColumn {
  col_name : string;
  data_type : string;
  char_max_length : option N;
  is_nullable : string;
  column_default : option string
}.

(** A row of [KEY_COLUMN_USAGE] for a foreign key (lines 316-321). *)
Record fk_row : Type := mkFkRow {
  fk_schema : string;
  fk_table : string;
  fk_column : string;
  fk_constraint : string;
  fk_ref_schema : string;
  fk_ref_table : string;
  fk_ref_column : string
}.

(** A row of [STATISTICS] (lines 391-394). *)
Record stat_row : Type := mkStat {
  st_index : string;
  st_seq : nat;
  st_column : string;
  st_non_unique : Z
}.

Record my_table : Type := mkTable {
  mt_name : string;
  mt_columns : list (nat * column_row);    (** ORDINAL_POSITION, row *)
  mt_primary : list (nat * string);        (** PRIMARY rows of KEY_COLUMN_USAGE *)
  mt_stats : list stat_row;
  mt_rows : list (list pyval)
}.

Inductive my_query : Type :=
| QShowTables
| QColumns (t : string)
| QPrimary (t : string)
| QForeignKeys (db : string)
| QIndexes (t : string)
| QSelectAll (t : string).

Record mysql : Type := mkMysql {
  my_tables : list my_table;
  my_fk_rows : list fk_row;
  my_fails : my_query -> bool
}.

(** The name a catalogue query compares with a column of
    [INFORMATION_SCHEMA] when the program writes [name] between single
    quotes: the value of the literal, without trailing spaces (the
    catalogue's collation pads with spaces, and no MySQL name ends with
    one).  [None] when the literal is malformed. *)
Definition my_literal (name : string) : option string :=
  option_map rstrip_spaces (sql_literal true name).

Definition err_operational : string := "mysql.connector.errors.OperationalError".
Definition err_syntax : string := "mysql.connector.errors.ProgrammingError: 1064".

(** [cursor.execute(sql); cursor.fetchall()]. *)
Definition my_run {A} (db : mysql) (q : my_query) (well_formed : bool) (rows : list A)
  : outcome (list A) :=
  if my_fails db q then Raise err_operational
  else if well_formed then Ret rows else Raise err_syntax.

(** A query whose text holds [name] in a literal: a syntax error when
    the literal is malformed, else the rows for the literal's value. *)
Definition my_select {A} (db : mysql) (q : my_query) (name : string) (rows : string -> list A)
  : outcome (list A) :=
  match my_literal name with
  | Some v => my_run db q true (rows v)
  | None => my_run db q false []
  end.

Definition find_table (db : mysql) (t : string) : option my_table :=
  List.find (fun mt => String.eqb (mt_name mt) t) (my_tables db).

Definition table_part {A} (db : mysql) (t : string) (f : my_table -> list A) : list A :=
  match find_table db t with Some mt => f mt | None => [] end.

Definition by_ordinal {A} (x y : nat * A) : bool := Nat.leb x.1 y.1.

(** [get_tables] (lines 40-46): [SHOW TABLES]. *)
Definition get_tables (db : mysql) : outcome (list string) :=
  my_run db QShowTables true (map mt_name (my_tables db)).

(** [get_table_schema] (lines 48-65). *)
Definition get_table_schema (db : mysql) (table_name : string) : outcome (list column_row) :=
  my_select db (QColumns table_name) table_name
    (fun v => map snd (sort_by by_ordinal (table_part db v mt_columns))).

(** [get_primary_keys] (lines 268-282). *)
Definition get_primary_keys (db : mysql) (table_name : string) : outcome (list string) :=
  my_select db (QPrimary table_name) table_name
    (fun v => map snd (sort_by by_ordinal (table_part db v mt_primary))).

(** ** Foreign keys (lines 312-347) *)

Record fk_info : Type := mkFkInfo {
  fi_table : string;
  fi_columns : list string;
  fi_ref_table : string;
  fi_ref_columns : list string
}.

(** [ORDER BY TABLE_NAME, CONSTRAINT_NAME] in binary collation. *)
Definition fk_order (a b : fk_row) : bool :=
  if String.eqb (fk_table a) (fk_table b) then String.leb (fk_constraint a) (fk_constraint b)
  else String.leb (fk_table a) (fk_table b).

Definition fk_query_rows (db : mysql) (database : string) : list fk_row :=
  sort_by fk_order
    (List.filter (fun r => String.eqb (fk_ref_schema r) database) (my_fk_rows db)).

(** Lines 337-342: the entry created for a new constraint name. *)
Definition fk_init (r : fk_row) : fk_info := mkFkInfo (fk_table r) [] (fk_ref_table r) [].

(** Lines 344-345. *)
Definition fk_add (r : fk_row) (i : fk_info) : fk_info :=
  mkFkInfo (fi_table i) (fi_columns i ++ [fk_column r])%list
           (fi_ref_table i) (fi_ref_columns i ++ [fk_ref_column r])%list.

(** The loop of lines 332-345. *)
Definition group_foreign_keys (rows : list fk_row) : list (string * fk_info) :=
  fold_left (group_step fk_constraint fk_init fk_add) rows [].

Definition get_foreign_keys (db : mysql) (database : string)
  : outcome (list (string * fk_info)) :=
  match my_select db (QForeignKeys database) database (fk_query_rows db) with
  | Ret rows => Ret (group_foreign_keys rows)
  | Raise e => Raise e
  end.

(** ** Indexes (lines 387-418) *)

Record index_info : Type := mkIndexInfo {
  ii_columns : list string;
  ii_unique : bool
}.

(** [ORDER BY INDEX_NAME, SEQ_IN_INDEX]. *)
Definition stat_order (a b : stat_row) : bool :=
  if String.eqb (st_index a) (st_index b) then Nat.leb (st_seq a) (st_seq b)
  else String.leb (st_index a) (st_index b).

Definition index_query_rows (db : mysql) (table_name : string) : list stat_row :=
  sort_by stat_order
    (List.filter (fun r => negb (String.eqb (st_index r) "PRIMARY"))
       (table_part db table_name mt_stats)).

(** Lines 411-414: [{'columns': [], 'is_unique': not bool(non_unique)}]. *)
Definition idx_init (r : stat_row) : index_info := mkIndexInfo [] (Z.eqb (st_non_unique r) 0).

(** Line 416. *)
Definition idx_add (r : stat_row) (i : index_info) : index_info :=
  mkIndexInfo (ii_columns i ++ [st_column r])%list (ii_unique i).

Definition group_indexes (rows : list stat_row) : list (string * index_info) :=
  fold_left (group_step st_index idx_init idx_add) rows [].

Definition get_indexes (db : mysql) (table_name : string)
  : outcome (list (string * index_info)) :=
  match my_select db (QIndexes table_name) table_name (index_query_rows db) with
  | Ret rows => Ret (group_indexes rows)
  | Raise e => Raise e
  end.

(** ** Lemmas *)

Lemma my_run_ret {A} db q wf (rows out : list A) :
  my_run db q wf rows = Ret out -> out = rows /\ my_fails db q = false /\ wf = true.
Proof.
  unfold my_run. destruct (my_fails db q), wf; intros H; inversion H; auto.
Qed.

Lemma my_select_ret {A} db q name (rows : string -> list A) out :
  my_select db q name rows = Ret out ->
  exists v, my_literal name = Some v /\ out = rows v /\ my_fails db q = false.
Proof.
  unfold my_select. destruct (my_literal name) as [v|]; intros (-> & Hf & Hw)%my_run_ret;
    [by exists v|done].
Qed.

Lemma length_string_of_list l : String.length (String.string_of_list_ascii l) = length l.
Proof. induction l as [|c l IH]; cbn; [done|]. by rewrite IH. Qed.

Lemma drop_spaces_length l : length (drop_spaces l) <= length l.
Proof. induction l as [|c l IH]; cbn; [done|]. destruct (Ascii.eqb c space); cbn; lia. Qed.

Lemma list_ascii_of_string_length s : length (String.list_ascii_of_string s) = String.length s.
Proof. induction s as [|c s IH]; cbn; [done|]. by rewrite IH. Qed.

Lemma rstrip_spaces_length s : String.length (rstrip_spaces s) <= String.length s.
Proof.
  unfold rstrip_spaces. rewrite length_string_of_list, length_rev.
  pose proof (drop_spaces_length (rev (String.list_ascii_of_string s))).
  rewrite length_rev, list_ascii_of_string_length in *. lia.
Qed.

Lemma drop_spaces_none l : Forall (fun c => c <> space) l -> drop_spaces l = l.
Proof. destruct 1 as [|c l Hc _]; cbn; [done|]. by destruct (Ascii.eqb_spec c space). Qed.

Lemma rstrip_spaces_plain s : has_char space s = false -> rstrip_spaces s = s.
Proof.
  intros Hs. unfold rstrip_spaces. rewrite drop_spaces_none, rev_involutive.
  - apply String.string_of_list_ascii_of_string.
  - apply Forall_rev. induction s as [|c s IH]; cbn; constructor;
      apply has_char_cons in Hs as [? ?]; auto.
Qed.

(** A name without quote, backslash or space is looked up as written. *)
Lemma my_literal_plain s :
  has_char squote s = false -> has_char bslash s = false -> has_char space s = false ->
  my_literal s = Some s.
Proof.
  intros Hq Hb Hs. unfold my_literal. rewrite sql_literal_plain by auto. cbn.
  by rewrite rstrip_spaces_plain.
Qed.

Lemma by_ordinal_total {A} (x y : nat * A) : by_ordinal x y = true \/ by_ordinal y x = true.
Proof. unfold by_ordinal. destruct (Nat.leb_spec x.1 y.1); [left|right; apply Nat.leb_le]; auto with lia. Qed.

Lemma ordered_by_ordinal {A} (l : list (nat * A)) :
  Permutation (sort_by by_ordinal l) l /\
  Sorted (fun a b => a.1 <= b.1) (sort_by by_ordinal l).
Proof.
  split; [apply sort_by_perm|].
  eapply sorted_weaken; [|apply sort_by_sorted, by_ordinal_total].
  intros a b. unfold by_ordinal. apply Nat.leb_le.
Qed.

Lemma fold_fk_add rs i :
  fold_left (fun v r => fk_add r v) rs i =
  mkFkInfo (fi_table i) (fi_columns i ++ map fk_column rs)
           (fi_ref_table i) (fi_ref_columns i ++ map fk_ref_column rs).
Proof.
  revert i. induction rs as [|r rs IH]; intros [t cs rt rcs]; cbn [fold_left map].
  - by rewrite !app_nil_r.
  - rewrite IH. simpl. by rewrite <- !app_assoc.
Qed.

Lemma fold_idx_add rs i :
  fold_left (fun v r => idx_add r v) rs i =
  mkIndexInfo (ii_columns i ++ map st_column rs) (ii_unique i).
Proof.
  revert i. induction rs as [|r rs IH]; intros [cs u]; cbn [fold_left map].
  - by rewrite app_nil_r.
  - rewrite IH. simpl. by rewrite <- app_assoc.
Qed.

(** ** Properties *)

(** C31: [get_table_schema] returns the columns of the table ordered by
    [ORDINAL_POSITION]: when it returns, the literal of the query is
    well formed, and the result is the catalogue's column rows of the
    table named by its value, permuted into non-decreasing ordinal
    order. *)
Theorem get_table_schema_ordered db t cols :
  get_table_schema db t = Ret cols ->
  exists v ordered, my_literal t = Some v /\ cols = map snd ordered /\
    Permutation ordered (table_part db v mt_columns) /\
    Sorted (fun a b => a.1 <= b.1) ordered.
Proof.
  unfold get_table_schema. intros (v & Hv & -> & _)%my_select_ret.
  exists v, (sort_by by_ordinal (table_part db v mt_columns)). split_and!; [done|done|..];
    apply ordered_by_ordinal.
Qed.

(** C35: a table name holding a single quote is never looked up as
    written.  Either the literal the query builds is malformed (a lone
    quote ends it early) and the query raises a syntax error, or MySQL
    reads a shorter name (a doubled quote counts once, an escape
    sequence once) and [get_table_schema] returns the columns of the
    table of that name. *)
Theorem get_table_schema_quote db t :
  has_char squote t = true -> my_fails db (QColumns t) = false ->
  (my_literal t = None /\ get_table_schema db t = Raise err_syntax) \/
  exists v, my_literal t = Some v /\ String.length v < String.length t /\
    get_table_schema db t = Ret (map snd (sort_by by_ordinal (table_part db v mt_columns))).
Proof.
  intros Hq Hf. unfold get_table_schema, my_select, my_run. rewrite Hf.
  unfold my_literal. destruct (sql_literal true t) as [v|] eqn:E; [right|by left].
  exists (rstrip_spaces v). split_and!; [done| |done].
  pose proof (rstrip_spaces_length v). pose proof (proj2 (sql_literal_length _ _ _ E) Hq). lia.
Qed.

(** C32: grouping the foreign-key rows by constraint name builds, for
    each constraint name [c] that occurs, the entry of its first row
    (table and referenced table) whose [columns] and [ref_columns] are
    the columns of all rows named [c], in row order, so each column
    stays paired with its referenced column; other names are absent. *)
Theorem group_foreign_keys_find rows c :
  dict_find c (group_foreign_keys rows) =
  match List.find (fun r => String.eqb c (fk_constraint r)) rows with
  | None => None
  | Some r0 =>
      let rs := List.filter (fun r => String.eqb c (fk_constraint r)) rows in
      Some (mkFkInfo (fk_table r0) (map fk_column rs) (fk_ref_table r0) (map fk_ref_column rs))
  end.
Proof.
  unfold group_foreign_keys. rewrite dict_find_fold_group. simpl.
  destruct (List.find _ rows) as [r0|]; [|done].
  unfold fk_init. by rewrite fold_fk_add.
Qed.

(** C33: grouping the index rows gives each index its columns in
    [SEQ_IN_INDEX] order and marks it unique exactly when the first row
    of the index has [NON_UNIQUE = 0]; the primary-key index is never
    among them. *)
Theorem get_indexes_spec db t d i :
  get_indexes db t = Ret d ->
  exists v, my_literal t = Some v /\ dict_find "PRIMARY" d = None /\
  dict_find i d =
  match List.find (fun r => String.eqb i (st_index r)) (index_query_rows db v) with
  | None => None
  | Some r0 =>
      Some (mkIndexInfo
              (map st_column (List.filter (fun r => String.eqb i (st_index r))
                                (index_query_rows db v)))
              (Z.eqb (st_non_unique r0) 0))
  end.
Proof.
  unfold get_indexes. destruct (my_select _ _ _ _) as [rows|] eqn:E; [|discriminate].
  intros [= <-]. apply my_select_ret in E as (v & Hv & -> & _). exists v. split; [done|].
  unfold group_indexes. rewrite !dict_find_fold_group. cbv zeta. cbn [dict_find]. split.
  - unfold index_query_rows.
    destruct (List.find _ (sort_by _ _)) eqn:Ef; [|done].
    exfalso. apply find_some in Ef as [Hin Hk].
    apply (Permutation_in _ (sort_by_perm _ _)) in Hin.
    apply filter_In in Hin as [_ Hp]. apply String.eqb_eq in Hk.
    rewrite <- Hk, String.eqb_refl in Hp. discriminate.
  - destruct (List.find _ _) as [r0|]; [|done]. unfold idx_init. by rewrite fold_idx_add.
Qed.

(** C34: the foreign-key query selects rows by the schema they
    reference, not by the schema of their own table: every catalogue
    row that references [database] gets an entry, also one declared on
    a table of another schema. *)
Theorem foreign_keys_by_referenced_schema db database v r :
  my_fails db (QForeignKeys database) = false -> my_literal database = Some v ->
  In r (my_fk_rows db) -> fk_ref_schema r = v ->
  exists d, get_foreign_keys db database = Ret d /\ dict_find (fk_constraint r) d <> None.
Proof.
  intros Hf Hl Hin Hs. unfold get_foreign_keys, my_select, my_run. rewrite Hl, Hf.
  eexists; split; [reflexivity|]. unfold group_foreign_keys. rewrite dict_find_fold_group.
  cbn [dict_find]. destruct (List.find _ _) eqn:E; [done|].
  assert (Hin' : In r (fk_query_rows db v)).
  { unfold fk_query_rows. eapply Permutation_in; [symmetry; apply sort_by_perm|].
    apply filter_In. split; [done|]. by apply String.eqb_eq. }
  eapply find_none in E; [|exact Hin']. by rewrite String.eqb_refl in E.
Qed.

Definition example_db : mysql :=
  mkMysql []
    [mkFkRow "shop" "orders" "customer_id" "fk_orders_customers" "shop" "customers" "id";
     mkFkRow "shop" "orders" "region_id" "fk_orders_customers" "shop" "regions" "region_id";
     mkFkRow "archive" "old_orders" "cid" "fk_old" "shop" "customers" "id"]
    (fun _ => false).

Lemma foreign_keys_by_referenced_schema_witness :
  exists d, get_foreign_keys example_db "shop" = Ret d /\ dict_find "fk_old" d <> None.
Proof.
  exact (foreign_keys_by_referenced_schema example_db "shop" "shop"
           (mkFkRow "archive" "old_orders" "cid" "fk_old" "shop" "customers" "id")
           eq_refl eq_refl ltac:(simpl; auto) eq_refl).
Defined.

(** The example of the specification (section 8): two rows of one
    constraint name are merged, columns paired in row order. *)
Example spec_foreign_key_grouping :
  dict_find "fk_orders_customers"
    (group_foreign_keys (fk_query_rows example_db "shop")) =
  Some (mkFkInfo "orders" ["customer_id"; "region_id"] "customers" ["id"; "region_id"]).
Proof. vm_compute. reflexivity. Qed.

(** A catalogue with the table [o'brien] (whose name holds a quote) and
    a table [orders] with two columns listed out of ordinal order, a
    primary key and two indexes. *)
Definition shop_catalog : mysql :=
  mkMysql [mkTable "o'brien" [(1, mkColumn "id" "int" None "NO" None)] [] [] [];
           mkTable "orders" [(2, mkColumn "total" "decimal" None "YES" None);
                             (1, mkColumn "id" "int" None "NO" None)]
                   [(1, "id")]
                   [mkStat "PRIMARY" 1 "id" 0; mkStat "idx_total" 2 "id" 1;
                    mkStat "idx_total" 1 "total" 1; mkStat "uq_id" 1 "id" 0] []]
    [] (fun _ => false).

Lemma get_table_schema_quote_witness :
  has_char squote "o''brien" = true /\ my_fails shop_catalog (QColumns "o''brien") = false /\
  ((my_literal "o''brien" = None /\ get_table_schema shop_catalog "o''brien" = Raise err_syntax) \/
   exists v, my_literal "o''brien" = Some v /\ String.length v < String.length "o''brien" /\
     get_table_schema shop_catalog "o''brien" =
       Ret (map snd (sort_by by_ordinal (table_part shop_catalog v mt_columns)))).
Proof.
  split; [reflexivity|]. split; [reflexivity|].
  apply get_table_schema_quote; reflexivity.
Defined.

Lemma get_table_schema_ordered_witness :
  exists v ordered, my_literal "orders" = Some v /\
    [mkColumn "id" "int" None "NO" None; mkColumn "total" "decimal" None "YES" None] =
      map snd ordered /\
    Permutation ordered (table_part shop_catalog v mt_columns) /\
    Sorted (fun a b => a.1 <= b.1) ordered.
Proof. apply (get_table_schema_ordered shop_catalog "orders"). vm_compute. reflexivity. Defined.

Lemma get_indexes_spec_witness :
  get_indexes shop_catalog "orders" =
    Ret [("idx_total", mkIndexInfo ["total"; "id"] false); ("uq_id", mkIndexInfo ["id"] true)] /\
  exists v, my_literal "orders" = Some v /\
    dict_find "PRIMARY" [("idx_total", mkIndexInfo ["total"; "id"] false);
                         ("uq_id", mkIndexInfo ["id"] true)] = None /\
    dict_find "idx_total" [("idx_total", mkIndexInfo ["total"; "id"] false);
                           ("uq_id", mkIndexInfo ["id"] true)] =
    match List.find (fun r => String.eqb "idx_total" (st_index r)) (index_query_rows shop_catalog v) with
    | None => None
    | Some r0 =>
        Some (mkIndexInfo
                (map st_column (List.filter (fun r => String.eqb "idx_total" (st_index r))
                                  (index_query_rows shop_catalog v)))
                (Z.eqb (st_non_unique r0) 0))
    end.
Proof.
  assert (E : get_indexes shop_catalog "orders" =
    Ret [("idx_total", mkIndexInfo ["total"; "id"] false); ("uq_id", mkIndexInfo ["id"] true)])
    by (vm_compute; reflexivity).
  split; [exact E|]. exact (get_indexes_spec shop_catalog "orders" _ "idx_total" E).
Defined.

End Catalog.
