(* ===== verification/Ddl.v ===== *)
(** * Ddl: the SQL statements the program sends to PostgreSQL

    Every statement of src/main.py is built with an f-string.  Here a
    statement is a value of [pg_stmt], which keeps apart what the
    f-string puts between double quotes ([Quo]) and what it leaves bare
    ([Unq]), and [render] gives back the exact text of the f-string
    (whitespace included).  The engine of [PgConn] executes the value;
    the correspondence is that PostgreSQL reads the rendered text as that
    value, which [parse_quoted_list_render] checks for the lists of
    quoted names.

    Builders, one per site of the source:
    - [create_table_stmt]: [create_postgresql_table], lines 113-131;
    - [pk_stmt]: [migrate_constraints], lines 293-295;
    - [fk_stmt]: [migrate_foreign_keys], lines 359-371;
    - [index_stmt]: [migrate_indexes], lines 430-438;
    - [copy_stmt], [count_stmt], [insert_stmt]: [import_table_data],
      lines 204-208, 218 and 233-236;
    - [serial_columns_stmt], [setval_stmt]: [reset_sequences], lines
      460-482. *)

From S2P Require Import Prelude TypeMapper Catalog.

Module Ddl.
Import TypeMapper Catalog.

(** An identifier as written in the SQL text. *)
Inductive ident : Type :=
| Unq (s : string)
| Quo (s : string).

(** A column clause of [CREATE TABLE]: name, type, [NULL]/[NOT NULL] and
    the text [default_value] of line 120 ([""] when there is none). *)
Record col_def : Type := mkColDef {
  cd_name : ident;
  cd_type : string;
  cd_nullable : bool;
  cd_default : string
}.

Inductive pg_stmt : Type :=
| CreateTable (t : ident) (cols : list col_def)
| AddPrimaryKey (t : ident) (name : ident) (cols : list ident)
| AddForeignKey (t : ident) (name : ident) (cols : list ident) (rt : ident) (rcols : list ident)
| CreateIndex (unique : bool) (name : ident) (t : ident) (cols : list ident)
| CopyFrom (t : ident) (cols : list ident) (data : string)
| SelectCount (t : ident)
| InsertValues (t : ident) (cols : list ident) (vals : list (option string))
| SelectSerialColumns (t : string)
| SetVal (seq : string) (col : ident) (t : ident).

(** ** Text *)

Definition dq (s : string) : string := chr dquote +:+ s +:+ chr dquote.
Definition nl : string := chr newline.
Definition indent (n : nat) : string := String.string_of_list_ascii (repeat " "%char n).

Definition render_ident (i : ident) : string :=
  match i with Unq s => s | Quo s => dq s end.

Definition render_list (l : list ident) : string := join ", " (map render_ident l).

(** Python's [str.strip()] on ASCII whitespace. *)
Definition is_space (c : ascii) : bool :=
  let n := nat_of_ascii c in Nat.eqb n 32 || (Nat.leb 9 n && Nat.leb n 13).

Fixpoint lstrip (s : string) : string :=
  match s with
  | String.EmptyString => ""
  | String.String c s' => if is_space c then lstrip s' else s
  end.

Definition rev_string (s : string) : string :=
  String.string_of_list_ascii (rev (String.list_ascii_of_string s)).

Definition strip (s : string) : string := rev_string (lstrip (rev_string (lstrip s))).

(** Line 127. *)
Definition render_col (c : col_def) : string :=
  strip (indent 4 +:+ render_ident (cd_name c) +:+ " " +:+ cd_type c +:+ " " +:+
         (if cd_nullable c then "NULL" else "NOT NULL") +:+ " " +:+ cd_default c).

Definition render (s : pg_stmt) : string :=
  match s with
  | CreateTable t cols =>
      "CREATE TABLE IF NOT EXISTS " +:+ render_ident t +:+ " (" +:+ nl +:+
      join ("," +:+ nl) (map render_col cols) +:+ nl +:+ ");"
  | AddPrimaryKey t n cols =>
      "ALTER TABLE " +:+ render_ident t +:+ " ADD CONSTRAINT " +:+ render_ident n +:+
      " PRIMARY KEY (" +:+ render_list cols +:+ ")"
  | AddForeignKey t n cols rt rcols =>
      nl +:+ indent 12 +:+ "ALTER TABLE " +:+ render_ident t +:+ nl +:+
      indent 12 +:+ "ADD CONSTRAINT " +:+ render_ident n +:+ " FOREIGN KEY (" +:+
      render_list cols +:+ ")" +:+ nl +:+
      indent 12 +:+ "REFERENCES " +:+ render_ident rt +:+ " (" +:+ render_list rcols +:+ ")" +:+
      nl +:+ indent 12
  | CreateIndex u n t cols =>
      nl +:+ indent 12 +:+ "CREATE " +:+ (if u then "UNIQUE" else "") +:+ " INDEX " +:+
      render_ident n +:+ " ON " +:+ render_ident t +:+ " (" +:+ render_list cols +:+ ")" +:+
      nl +:+ indent 12
  | CopyFrom t cols _ =>
      "COPY " +:+ render_ident t +:+ " (" +:+ render_list cols +:+
      ") FROM STDIN WITH CSV HEADER DELIMITER ','"
  | SelectCount t => "SELECT COUNT(*) FROM " +:+ render_ident t
  | InsertValues t cols _ =>
      "INSERT INTO " +:+ render_ident t +:+ " (" +:+ render_list cols +:+ ") VALUES (" +:+
      join ", " (repeat "%s" (length cols)) +:+ ")"
  | SelectSerialColumns t =>
      nl +:+ indent 8 +:+ "SELECT column_name, column_default " +:+ nl +:+
      indent 8 +:+ "FROM information_schema.columns " +:+ nl +:+
      indent 8 +:+ "WHERE table_name = '" +:+ t +:+ "' " +:+ nl +:+
      indent 8 +:+ "AND column_default LIKE 'nextval%'" +:+ nl +:+ indent 8
  | SetVal sq c t =>
      nl +:+ indent 16 +:+ "SELECT setval('" +:+ sq +:+ "', " +:+ nl +:+
      indent 18 +:+ "(SELECT COALESCE(MAX(" +:+ render_ident c +:+ "), 1) FROM " +:+
      render_ident t +:+ "), " +:+ nl +:+
      indent 18 +:+ "(SELECT MAX(" +:+ render_ident c +:+ ") IS NOT NULL FROM " +:+
      render_ident t +:+ "))" +:+ nl +:+ indent 16
  end.

(** ** Builders *)

(** Lines 120-125: the default clause and its translation. *)
Definition default_value_text (d : option string) : string :=
  match d with
  | Some e =>
      if String.eqb e "" then ""
      else replace "NOW()" "CURRENT_TIMESTAMP"
             (replace "CURRENT_TIMESTAMP" "CURRENT_TIMESTAMP" ("DEFAULT " +:+ e))
  | None => ""
  end.

(** Lines 117-127: one column clause. *)
Definition column_definition (col : column_row) : col_def :=
  mkColDef (Unq (col_name col))
           (mysql_to_postgresql_type (data_type col) (char_max_length col))
           (String.eqb (is_nullable col) "YES")
           (default_value_text (column_default col)).

(** Lines 113-131. *)
Definition create_table_stmt (table_name : string) (columns : list column_row) : pg_stmt :=
  CreateTable (Unq table_name) (map column_definition columns).

(** Lines 293-295. *)
Definition pk_stmt (table_name : string) (pk_columns : list string) : pg_stmt :=
  AddPrimaryKey (Quo table_name) (Unq ("pk_" +:+ table_name)) (map Quo pk_columns).

(** Line 365. *)
Definition fk_constraint_name (table_name ref_table_name fk_name : string) : string :=
  "fk_" +:+ table_name +:+ "_" +:+ ref_table_name +:+ "_" +:+ suffix 10 fk_name.

(** Lines 359-371. *)
Definition fk_stmt (fk_name : string) (fk : fk_info) : pg_stmt :=
  AddForeignKey (Quo (fi_table fk))
    (Unq (fk_constraint_name (fi_table fk) (fi_ref_table fk) fk_name))
    (map Quo (fi_columns fk)) (Quo (fi_ref_table fk)) (map Quo (fi_ref_columns fk)).

(** Lines 430-438. *)
Definition index_stmt (table_name index_name : string) (idx : index_info) : pg_stmt :=
  CreateIndex (ii_unique idx) (Unq ("idx_" +:+ table_name +:+ "_" +:+ index_name))
    (Quo table_name) (map Quo (ii_columns idx)).

(** Lines 204-208: the header gives the column list, the whole file is
    the data ([f.seek(0)]). *)
Definition copy_stmt (table_name : string) (header : list string) (data : string) : pg_stmt :=
  CopyFrom (Quo table_name) (map Quo header) data.

(** Line 218. *)
Definition count_stmt (table_name : string) : pg_stmt := SelectCount (Quo table_name).

(** Lines 233-236, with the parameters of one row. *)
Definition insert_stmt (table_name : string) (header : list string) (row : list (option string))
  : pg_stmt :=
  InsertValues (Quo table_name) (map Quo header) row.

(** Lines 460-465. *)
Definition serial_columns_stmt (table_name : string) : pg_stmt := SelectSerialColumns table_name.

(** Lines 478-482. *)
Definition setval_stmt (sequence_name column_name table_name : string) : pg_stmt :=
  SetVal sequence_name (Quo column_name) (Quo table_name).

Example render_pk_example :
  render (pk_stmt "users" ["id"]) =
  "ALTER TABLE " +:+ dq "users" +:+ " ADD CONSTRAINT pk_users PRIMARY KEY (" +:+ dq "id" +:+ ")".
Proof. reflexivity. Qed.

Example render_create_example :
  render (create_table_stmt "users"
            [mkColumn "id" "int" None "NO" None; mkColumn "name" "varchar" (Some 50%N) "YES" None]) =
  "CREATE TABLE IF NOT EXISTS users (" +:+ nl +:+ "id INTEGER NOT NULL," +:+ nl +:+
  "name VARCHAR(50) NULL" +:+ nl +:+ ");".
Proof. vm_compute. reflexivity. Qed.

End Ddl.
