(* ===== verification/PgConn.v ===== *)
(** * PgConn: the PostgreSQL connection as the program uses it

    The program holds one psycopg2 connection for the whole run and
    calls [cursor.execute], [conn.commit] and [conn.rollback] on it.  The
    behaviour of those calls, which the program relies on, is the
    transaction protocol of PostgreSQL as psycopg2 exposes it:

    - the first statement opens a transaction; its changes are seen by
      later statements of the connection but are not committed;
    - a statement that fails leaves the transaction aborted: every later
      statement fails with [InFailedSqlTransaction] until [rollback] (or
      [commit], which on an aborted transaction rolls back);
    - [commit] makes the working state the committed one, [rollback]
      returns to the committed state.

    What a statement does to the database is the interface [PgEngine]:
    a type class with one operation [pg_apply] on a database snapshot;
    [PgSimple] gives an instance.  Everything in this file and in the
    components above it that does not name [PgSimple] holds for every
    engine.  The connection records the sequence of calls in [log] (most
    recent first), so that properties about the order of statements can
    be stated.

    The program's mutable world is the connection and the file system
    ([world]); the MySQL side is read only. *)

From S2P Require Import Prelude Ddl.

Module PgConn.
Import Ddl.

(** The rows a statement returns, as psycopg2 gives them. *)
Definition rowset : Type := list (list (option string)).

Class PgEngine (DB : Type) := pg_apply : pg_stmt -> DB -> outcome (DB * rowset).

Inductive event : Type :=
| EvExec (s : pg_stmt) (ok : bool)
| EvCommit
| EvRollback
| EvClose.

Record conn (DB : Type) : Type := mkConn {
  committed : DB;
  working : DB;
  aborted : bool;
  log : list event
}.
Arguments mkConn {DB} _ _ _ _.
Arguments committed {DB} _.
Arguments working {DB} _.
Arguments aborted {DB} _.
Arguments log {DB} _.

(** The file system the program writes: the files (path and contents)
    and the directories known to exist. *)
Record world (DB : Type) : Type := mkWorld {
  w_conn : conn DB;
  w_files : list (string * string);
  w_dirs : list string
}.
Arguments mkWorld {DB} _ _ _.
Arguments w_conn {DB} _.
Arguments w_files {DB} _.
Arguments w_dirs {DB} _.

Definition err_in_failed_txn : string :=
  "psycopg2.errors.InFailedSqlTransaction: current transaction is aborted".

Section Conn.
Context {DB : Type} `{PgEngine DB}.

(** [cursor.execute(sql)] (and [fetchall()] for a query). *)
Definition execute (s : pg_stmt) : st (conn DB) rowset := fun c =>
  if aborted c then (Raise err_in_failed_txn,
                     mkConn (committed c) (working c) true (EvExec s false :: log c))
  else match pg_apply s (working c) with
       | Ret (db', rows) => (Ret rows, mkConn (committed c) db' false (EvExec s true :: log c))
       | Raise e => (Raise e, mkConn (committed c) (working c) true (EvExec s false :: log c))
       end.

(** [conn.commit()]. *)
Definition commit : st (conn DB) unit := fun c =>
  let db := if aborted c then committed c else working c in
  (Ret tt, mkConn db db false (EvCommit :: log c)).

(** [conn.rollback()]. *)
Definition rollback : st (conn DB) unit := fun c =>
  (Ret tt, mkConn (committed c) (committed c) false (EvRollback :: log c)).

(** [conn.close()]: psycopg2 discards the pending transaction, as a
    rollback would, and the server keeps the committed database. *)
Definition close : st (conn DB) unit := fun c =>
  (Ret tt, mkConn (committed c) (committed c) false (EvClose :: log c)).

(** An operation on the connection, run on the world. *)
Definition on_pg {A} (m : st (conn DB) A) : st (world DB) A := fun w =>
  let (r, c') := m (w_conn w) in (r, mkWorld c' (w_files w) (w_dirs w)).

Definition pg_execute (s : pg_stmt) : st (world DB) rowset := on_pg (execute s).
Definition pg_commit : st (world DB) unit := on_pg commit.
Definition pg_rollback : st (world DB) unit := on_pg rollback.
Definition pg_close : st (world DB) unit := on_pg close.

(** A connection is clean when no transaction is pending. *)
Definition clean (c : conn DB) : Prop := aborted c = false /\ working c = committed c.

(** ** Lemmas *)

Lemma execute_aborted s c :
  aborted c = true ->
  execute s c = (Raise err_in_failed_txn,
                 mkConn (committed c) (working c) true (EvExec s false :: log c)).
Proof. unfold execute. by intros ->. Qed.

Lemma execute_ok s c db' rows :
  aborted c = false -> pg_apply s (working c) = Ret (db', rows) ->
  execute s c = (Ret rows, mkConn (committed c) db' false (EvExec s true :: log c)).
Proof. unfold execute. by intros -> ->. Qed.

Lemma execute_fail s c e :
  aborted c = false -> pg_apply s (working c) = Raise e ->
  execute s c = (Raise e, mkConn (committed c) (working c) true (EvExec s false :: log c)).
Proof. unfold execute. by intros -> ->. Qed.

Lemma execute_raise_aborted s c e c' :
  execute s c = (Raise e, c') -> aborted c' = true /\ committed c' = committed c.
Proof.
  unfold execute. destruct (aborted c); [by intros [= <- <-]|].
  destruct (pg_apply s (working c)) as [[db rows]|e']; intros [=]; by subst.
Qed.

Lemma execute_ret_not_aborted s c rows c' :
  execute s c = (Ret rows, c') -> aborted c = false /\ aborted c' = false /\
                                  committed c' = committed c.
Proof.
  unfold execute. destruct (aborted c); [discriminate|].
  destruct (pg_apply s (working c)) as [[db rs]|e']; intros [=]; by subst.
Qed.

Lemma execute_log s c : exists b, log (snd (execute s c)) = EvExec s b :: log c.
Proof.
  unfold execute. destruct (aborted c); [eauto|].
  destruct (pg_apply s (working c)) as [[]|]; eauto.
Qed.

Lemma rollback_clean c : clean (snd (rollback c)).
Proof. split; reflexivity. Qed.

Lemma commit_clean c : clean (snd (commit c)).
Proof. split; reflexivity. Qed.

Lemma close_clean c : clean (snd (close c)).
Proof. split; reflexivity. Qed.

(** ** Properties *)

(** An aborted transaction blocks the connection: from a state
    where the last statement failed, any sequence of [execute] calls
    without [commit] or [rollback] fails every statement, changes
    nothing in the database and leaves the connection aborted. *)
Theorem aborted_blocks_all (ss : list pg_stmt) c :
  aborted c = true ->
  let c' := fold_left (fun c s => snd (execute s c)) ss c in
  aborted c' = true /\ working c' = working c /\ committed c' = committed c /\
  log c' = (rev (map (fun s => EvExec s false) ss) ++ log c)%list.
Proof.
  revert c. induction ss as [|s ss IH]; intros c Hab; simpl; [done|].
  rewrite execute_aborted by done.
  edestruct (IH (mkConn (committed c) (working c) true (EvExec s false :: log c)))
    as (H1 & H2 & H3 & H4); [reflexivity|]. cbn zeta in *. simpl in *.
  rewrite H1, H2, H3, H4. by rewrite <- app_assoc.
Qed.

(** [rollback] discards the pending work and clears the aborted
    state: afterwards the next statement runs against the last
    committed database. *)
Theorem rollback_then_execute s c :
  execute s (snd (rollback c)) =
  match pg_apply s (committed c) with
  | Ret (db', rows) => (Ret rows, mkConn (committed c) db' false (EvExec s true :: EvRollback :: log c))
  | Raise e => (Raise e, mkConn (committed c) (committed c) true (EvExec s false :: EvRollback :: log c))
  end.
Proof. reflexivity. Qed.
End Conn.

End PgConn.
