(* ===== verification/PgSimple.v ===== *)
(** * PgSimple: an instance of the engine interface

    A small PostgreSQL that executes the statements of [Ddl] with the
    behaviour the program meets:

    - identifiers: an unquoted name is folded to lower case (ASCII
      letters) and must start with a letter, [_] or a byte of a UTF-8
      character, hold only those, digits and [$], and not be a reserved
      or type/function-name keyword of PostgreSQL 16 ([reserved]); a
      quoted name is kept as written and must not hold a double quote;
      names are truncated to 63 bytes, at a character boundary;
    - string literals with [standard_conforming_strings]: a doubled
      quote stands for one quote, a backslash for itself;
    - tables with typed columns, [NOT NULL], unique keys (primary key
      and unique indexes) and rows; a name space of relations shared by
      tables, constraints and indexes;
    - [CREATE TABLE IF NOT EXISTS] skips an existing table; a default
      must be a constant ([NULL], a number, a quoted literal, [TRUE],
      [FALSE], [CURRENT_TIMESTAMP] and its siblings): a bare word is a
      column reference, which a default may not contain;
    - [COPY ... WITH CSV HEADER] skips the first line, reads an unquoted
      empty field as [NULL] and a quoted one as the empty string; rows
      are checked for arity, [NOT NULL] and unique keys;
    - [ADD CONSTRAINT ... PRIMARY KEY] checks existing rows and makes
      the columns [NOT NULL]; [FOREIGN KEY] needs a unique key on the
      referenced columns and checks existing rows; [CREATE [UNIQUE]
      INDEX] checks the rows;
    - [setval] on a sequence named in a [nextval('...')] default.

    Values are checked against the integer and boolean column types
    ([value_ok]); other types take any text.  [setval] reads integers. *)

From S2P Require Import Prelude Csv Ddl PgConn.

Module PgSimple.
Import Ddl PgConn.
Local Open Scope mig_scope.

Record pg_col : Type := mkPgCol {
  pcol_name : string;
  pcol_type : string;
  pcol_nullable : bool;
  pcol_default : option string
}.

Record pg_table : Type := mkPgTable {
  ptab_name : string;
  ptab_cols : list pg_col;
  ptab_rows : list (list (option string));
  ptab_keys : list (list string)
}.

Record pgdb : Type := mkPgDb {
  pg_tables : list pg_table;
  pg_relations : list string;
  pg_seqs : list (string * (Z * bool))
}.

Definition empty_db : pgdb := mkPgDb [] [] [].

(** ** Identifiers *)

(** The keywords that cannot name a table or a column unquoted: the
    [reserved_keyword] and [type_func_name_keyword] classes of
    PostgreSQL 16's grammar (gram.y; a [ColId] is an identifier, an
    unreserved keyword or a [col_name_keyword]). *)
Definition reserved : list string :=
  ["all"; "analyse"; "analyze"; "and"; "any"; "array"; "as"; "asc"; "asymmetric";
   "authorization"; "binary"; "both"; "case"; "cast"; "check"; "collate";
   "collation"; "column"; "concurrently"; "constraint"; "create"; "cross";
   "current_catalog"; "current_date"; "current_role"; "current_schema";
   "current_time"; "current_timestamp"; "current_user"; "default"; "deferrable";
   "desc"; "distinct"; "do"; "else"; "end"; "except"; "false"; "fetch"; "for";
   "foreign"; "freeze"; "from"; "full"; "grant"; "group"; "having"; "ilike"; "in";
   "initially"; "inner"; "intersect"; "into"; "is"; "isnull"; "join"; "lateral";
   "leading"; "left"; "like"; "limit"; "localtime"; "localtimestamp"; "natural";
   "not"; "notnull"; "null"; "offset"; "on"; "only"; "or"; "order"; "outer";
   "overlaps"; "placing"; "primary"; "references"; "returning"; "right"; "select";
   "session_user"; "similar"; "some"; "symmetric"; "system_user"; "table";
   "tablesample"; "then"; "to"; "trailing"; "true"; "union"; "unique"; "user";
   "using"; "variadic"; "verbose"; "when"; "where"; "window"; "with"].

Definition is_letter (c : ascii) : bool :=
  let n := nat_of_ascii c in (Nat.leb 65 n && Nat.leb n 90) || (Nat.leb 97 n && Nat.leb n 122).
Definition is_digit (c : ascii) : bool :=
  let n := nat_of_ascii c in Nat.leb 48 n && Nat.leb n 57.
Definition is_highbit (c : ascii) : bool := Nat.leb 128 (nat_of_ascii c).
(** scan.l: [ident_start [A-Za-z\200-\377_]], [ident_cont [A-Za-z\200-\377_0-9\$]]. *)
Definition ident_start (c : ascii) : bool :=
  is_letter c || Nat.eqb (nat_of_ascii c) 95 || is_highbit c.
Definition ident_char (c : ascii) : bool :=
  ident_start c || is_digit c || Nat.eqb (nat_of_ascii c) 36.


Definition valid_unquoted (s : string) : bool :=
  match s with
  | String.EmptyString => false
  | String.String c s' => ident_start c && all_chars ident_char s'
  end && negb (existsb (String.eqb (lower s)) reserved).

(** A continuation byte of UTF-8 (0x80-0xBF). *)
Definition is_cont (c : ascii) : bool :=
  let n := nat_of_ascii c in Nat.leb 128 n && Nat.leb n 191.

Definition cont_at (k : nat) (s : string) : bool :=
  match String.get k s with Some c => is_cont c | None => false end.

(** [truncate_identifier] cuts a name to [NAMEDATALEN - 1 = 63] bytes
    with [pg_mbcliplen]: the longest prefix of whole UTF-8 characters
    of at most 63 bytes (a character has at most four bytes). *)
Definition clip_len (s : string) : nat :=
  if cont_at 63 s then if cont_at 62 s then if cont_at 61 s then 60 else 61 else 62 else 63.

Definition truncate (s : string) : string := String.substring 0 (clip_len s) s.

Definition err_syntax (s : string) : string := "syntax error at or near " +:+ s.

Definition resolve (i : ident) : outcome string :=
  match i with
  | Unq s => if valid_unquoted s then Ret (truncate (lower s)) else Raise (err_syntax s)
  | Quo s => if String.eqb s "" || has_char dquote s then Raise (err_syntax (dq s))
             else Ret (truncate s)
  end.

Fixpoint resolve_all (l : list ident) : outcome (list string) :=
  match l with
  | [] => Ret []
  | i :: l' =>
      match resolve i, resolve_all l' with
      | Ret s, Ret ss => Ret (s :: ss)
      | Raise e, _ => Raise e
      | _, Raise e => Raise e
      end
  end.

(** ** Default expressions *)

Definition is_dot (c : ascii) : bool := Nat.eqb (nat_of_ascii c) 46.

Definition is_number (s : string) : bool :=
  let body := match s with
              | String.String c s' => if ascii_dec c "-"%char then s' else s
              | _ => s
              end in
  negb (String.eqb body "") && all_chars (fun c => is_digit c || is_dot c) body.

Definition quoted_literal (s : string) : bool :=
  let n := String.length s in
  let mid := String.substring 1 (n - 2) s in
  Nat.leb 2 n && String.eqb s (chr squote +:+ mid +:+ chr squote) && negb (has_char squote mid).

Definition constant_words : list string :=
  ["null"; "true"; "false"; "current_timestamp"; "current_date"; "current_time";
   "localtimestamp"; "localtime"].

Definition default_expr_ok (e : string) : bool :=
  is_number e || quoted_literal e || existsb (String.eqb (lower e)) constant_words.

(** The text [default_value] of a column clause: [""] or [DEFAULT e]. *)
Definition default_of (text : string) : option string :=
  if String.eqb text "" then None
  else if String.prefix "DEFAULT " text
       then Some (String.substring 8 (String.length text - 8) text)
       else Some text.

Definition default_ok (c : col_def) : bool :=
  match default_of (cd_default c) with Some e => default_expr_ok e | None => true end.

(** ** Values *)

Definition parse_int (s : string) : option Z :=
  option_map Z.of_int (NilZero.int_of_string s).

Definition integer_types : list string := ["INTEGER"; "SMALLINT"; "BIGINT"].
Definition boolean_words : list string :=
  ["t"; "f"; "true"; "false"; "1"; "0"; "yes"; "no"; "on"; "off"; "y"; "n"].

Definition value_ok (ty : string) (v : option string) : bool :=
  match v with
  | None => true
  | Some s =>
      if existsb (String.eqb ty) integer_types
      then match parse_int s with Some _ => true | None => false end
      else if String.eqb ty "BOOLEAN" then existsb (String.eqb (lower s)) boolean_words
      else true
  end.

(** ** COPY in CSV format *)

Inductive cstate : Type := CFieldStart | CUnquoted | CQuoted | CQuoteSeen.

Record cparser : Type := mkCParser {
  cst : cstate;
  cfield : string;
  cquoted : bool;
  crow : list (option string);
  cout : list (list (option string))
}.

Definition cvalue (p : cparser) : option string :=
  if cquoted p then Some (cfield p)
  else if String.eqb (cfield p) "" then None else Some (cfield p).

Definition csave (p : cparser) : cparser :=
  mkCParser CFieldStart "" false (cvalue p :: crow p) (cout p).

Definition cend (p : cparser) : cparser :=
  mkCParser CFieldStart "" false [] (rev (cvalue p :: crow p) :: cout p).

Definition cadd (p : cparser) (c : ascii) (s : cstate) : cparser :=
  mkCParser s (cfield p +:+ chr c) (cquoted p) (crow p) (cout p).

Definition cstep (p : cparser) (c : ascii) : cparser :=
  match cst p with
  | CFieldStart =>
      if ascii_dec c newline then cend p
      else if ascii_dec c comma then csave p
      else if ascii_dec c dquote then mkCParser CQuoted "" true (crow p) (cout p)
      else cadd p c CUnquoted
  | CUnquoted =>
      if ascii_dec c newline then cend p
      else if ascii_dec c comma then csave p
      else cadd p c CUnquoted
  | CQuoted =>
      if ascii_dec c dquote then mkCParser CQuoteSeen (cfield p) true (crow p) (cout p)
      else cadd p c CQuoted
  | CQuoteSeen =>
      if ascii_dec c dquote then cadd p dquote CQuoted
      else if ascii_dec c comma then csave p
      else if ascii_dec c newline then cend p
      else cadd p c CUnquoted
  end.

Fixpoint crun (s : string) (p : cparser) : cparser :=
  match s with
  | String.EmptyString => p
  | String.String c s' => crun s' (cstep p c)
  end.

(** The data rows of a COPY input (the header line is skipped). *)
Definition copy_rows (data : string) : list (list (option string)) :=
  let p := crun data (mkCParser CFieldStart "" false [] []) in
  let rows := rev (match cst p, crow p, cfield p, cquoted p with
                   | CFieldStart, [], "", false => cout p
                   | _, _, _, _ => rev (cvalue p :: crow p) :: cout p
                   end) in
  tail rows.

(** ** Tables *)

Definition row : Type := list (option string).

Definition find_tab (db : pgdb) (n : string) : option pg_table :=
  List.find (fun t => String.eqb (ptab_name t) n) (pg_tables db).

Definition put_tab (db : pgdb) (t : pg_table) : pgdb :=
  mkPgDb (map (fun t' => if String.eqb (ptab_name t') (ptab_name t) then t else t') (pg_tables db))
         (pg_relations db) (pg_seqs db).

Definition relation_taken (db : pgdb) (n : string) : bool :=
  existsb (String.eqb n) (pg_relations db) ||
  existsb (fun t => String.eqb (ptab_name t) n) (pg_tables db).

Fixpoint index_of (x : string) (l : list string) : option nat :=
  match l with
  | [] => None
  | y :: l' => if String.eqb x y then Some 0 else option_map S (index_of x l')
  end.

Definition col_names (t : pg_table) : list string := map pcol_name (ptab_cols t).

Definition has_cols (t : pg_table) (cs : list string) : bool :=
  forallb (fun c => existsb (String.eqb c) (col_names t)) cs.

Definition project (t : pg_table) (r : row) (cs : list string) : row :=
  map (fun c => match index_of c (col_names t) with Some i => nth i r None | None => None end) cs.

Definition no_null (r : row) : bool := forallb (fun v => match v with Some _ => true | None => false end) r.

Fixpoint nodup_b (l : list string) : bool :=
  match l with
  | [] => true
  | x :: l' => negb (existsb (String.eqb x) l') && nodup_b l'
  end.

Definition row_eqb (a b : row) : bool := bool_decide (a = b).

(** The key [k] holds among [rows]: no two rows without [NULL] in [k]
    agree on [k]. *)
Fixpoint key_holds (t : pg_table) (k : list string) (rows : list row) : bool :=
  match rows with
  | [] => true
  | r :: rs =>
      (negb (no_null (project t r k)) ||
       negb (existsb (fun r' => row_eqb (project t r k) (project t r' k)) rs)) &&
      key_holds t k rs
  end.

(** A full row of the table from the values of [cols]. *)
Definition full_row (t : pg_table) (cols : list string) (vals : row) : row :=
  map (fun pc => match index_of (pcol_name pc) cols with Some i => nth i vals None | None => None end)
      (ptab_cols t).

Definition err_not_null : string := "null value in column violates not-null constraint".
Definition err_unique : string := "duplicate key value violates unique constraint".

(** Add one row given by the values of [cols]. *)
Definition add_row (t : pg_table) (cols : list string) (vals : row) : outcome pg_table :=
  if negb (Nat.eqb (length vals) (length cols)) then Raise "extra or missing data for column"
  else
    let r := full_row t cols vals in
    if negb (forallb (fun '(pc, v) => pcol_nullable pc || match v with Some _ => true | None => false end)
                     (combine (ptab_cols t) r))
    then Raise err_not_null
    else if negb (forallb (fun '(pc, v) => value_ok (pcol_type pc) v) (combine (ptab_cols t) r))
    then Raise "invalid input syntax"
    else if negb (forallb (fun k => key_holds t k (r :: ptab_rows t)) (ptab_keys t))
    then Raise err_unique
    else Ret (mkPgTable (ptab_name t) (ptab_cols t) (ptab_rows t ++ [r])%list (ptab_keys t)).

Fixpoint add_rows (t : pg_table) (cols : list string) (rows : list row) : outcome pg_table :=
  match rows with
  | [] => Ret t
  | r :: rs => let? t' := add_row t cols r in add_rows t' cols rs
  end.

(** ** Statements *)

Definition err_no_relation (n : string) : string := "relation " +:+ dq n +:+ " does not exist".
Definition err_no_column : string := "column does not exist".
Definition err_exists (n : string) : string := "relation " +:+ dq n +:+ " already exists".

Definition with_table (db : pgdb) (n : string) {A} (k : pg_table -> outcome A) : outcome A :=
  match find_tab db n with Some t => k t | None => Raise (err_no_relation n) end.

Definition set_not_null (cs : list string) (t : pg_table) : pg_table :=
  mkPgTable (ptab_name t)
    (map (fun pc => if existsb (String.eqb (pcol_name pc)) cs
                    then mkPgCol (pcol_name pc) (pcol_type pc) false (pcol_default pc) else pc)
         (ptab_cols t))
    (ptab_rows t) (ptab_keys t).

Definition add_key (k : list string) (t : pg_table) : pg_table :=
  mkPgTable (ptab_name t) (ptab_cols t) (ptab_rows t) (k :: ptab_keys t).

Definition add_relation (db : pgdb) (n : string) : pgdb :=
  mkPgDb (pg_tables db) (n :: pg_relations db) (pg_seqs db).

(** Every row of [t] with no [NULL] in [cs] has a row of [rt] that
    agrees with it on [rcs] (MATCH SIMPLE). *)
Definition fk_rows_ok (t : pg_table) (cs : list string) (rt : pg_table) (rcs : list string) : bool :=
  forallb (fun r => negb (no_null (project t r cs)) ||
                    existsb (fun r' => row_eqb (project t r cs) (project rt r' rcs)) (ptab_rows rt))
          (ptab_rows t).

Definition same_set (a b : list string) : bool :=
  forallb (fun x => existsb (String.eqb x) b) a && forallb (fun x => existsb (String.eqb x) a) b.

Definition seq_lookup (db : pgdb) (sq : string) : bool :=
  existsb (fun p => String.eqb p.1 sq) (pg_seqs db).

Definition max_int (vs : list (option string)) : option Z :=
  fold_left (fun acc v => match v with
                          | Some s => match parse_int s with
                                      | Some z => Some (match acc with Some m => Z.max m z | None => z end)
                                      | None => acc
                                      end
                          | None => acc
                          end) vs None.

Definition pg_simple_apply (s : pg_stmt) (db : pgdb) : outcome (pgdb * rowset) :=
  match s with
  | CreateTable t cols =>
      let? tn := resolve t in
      let? cns := resolve_all (map cd_name cols) in
      match find_tab db tn with
      | Some _ => Ret (db, [])
      | None =>
          if negb (nodup_b cns) then Raise "column specified more than once"
          else if negb (forallb default_ok cols)
          then Raise "cannot use column reference in DEFAULT expression"
          else if relation_taken db tn then Raise (err_exists tn)
          else
            let pcs := map (fun '(n, c) => mkPgCol n (cd_type c) (cd_nullable c) (default_of (cd_default c)))
                           (combine cns cols) in
            Ret (mkPgDb (pg_tables db ++ [mkPgTable tn pcs [] []])%list (pg_relations db) (pg_seqs db), [])
      end
  | CopyFrom t cols data =>
      let? tn := resolve t in
      let? cns := resolve_all cols in
      with_table db tn (fun tab =>
        if negb (has_cols tab cns) then Raise err_no_column
        else let? tab' := add_rows tab cns (copy_rows data) in Ret (put_tab db tab', []))
  | InsertValues t cols vals =>
      let? tn := resolve t in
      let? cns := resolve_all cols in
      with_table db tn (fun tab =>
        if negb (has_cols tab cns) then Raise err_no_column
        else let? tab' := add_row tab cns vals in Ret (put_tab db tab', []))
  | SelectCount t =>
      let? tn := resolve t in
      with_table db tn (fun tab =>
        Ret (db, [[Some (str_of_N (N.of_nat (length (ptab_rows tab))))]]))
  | AddPrimaryKey t n cols =>
      let? tn := resolve t in
      let? nn := resolve n in
      let? cns := resolve_all cols in
      with_table db tn (fun tab =>
        if negb (has_cols tab cns) then Raise err_no_column
        else if relation_taken db nn then Raise (err_exists nn)
        else if negb (forallb (fun r => no_null (project tab r cns)) (ptab_rows tab))
        then Raise "column contains null values"
        else if negb (key_holds tab cns (ptab_rows tab)) then Raise "could not create unique index"
        else Ret (add_relation (put_tab db (add_key cns (set_not_null cns tab))) nn, []))
  | AddForeignKey t n cols rt rcols =>
      let? tn := resolve t in
      let? nn := resolve n in
      let? cns := resolve_all cols in
      let? rtn := resolve rt in
      let? rcns := resolve_all rcols in
      with_table db tn (fun tab =>
      with_table db rtn (fun rtab =>
        if negb (has_cols tab cns && has_cols rtab rcns) then Raise err_no_column
        else if negb (Nat.eqb (length cns) (length rcns))
        then Raise "number of referencing and referenced columns for foreign key disagree"
        else if negb (existsb (same_set rcns) (ptab_keys rtab))
        then Raise "there is no unique constraint matching given keys for referenced table"
        else if relation_taken db nn then Raise (err_exists nn)
        else if negb (fk_rows_ok tab cns rtab rcns)
        then Raise "insert or update on table violates foreign key constraint"
        else Ret (add_relation db nn, [])))
  | CreateIndex u n t cols =>
      let? nn := resolve n in
      let? tn := resolve t in
      let? cns := resolve_all cols in
      with_table db tn (fun tab =>
        if negb (has_cols tab cns) then Raise err_no_column
        else if relation_taken db nn then Raise (err_exists nn)
        else if u && negb (key_holds tab cns (ptab_rows tab))
        then Raise "could not create unique index"
        else Ret (add_relation (if u then put_tab db (add_key cns tab) else db) nn, []))
  | SelectSerialColumns t =>
      match sql_literal false t with
      | None => Raise (err_syntax t)
      | Some v =>
      Ret (db, flat_map (fun tab =>
                     if String.eqb (ptab_name tab) v
                     then flat_map (fun pc => match pcol_default pc with
                                              | Some d => if String.prefix "nextval" d
                                                          then [[Some (pcol_name pc); Some d]] else []
                                              | None => []
                                              end) (ptab_cols tab)
                     else []) (pg_tables db))
      end
  | SetVal sq c t =>
      let? cn := resolve c in
      let? tn := resolve t in
      with_table db tn (fun tab =>
        if negb (has_cols tab [cn]) then Raise err_no_column
        else if negb (seq_lookup db sq) then Raise (err_no_relation sq)
        else
          let m := max_int (map (fun r => nth 0 (project tab r [cn]) None) (ptab_rows tab)) in
          let v := match m with Some z => (z, true) | None => (1%Z, false) end in
          Ret (mkPgDb (pg_tables db)
                      (pg_relations db)
                      (map (fun p => if String.eqb p.1 sq then (sq, v) else p) (pg_seqs db)),
               [[Some (str_of_Z v.1)]]))
  end.

#[export] Instance pg_simple : PgEngine pgdb := pg_simple_apply.

(** ** Identifier lemmas *)

Lemma get_beyond k s : String.length s <= k -> String.get k s = None.
Proof.
  revert k. induction s as [|c s IH]; intros [|k] Hk; cbn in *; try lia; try done.
  apply IH. lia.
Qed.

Lemma clip_len_short s : String.length s <= 63 -> clip_len s = 63.
Proof. intros H. unfold clip_len, cont_at. by rewrite get_beyond. Qed.

Lemma clip_len_bounds s : 60 <= clip_len s <= 63.
Proof. unfold clip_len. repeat case_match; lia. Qed.

Lemma substring_whole n s : String.length s <= n -> String.substring 0 n s = s.
Proof.
  revert n. induction s as [|c s IH]; intros n Hn; [by destruct n|].
  destruct n as [|n]; cbn in Hn; [lia|]. cbn. rewrite IH; [done|lia].
Qed.

(** A name of at most 63 bytes is not truncated. *)
Lemma truncate_short s : String.length s <= 63 -> truncate s = s.
Proof. intros H. unfold truncate. rewrite clip_len_short by done. by apply substring_whole. Qed.

End PgSimple.
