(* ===== verification/Transfer.v ===== *)
(** * Transfer: [export_table_data] and [import_table_data]

    Export (src/main.py, lines 146-195) first makes the output directory
    when [os.path.exists] says it is missing ([ensure_output_dir]; this
    runs before the [try], so a failing [os.makedirs] raises out of the
    function).  It then runs [SELECT * FROM {table_name}] on MySQL with
    the name unquoted (MySQL's identifier rule is [my_plain_ident]: no
    reserved word of MySQL 8, no name read as a number, identifier
    characters only), writes the column names and then the rows,
    fetched 1000 at a time, each value cleaned ([None] stays, [bytes]
    become hex text, lines 177-183), with the CSV writer to
    [<output_dir>/<table_name>.csv]; any exception there gives [None].
    The file system is the [w_files] and [w_dirs] of the world:
    [open(path, 'w')] fails where a file stands on the path, and
    [os.makedirs] also on the empty path.

    Import (lines 197-266) first sends the whole file to [COPY ... FROM
    STDIN WITH CSV HEADER], commits and counts the rows.  On any
    exception it rolls back and re-reads the file with [csv.reader],
    turns every empty field into [None] and inserts the rows in batches
    of 100, committing after each full batch and after the last partial
    one.  An exception there rolls back and gives [False].

    The fetch loop is defined by well-founded recursion on the rows left
    in the cursor ([export_batches]), so it is total; the insert loop is
    structural on the rows of the file, and is proved equivalent to the
    reference [insert_batches], which sends the rows cut in consecutive
    groups of 100 ([chunks]) with a commit after each. *)

From S2P Require Import Prelude Hex Csv Catalog Ddl PgConn PgSimple.
From Equations Require Import Equations.

Module Transfer.
Import Hex Csv Catalog Ddl PgConn.
Local Open Scope mig_scope.

(** ** MySQL: [SELECT * FROM {table_name}] (line 158) *)

(** The reserved words of MySQL 8: the words marked (R) in the keyword
    tables of the 8.0 and 8.4 manuals.  An unquoted identifier may not
    be one of them, in any case. *)
Definition mysql_reserved : list string :=
  ["accessible"; "add"; "all"; "alter"; "analyze"; "and"; "as"; "asc"; "asensitive";
   "before"; "between"; "bigint"; "binary"; "blob"; "both"; "by"; "call"; "cascade";
   "case"; "change"; "char"; "character"; "check"; "collate"; "column"; "condition";
   "constraint"; "continue"; "convert"; "create"; "cross"; "cube"; "cume_dist";
   "current_date"; "current_time"; "current_timestamp"; "current_user"; "cursor";
   "database"; "databases"; "day_hour"; "day_microsecond"; "day_minute";
   "day_second"; "dec"; "decimal"; "declare"; "default"; "delayed"; "delete";
   "dense_rank"; "desc"; "describe"; "deterministic"; "distinct"; "distinctrow";
   "div"; "double"; "drop"; "dual"; "each"; "else"; "elseif"; "empty"; "enclosed";
   "escaped"; "except"; "exists"; "exit"; "explain"; "false"; "fetch"; "first_value";
   "float"; "float4"; "float8"; "for"; "force"; "foreign"; "from"; "fulltext";
   "function"; "generated"; "get"; "grant"; "group"; "grouping"; "groups"; "having";
   "high_priority"; "hour_microsecond"; "hour_minute"; "hour_second"; "if"; "ignore";
   "in"; "index"; "infile"; "inner"; "inout"; "insensitive"; "insert"; "int"; "int1";
   "int2"; "int3"; "int4"; "int8"; "integer"; "intersect"; "interval"; "into";
   "io_after_gtids"; "io_before_gtids"; "is"; "iterate"; "join"; "json_table"; "key";
   "keys"; "kill"; "lag"; "last_value"; "lateral"; "lead"; "leading"; "leave";
   "left"; "like"; "limit"; "linear"; "lines"; "load"; "localtime"; "localtimestamp";
   "lock"; "long"; "longblob"; "longtext"; "loop"; "low_priority"; "manual";
   "master_bind"; "master_ssl_verify_server_cert"; "match"; "maxvalue"; "mediumblob";
   "mediumint"; "mediumtext"; "middleint"; "minute_microsecond"; "minute_second";
   "mod"; "modifies"; "natural"; "not"; "no_write_to_binlog"; "nth_value"; "ntile";
   "null"; "numeric"; "of"; "on"; "optimize"; "optimizer_costs"; "option";
   "optionally"; "or"; "order"; "out"; "outer"; "outfile"; "over"; "parallel";
   "partition"; "percent_rank"; "precision"; "primary"; "procedure"; "purge";
   "qualify"; "range"; "rank"; "read"; "reads"; "read_write"; "real"; "recursive";
   "references"; "regexp"; "release"; "rename"; "repeat"; "replace"; "require";
   "resignal"; "restrict"; "return"; "revoke"; "right"; "rlike"; "row"; "rows";
   "row_number"; "schema"; "schemas"; "second_microsecond"; "select"; "sensitive";
   "separator"; "set"; "show"; "signal"; "smallint"; "spatial"; "specific"; "sql";
   "sqlexception"; "sqlstate"; "sqlwarning"; "sql_big_result"; "sql_calc_found_rows";
   "sql_small_result"; "ssl"; "starting"; "stored"; "straight_join"; "system";
   "table"; "tablesample"; "terminated"; "then"; "tinyblob"; "tinyint"; "tinytext";
   "to"; "trailing"; "trigger"; "true"; "undo"; "union"; "unique"; "unlock";
   "unsigned"; "update"; "usage"; "use"; "using"; "utc_date"; "utc_time";
   "utc_timestamp"; "values"; "varbinary"; "varchar"; "varcharacter"; "varying";
   "virtual"; "when"; "where"; "while"; "window"; "with"; "write"; "xor";
   "year_month"; "zerofill"].

(** An identifier character of MySQL's lexer: a letter, a digit, [$],
    [_], or a byte of the UTF-8 encoding of a character from U+0080 to
    U+FFFF (bytes 0x80-0xEF; a lead byte 0xF0-0xF7 starts a character
    beyond U+FFFF, which MySQL does not allow unquoted). *)
Definition my_ident_char (c : ascii) : bool :=
  let n := nat_of_ascii c in
  (Nat.leb 48 n && Nat.leb n 57) || (Nat.leb 65 n && Nat.leb n 90) ||
  (Nat.leb 97 n && Nat.leb n 122) || Nat.eqb n 36 || Nat.eqb n 95 ||
  (Nat.leb 128 n && Nat.leb n 239).

Definition my_digit (c : ascii) : bool :=
  let n := nat_of_ascii c in Nat.leb 48 n && Nat.leb n 57.

Definition my_hex_digit (c : ascii) : bool :=
  let n := nat_of_ascii c in
  my_digit c || (Nat.leb 65 n && Nat.leb n 70) || (Nat.leb 97 n && Nat.leb n 102).

Definition my_bin_digit (c : ascii) : bool := Ascii.eqb c "0"%char || Ascii.eqb c "1"%char.

(** A word of identifier characters that MySQL's lexer reads as a
    number (sql_lex.cc, state [MY_LEX_NUMBER_IDENT]): digits followed by
    [e] or [E] and a digit (a float, whatever follows), or all of the
    word a [0x] hexadecimal or [0b] binary literal. *)
Fixpoint my_float_start (s : string) : bool :=
  match s with
  | String.String c s' =>
      if my_digit c then my_float_start s'
      else (Ascii.eqb c "e"%char || Ascii.eqb c "E"%char) &&
           match s' with String.String d _ => my_digit d | String.EmptyString => false end
  | String.EmptyString => false
  end.

Definition my_number_like (s : string) : bool :=
  match s with
  | String.String c s' => my_digit c && my_float_start s
  | String.EmptyString => false
  end ||
  match s with
  | String.String "0"%char (String.String "x"%char (String.String _ _ as h)) => all_chars my_hex_digit h
  | String.String "0"%char (String.String "b"%char (String.String _ _ as b)) => all_chars my_bin_digit b
  | _ => false
  end.

(** A name MySQL accepts unquoted after [FROM]: identifier characters
    only, not all digits, not a number, not a reserved word. *)
Definition my_plain_ident (s : string) : bool :=
  negb (String.eqb s "") && all_chars my_ident_char s && negb (all_chars my_digit s) &&
  negb (my_number_like s) && negb (existsb (String.eqb (lower s)) mysql_reserved).

(** The column names of [cursor.description] and the rows. *)
Definition select_all (db : mysql) (t : string) : outcome (list string * list (list pyval)) :=
  if my_fails db (QSelectAll t) then Raise err_operational
  else if negb (my_plain_ident t) then Raise err_syntax
  else match find_table db t with
       | Some mt => Ret (map (fun c => col_name c.2) (sort_by by_ordinal (mt_columns mt)), mt_rows mt)
       | None => Raise "mysql.connector.errors.ProgrammingError: 1146 Table doesn't exist"
       end.

(** ** Cleaning and writing the rows *)

(** Lines 178-183. *)
Definition clean_value (v : pyval) : pyval :=
  match v with
  | PyBytes b => PyStr (hex b)
  | _ => v
  end.

Definition clean_row (row : list pyval) : list pyval := map clean_value row.



(** [repr] of a [bytes] value, which [str()] returns. *)
Definition byte_repr (q : ascii) (b : Byte.byte) : string :=
  let n := Byte.to_nat b in
  let esc s := chr bslash +:+ s in
  if Nat.eqb n 92 then esc (chr bslash)
  else if Nat.eqb n (nat_of_ascii q) then esc (chr q)
  else if Nat.eqb n 9 then esc "t"
  else if Nat.eqb n 10 then esc "n"
  else if Nat.eqb n 13 then esc "r"
  else if Nat.leb 32 n && Nat.leb n 126 then chr (ascii_of_nat n)
  else esc ("x" +:+ byte_hex b).

Definition bytes_repr (bs : list Byte.byte) : string :=
  let has n := existsb (fun b => Nat.eqb (Byte.to_nat b) n) bs in
  let q := if has 39 && negb (has 34) then dquote else squote in
  "b" +:+ chr q +:+ String.concat "" (map (byte_repr q) bs) +:+ chr q.

(** The text the CSV writer puts in a field: [None] is empty, other
    values are written as [str(value)]. *)
Definition py_str (v : pyval) : option string :=
  match v with
  | PyNone => None
  | PyBytes b => Some (bytes_repr b)
  | PyInt z => Some (str_of_Z z)
  | PyStr s => Some s
  | PyOther t => Some t
  end.

Definition export_row (row : list pyval) : list (option string) := map py_str (clean_row row).

Definition batch_size : nat := 1000.

(** Lines 169-187: [rows = cursor.fetchmany(1000)] until it is empty,
    writing each batch. *)
Equations export_batches (pending : list (list pyval)) : string
  by wf (length pending) lt :=
  export_batches [] := "";
  export_batches (r :: rs) :=
    write_rows (map export_row (firstn batch_size (r :: rs))) +:+
    export_batches (skipn batch_size (r :: rs)).
Next Obligation. intros. rewrite length_skipn. simpl. unfold batch_size. lia. Qed.

(** ** Files *)

(** [os.path.join(dir, name)]. *)
Definition path_join (dir name : string) : string :=
  match name with
  | String.String c _ => if ascii_dec c "/"%char then name
                         else if String.eqb dir "" then name
                         else if String.eqb (suffix 1 dir) "/" then dir +:+ name
                         else dir +:+ "/" +:+ name
  | String.EmptyString => if String.eqb (suffix 1 dir) "/" then dir else dir +:+ "/"
  end.

Section Files.
Context {DB : Type} `{PgEngine DB}.

Definition read_file (path : string) : st (world DB) string := fun w =>
  match dict_find path (w_files w) with
  | Some c => (Ret c, w)
  | None => (Raise "FileNotFoundError", w)
  end.

(** A file of the world stands where [path] needs a directory. *)
Definition blocked_by_file (path : string) (w : world DB) : bool :=
  existsb (fun kv => String.prefix (kv.1 +:+ "/") path) (w_files w).

(** [open(path, 'w')] and [write]: fails with [NotADirectoryError] when
    a file stands where a directory of [path] should be. *)
Definition write_file (path content : string) : st (world DB) unit := fun w =>
  if blocked_by_file path w then (Raise "NotADirectoryError", w)
  else (Ret tt, mkWorld (w_conn w) (dict_set path content (w_files w)) (w_dirs w)).

(** [os.path.exists(path)]: a directory, a file, or a directory that
    holds a file; never the empty path. *)
Definition path_exists (path : string) (w : world DB) : bool :=
  negb (String.eqb path "") &&
  (existsb (String.eqb path) (w_dirs w) ||
   existsb (fun kv => String.eqb kv.1 path || String.prefix (path +:+ "/") kv.1) (w_files w)).

(** [os.makedirs(path)]: fails on the empty path, on a path that is a
    file and below a file; otherwise the directory exists afterwards. *)
Definition makedirs (path : string) : st (world DB) unit := fun w =>
  if String.eqb path "" then (Raise "FileNotFoundError", w)
  else if existsb (fun kv => String.eqb kv.1 path) (w_files w) then (Raise "FileExistsError", w)
  else if blocked_by_file path w then (Raise "NotADirectoryError", w)
  else (Ret tt, mkWorld (w_conn w) (w_files w) (path :: w_dirs w)).

(** Lines 151-152, before the [try]. *)
Definition ensure_output_dir (output_dir : string) : st (world DB) unit := fun w =>
  if path_exists output_dir w then (Ret tt, w) else makedirs output_dir w.

Definition lift {A} (o : outcome A) : st (world DB) A := fun w => (o, w).

(** [export_table_data] (lines 146-195). *)
Definition export_table_data (db : mysql) (table_name output_dir : string)
  : st (world DB) (option string) :=
  ensure_output_dir output_dir ;;;
  let file_path := path_join output_dir (table_name +:+ ".csv") in
  st_catch
    (let* res := lift (select_all db table_name) in
     let '(columns, rows) := res in
     write_file file_path (write_row (map Some columns) +:+ export_batches rows) ;;;
     st_ret (Some file_path))
    (fun _ => st_ret None).
End Files.

(** ** Reading the file back *)

Fixpoint takeline (s : string) : string :=
  match s with
  | String.EmptyString => ""
  | String.String c s' => if ascii_dec c newline then chr newline else String.String c (takeline s')
  end.

(** [next(csv.reader([f.readline()]))] (line 204). *)
Definition header_of (content : string) : outcome (list string) :=
  match read_rows (takeline (univ_nl content)) with
  | h :: _ => Ret h
  | [] => Raise "StopIteration"
  end.

(** Line 245: [[None if val == '' else val for val in row]]. *)
Definition process_row (r : list string) : list (option string) :=
  map (fun v => if String.eqb v "" then None else Some v) r.

Definition insert_batch_size : nat := 100.

Section Import.
Context {DB : Type} `{PgEngine DB}.

(** [cursor.executemany(insert_query, batch)]: one [execute] per row,
    stopping at the first exception. *)
Fixpoint execute_many (table_name : string) (header : list string)
    (batch : list (list (option string))) : st (world DB) unit :=
  match batch with
  | [] => st_ret tt
  | r :: rs => pg_execute (insert_stmt table_name header r) ;;; execute_many table_name header rs
  end.

(** Lines 239-257: the loop over the rows of the reader and the final
    partial batch. *)
Fixpoint insert_rows (table_name : string) (header : list string)
    (rows : list (list string)) (batch : list (list (option string))) : st (world DB) unit :=
  match rows with
  | [] =>
      match batch with
      | [] => st_ret tt
      | _ => execute_many table_name header batch ;;; pg_commit
      end
  | r :: rs =>
      let batch' := (batch ++ [process_row r])%list in
      if Nat.leb insert_batch_size (length batch')
      then execute_many table_name header batch' ;;; pg_commit ;;;
           insert_rows table_name header rs []
      else insert_rows table_name header rs batch'
  end.

(** Lines 202-222: the bulk path. *)
Definition copy_import (table_name csv_file : string) : st (world DB) bool :=
  let* content := read_file csv_file in
  let* header := lift (header_of content) in
  pg_execute (copy_stmt table_name header (univ_nl content)) ;;;
  pg_commit ;;;
  let* res := pg_execute (count_stmt table_name) in
  match res with
  | (_ :: _) :: _ => st_ret true
  | _ => st_raise "TypeError: 'NoneType' object is not subscriptable"
  end.

(** Lines 230-260: the row-by-row path. *)
Definition fallback_import (table_name csv_file : string) : st (world DB) bool :=
  let* content := read_file csv_file in
  match read_rows content with
  | [] => st_raise "StopIteration"
  | header :: rows => insert_rows table_name header rows [] ;;; st_ret true
  end.

(** [import_table_data] (lines 197-266). *)
Definition import_table_data (table_name csv_file : string) : st (world DB) bool :=
  st_catch (copy_import table_name csv_file)
    (fun _ => pg_rollback ;;;
              st_catch (fallback_import table_name csv_file)
                       (fun _ => pg_rollback ;;; st_ret false)).
End Import.

(** ** The batches, as a specification *)

(** The list cut into consecutive groups of [insert_batch_size]. *)
Equations chunks {A} (l : list A) : list (list A) by wf (length l) lt :=
  chunks [] := [];
  chunks (x :: l) := firstn insert_batch_size (x :: l) :: chunks (skipn insert_batch_size (x :: l)).
Next Obligation. intros. rewrite length_skipn. simpl. unfold insert_batch_size. lia. Qed.

Section Events.
Context {DB : Type} `{PgEngine DB}.

(** The calls the row-by-row path makes for a list of batches. *)
Definition batch_events (table_name : string) (header : list string)
    (bs : list (list (list (option string)))) : list event :=
  concat (map (fun b => (map (fun r => EvExec (insert_stmt table_name header r) true) b
                         ++ [EvCommit])%list) bs).

(** The reference for the row-by-row path: cut the rows into batches,
    then send each batch and commit. *)
Fixpoint insert_batches (table_name : string) (header : list string)
    (bs : list (list (list (option string)))) : st (world DB) unit :=
  match bs with
  | [] => st_ret tt
  | b :: bs' => execute_many table_name header b ;;; pg_commit ;;; insert_batches table_name header bs'
  end.

(** ** Lemmas *)

Lemma export_batches_whole rows : export_batches rows = write_rows (map export_row rows).
Proof.
  funelim (export_batches rows); [done|].
  match goal with IH : export_batches _ = _ |- _ =>
    change (export_batches (skipn batch_size (r :: rs)) =
            write_rows (map export_row (skipn batch_size (r :: rs)))) in IH; rewrite IH end.
  rewrite <- write_rows_app, <- map_app. by rewrite take_drop.
Qed.

Lemma chunks_small {A} (l : list A) :
  l <> [] -> length l <= insert_batch_size -> chunks l = [l].
Proof.
  destruct l as [|x l]; [done|]. intros _ Hl. simp chunks.
  rewrite firstn_all2, skipn_all2 by done. by simp chunks.
Qed.

Lemma chunks_app_full {A} (b l : list A) :
  length b = insert_batch_size -> chunks (b ++ l)%list = b :: chunks l.
Proof.
  destruct b as [|x b]; [discriminate|]. intros Hb.
  change ((x :: b) ++ l)%list with (x :: (b ++ l))%list. simp chunks.
  change (x :: (b ++ l))%list with ((x :: b) ++ l)%list.
  rewrite <- Hb, take_app_length, drop_app_length. reflexivity.
Qed.

Lemma pg_execute_ret s w rs w' :
  pg_execute s w = (Ret rs, w') ->
  w_files w' = w_files w /\ log (w_conn w') = EvExec s true :: log (w_conn w).
Proof.
  unfold pg_execute, on_pg. destruct (execute s (w_conn w)) as [r c'] eqn:E.
  intros [= -> <-]. simpl. split; [done|].
  unfold execute in E. destruct (aborted (w_conn w)); [discriminate|].
  destruct (pg_apply s (working (w_conn w))) as [[db rows]|e]; by inversion E.
Qed.

Lemma pg_commit_log (w : world DB) : log (w_conn (snd (pg_commit w))) = EvCommit :: log (w_conn w).
Proof. reflexivity. Qed.

Lemma pg_commit_ret (w : world DB) : fst (pg_commit w) = Ret tt.
Proof. reflexivity. Qed.

Lemma execute_many_log t h batch w w' :
  execute_many t h batch w = (Ret tt, w') ->
  log (w_conn w') =
  (rev (map (fun r => EvExec (insert_stmt t h r) true) batch) ++ log (w_conn w))%list.
Proof.
  revert w. induction batch as [|r batch IH]; intros w Hrun; simpl in *.
  - inversion Hrun. reflexivity.
  - apply st_bind_ret_inv in Hrun as (rs & w1 & H1 & H2).
    apply pg_execute_ret in H1 as [_ Hl]. rewrite (IH _ H2), Hl, <- app_assoc. reflexivity.
Qed.

Lemma commit_after_many t h batch w w' :
  (execute_many t h batch ;;; pg_commit)%mig w = (Ret tt, w') ->
  log (w_conn w') =
  (rev (batch_events t h [batch]) ++ log (w_conn w))%list.
Proof.
  intros Hrun. apply st_bind_ret_inv in Hrun as ([] & w1 & H1 & H2).
  unfold pg_commit, on_pg in H2. simpl in H2. inversion H2; subst; simpl.
  rewrite (execute_many_log _ _ _ _ _ H1). unfold batch_events. simpl.
  by rewrite app_nil_r, rev_app_distr.
Qed.

Lemma insert_rows_log_gen t h rows batch w w' :
  length batch < insert_batch_size ->
  insert_rows t h rows batch w = (Ret tt, w') ->
  log (w_conn w') =
  (rev (batch_events t h (chunks (batch ++ map process_row rows))) ++ log (w_conn w))%list.
Proof.
  revert batch w. induction rows as [|r rows IH]; intros batch w Hlen Hrun; cbn [insert_rows] in Hrun.
  - rewrite app_nil_r. destruct batch as [|x b].
    + inversion Hrun. by simp chunks.
    + rewrite chunks_small by (done || lia). exact (commit_after_many _ _ _ _ _ Hrun).
  - set (batch' := (batch ++ [process_row r])%list) in Hrun.
    assert (Hb : (batch ++ map process_row (r :: rows) = batch' ++ map process_row rows)%list)
      by (unfold batch'; simpl; by rewrite <- app_assoc).
    assert (Hl : length batch' = S (length batch)) by (unfold batch'; rewrite length_app; simpl; lia).
    rewrite Hb. destruct (Nat.leb_spec insert_batch_size (length batch')).
    + apply st_bind_ret_inv in Hrun as ([] & w1 & H1 & H2).
      rewrite chunks_app_full by (unfold insert_batch_size in *; lia).
      apply st_bind_ret_inv in H2 as ([] & w2 & H3 & H4).
      assert (Hc : log (w_conn w2) = EvCommit :: log (w_conn w1))
        by (unfold pg_commit, on_pg in H3; simpl in H3; inversion H3; reflexivity).
      rewrite (IH [] w2 ltac:(unfold insert_batch_size; simpl; lia) H4), Hc.
      rewrite (execute_many_log _ _ _ _ _ H1).
      unfold batch_events. cbn [map concat]. rewrite !rev_app_distr. simpl.
      by rewrite <- !app_assoc.
    + exact (IH batch' w ltac:(lia) Hrun).
Qed.

Lemma chunks_concat {A} (l : list A) : concat (chunks l) = l.
Proof.
  remember (length l) as n eqn:Hn. revert l Hn.
  induction n as [n IH] using lt_wf_ind. intros [|x l] Hn; simp chunks; [done|].
  cbn [concat]. rewrite (IH (length (skipn insert_batch_size (x :: l)))).
  - apply take_drop.
  - rewrite length_skipn, Hn. simpl. unfold insert_batch_size. lia.
  - reflexivity.
Qed.

Lemma insert_rows_batches t h rows batch w :
  length batch < insert_batch_size ->
  insert_rows t h rows batch w = insert_batches t h (chunks (batch ++ map process_row rows)) w.
Proof.
  revert batch w. induction rows as [|r rows IH]; intros batch w Hlen; cbn [insert_rows map].
  - rewrite app_nil_r. destruct batch as [|x b]; [by simp chunks|].
    rewrite chunks_small by (done || lia). cbn [insert_batches].
    apply st_bind_ext. intros [] w1. symmetry. apply st_bind_ret_unit.
  - assert (Hb : (batch ++ process_row r :: map process_row rows =
                  (batch ++ [process_row r]) ++ map process_row rows)%list)
      by (by rewrite <- app_assoc).
    assert (Hl : length (batch ++ [process_row r])%list = S (length batch))
      by (rewrite length_app; simpl; lia).
    rewrite Hb. destruct (Nat.leb_spec insert_batch_size (length (batch ++ [process_row r])%list)).
    + rewrite chunks_app_full by (unfold insert_batch_size in *; lia). cbn [insert_batches].
      apply st_bind_ext; intros [] w1. apply st_bind_ext; intros [] w2.
      apply (IH [] w2). unfold insert_batch_size. simpl. lia.
    + apply IH. lia.
Qed.

(** ** Properties *)

(** C16: the row-by-row path sends every row of the file exactly once
    and in file order, as one [INSERT] each with empty fields turned
    into [NULL], cut into consecutive batches of 100 with a commit
    after each batch (the last one possibly shorter): when it returns,
    the calls it made are exactly [batch_events] of those batches. *)
Theorem insert_rows_log t h rows w w' :
  insert_rows t h rows [] w = (Ret tt, w') ->
  log (w_conn w') =
  (rev (batch_events t h (chunks (map process_row rows))) ++ log (w_conn w))%list /\
  concat (chunks (map process_row rows)) = map process_row rows.
Proof.
  intros Hrun. split; [|apply chunks_concat].
  exact (insert_rows_log_gen t h rows [] w w' ltac:(unfold insert_batch_size; simpl; lia) Hrun).
Qed.

(** C17: the row-by-row path is equivalent to its reference: at every
    state, [insert_rows] from an empty batch does exactly what cutting
    the processed rows into consecutive batches of 100 and sending each
    batch followed by a commit does, exceptions included; the batches
    are the rows in order. *)
Theorem insert_rows_equiv t h rows w :
  insert_rows t h rows [] w = insert_batches t h (chunks (map process_row rows)) w /\
  concat (chunks (map process_row rows)) = map process_row rows.
Proof.
  split; [|apply chunks_concat].
  apply insert_rows_batches. unfold insert_batch_size. simpl. lia.
Qed.

(** C13: the file written by the export reads back, with [csv.reader]
    through universal newlines, as the column names followed by the
    rows in cursor order, each value as [str()] of the cleaned value
    and [NULL] as the empty string; it needs no CR in names and values. *)
Theorem export_file_roundtrip (cols : list string) (rows : list (list pyval)) :
  Forall (fun c => has_char creturn c = false) cols ->
  Forall (Forall no_cr) (map export_row rows) ->
  read_rows (write_row (map Some cols) +:+ export_batches rows) =
  cols :: map (fun r => map field_text (export_row r)) rows.
Proof.
  intros Hc Hr. rewrite export_batches_whole.
  change (write_row (map Some cols) +:+ write_rows (map export_row rows))
    with (write_rows (map Some cols :: map export_row rows)).
  unfold read_rows, init. rewrite run_write_rows.
  - unfold finish; simpl. rewrite app_nil_r, rev_app_distr, rev_involutive. cbn. f_equal; [|by rewrite map_map]. clear.
    induction cols as [|c cols IH]; [done|]. simpl. by f_equal.
  - constructor; [|done]. clear Hr. induction Hc; constructor; auto.
Qed.

(** C23: when the row count after a committed [COPY] raises (for
    instance on a statement timeout), [import_table_data] rolls back,
    which no longer undoes the [COPY], and runs the row-by-row path on
    top of it: every row of the file is sent a second time as an
    [INSERT], after the committed [COPY] of the same rows. *)
Theorem import_count_failure_reinserts t f w w' content h rows db1 rs1 e :
  dict_find f (w_files w) = Some content ->
  header_of content = Ret h -> read_rows content = h :: rows ->
  aborted (w_conn w) = false ->
  pg_apply (copy_stmt t h (univ_nl content)) (working (w_conn w)) = Ret (db1, rs1) ->
  pg_apply (count_stmt t) db1 = Raise e ->
  import_table_data t f w = (Ret true, w') ->
  log (w_conn w') =
  (rev (batch_events t h (chunks (map process_row rows))) ++
   [EvRollback; EvExec (count_stmt t) false; EvCommit;
    EvExec (copy_stmt t h (univ_nl content)) true] ++ log (w_conn w))%list.
Proof.
  intros Hf Hh Hr Ha Hcopy Hcount Hrun.
  unfold import_table_data, copy_import, st_catch, st_bind, read_file, lift in Hrun.
  rewrite Hf, Hh in Hrun. unfold pg_execute, on_pg at 1 in Hrun.
  rewrite (execute_ok _ _ _ _ Ha Hcopy) in Hrun. cbn -[insert_rows pg_apply] in Hrun.
  unfold on_pg at 1 in Hrun. cbn [w_conn] in Hrun.
  erewrite execute_fail in Hrun; [|reflexivity|exact Hcount].
  cbn -[insert_rows pg_apply] in Hrun.
  unfold fallback_import, st_bind, read_file, lift in Hrun. cbn [w_files] in Hrun.
  rewrite Hf, Hr in Hrun.
  destruct (insert_rows t h rows [] _) as [[[]|e'] w2] eqn:Hins; [|discriminate].
  inversion Hrun; subst.
  apply insert_rows_log_gen in Hins as ->; [reflexivity|unfold insert_batch_size; simpl; lia].
Qed.
End Events.

(** A server on which the row count times out. *)
Definition timeout_engine : PgEngine PgSimple.pgdb := fun s db =>
  match s with
  | SelectCount _ => Raise "canceling statement due to statement timeout"
  | _ => PgSimple.pg_simple_apply s db
  end.

Definition demo_db : PgSimple.pgdb :=
  PgSimple.mkPgDb [PgSimple.mkPgTable "t" [PgSimple.mkPgCol "a" "TEXT" true None] [] []] [] [].

Definition demo_file : string := write_rows [[Some "a"]; [Some "x"]; [Some "y"]].

Definition demo_world : world PgSimple.pgdb :=
  mkWorld (mkConn demo_db demo_db false []) [("out/t.csv", demo_file)] [].

Lemma insert_rows_log_witness :
  let r := @insert_rows _ PgSimple.pg_simple "t" ["a"] [["x"]; ["y"]] [] demo_world in
  fst r = Ret tt /\
  log (w_conn (snd r)) =
  (rev (batch_events "t" ["a"] (chunks (map process_row [["x"]; ["y"]]))) ++ [])%list.
Proof.
  cbv zeta. split; [vm_compute; reflexivity|].
  refine (proj1 (@insert_rows_log _ PgSimple.pg_simple "t" ["a"] [["x"]; ["y"]] demo_world _ _)).
  vm_compute. reflexivity.
Defined.

Lemma export_file_roundtrip_witness :
  read_rows (write_row (map Some ["id"; "data"]) +:+
             export_batches [[PyInt 1; PyBytes [Byte.xff; Byte.x00]]; [PyInt 2; PyNone]]) =
  ["id"; "data"] :: [["1"; "ff00"]; ["2"; ""]].
Proof. apply (export_file_roundtrip ["id"; "data"]); repeat constructor. Defined.

Lemma import_count_failure_reinserts_witness :
  let w' := snd (@import_table_data _ timeout_engine "t" "out/t.csv" demo_world) in
  log (w_conn w') =
  (rev (batch_events "t" ["a"] (chunks (map process_row [["x"]; ["y"]]))) ++
   [EvRollback; EvExec (count_stmt "t") false; EvCommit;
    EvExec (copy_stmt "t" ["a"] (univ_nl demo_file)) true] ++ [])%list.
Proof.
  eapply (@import_count_failure_reinserts _ timeout_engine "t" "out/t.csv" demo_world _
           demo_file ["a"] [["x"]; ["y"]]); vm_compute; reflexivity.
Defined.

End Transfer.
