(* ===== verification/Migrate.v ===== *)
(** * Migrate: the statements run against PostgreSQL for one table and the
    foreign-key pass (src/main.py, lines 109-144 and 284-492)

    [create_postgresql_table], [migrate_constraints],
    [migrate_foreign_keys], [migrate_indexes] and [reset_sequences] as
    operations of the state-and-exception monad on the [world] (the
    psycopg2 connection and the files).  Each of the first four wraps its
    statements in [try: execute; commit / except: rollback], modelled
    once as [attempt]; [reset_sequences] catches its exceptions without a
    rollback.  The theorems show that each [attempt] leaves the
    connection clean, that a pass of attempts refines the best-effort
    application [apply_each] of its statements to the committed
    database, and that a failure inside [reset_sequences] leaves the
    transaction aborted. *)

From S2P Require Import Prelude Catalog Ddl PgConn PgSimple Transfer.

Module Migrate.
Import Catalog Ddl PgConn Transfer.
Local Open Scope mig_scope.

(** The sequence name in a [nextval('name'::regclass)] default: the
    second piece of [sequence_info.split("'")] (lines 473-475). *)
Definition sequence_name_of (sequence_info : string) : option string :=
  match split squote sequence_info with
  | _ :: sequence_name :: _ => Some sequence_name
  | _ => None
  end.

(** [f"{x}"] of a column read from the cursor: [None] prints as [None]. *)
Definition py_format (v : option string) : string :=
  match v with Some s => s | None => "None" end.

Section Migrate.
Context {DB : Type} `{PgEngine DB}.

(** [try: cursor.execute(sql); pg_conn.commit(); ...; <a>
     except Exception: pg_conn.rollback(); ...; <b>]. *)
Definition attempt {A} (s : pg_stmt) (a b : A) : st (world DB) A :=
  st_catch (pg_execute s ;;; pg_commit ;;; st_ret a)
           (fun _ => pg_rollback ;;; st_ret b).

(** A [for] loop whose body is one [attempt] (lines 356-380, 426-445). *)
Fixpoint attempt_each (ss : list pg_stmt) : st (world DB) unit :=
  match ss with
  | [] => st_ret tt
  | s :: ss' => attempt s tt tt ;;; attempt_each ss'
  end.

(** [create_postgresql_table] (lines 109-144): the statement of
    [Ddl.create_table_stmt], committed, or rolled back with [False]. *)
Definition create_postgresql_table (table_name : string) (columns : list column_row)
  : st (world DB) bool :=
  attempt (create_table_stmt table_name columns) true false.

(** [migrate_constraints] (lines 284-310). *)
Definition migrate_constraints (db : mysql) (table_name : string) : st (world DB) bool :=
  st_catch
    (let* pk_columns := lift (get_primary_keys db table_name) in
     match pk_columns with
     | [] => st_ret true
     | _ :: _ => attempt (pk_stmt table_name pk_columns) tt tt ;;; st_ret true
     end)
    (fun _ => st_ret false).

(** [migrate_foreign_keys] (lines 349-385): one [ALTER TABLE] per
    entry of the dictionary, in its insertion order. *)
Definition migrate_foreign_keys (db : mysql) (database_name : string) : st (world DB) bool :=
  st_catch
    (let* foreign_keys := lift (get_foreign_keys db database_name) in
     attempt_each (map (fun p => fk_stmt p.1 p.2) foreign_keys) ;;; st_ret true)
    (fun _ => st_ret false).

(** [migrate_indexes] (lines 420-452). *)
Definition migrate_indexes (db : mysql) (table_name : string) : st (world DB) bool :=
  st_catch
    (let* indexes := lift (get_indexes db table_name) in
     attempt_each (map (fun p => index_stmt table_name p.1 p.2) indexes) ;;; st_ret true)
    (fun _ => st_ret false).

(** The body of the loop of lines 467-486 for one row
    [(column_name, column_default)]. *)
Definition reset_row (table_name : string) (row : list (option string)) : st (world DB) unit :=
  match row with
  | column_name :: Some sequence_info :: _ =>
      match sequence_name_of sequence_info with
      | Some sequence_name =>
          pg_execute (setval_stmt sequence_name (py_format column_name) table_name) ;;;
          pg_commit
      | None => st_ret tt
      end
  | _ :: None :: _ => st_raise "AttributeError: 'NoneType' object has no attribute 'split'"
  | _ => st_raise "IndexError: tuple index out of range"
  end.

Fixpoint reset_rows (table_name : string) (rows : rowset) : st (world DB) unit :=
  match rows with
  | [] => st_ret tt
  | r :: rs => reset_row table_name r ;;; reset_rows table_name rs
  end.

(** [reset_sequences] (lines 454-492): the handler prints and returns
    [False] without [pg_conn.rollback()]. *)
Definition reset_sequences (table_name : string) : st (world DB) bool :=
  st_catch
    (let* rows := pg_execute (serial_columns_stmt table_name) in
     reset_rows table_name rows ;;; st_ret true)
    (fun _ => st_ret false).

(** ** The contract of a pass of attempts *)

(** A statement applied to a database if it succeeds, skipped if not. *)
Definition try_apply (s : pg_stmt) (d : DB) : DB :=
  match pg_apply s d with Ret (d', _) => d' | Raise _ => d end.

Definition apply_each (ss : list pg_stmt) (d : DB) : DB :=
  fold_left (fun d s => try_apply s d) ss d.

Definition succeeds (s : pg_stmt) (d : DB) : bool :=
  match pg_apply s d with Ret _ => true | Raise _ => false end.

(** ** Lemmas *)

(** The connection after one [attempt]: committed on success, rolled
    back to the last committed database on failure (also when the
    transaction was already aborted). *)
Lemma attempt_run {A} s (a b : A) w :
  attempt s a b w =
  if aborted (w_conn w) then
    (Ret b, mkWorld (mkConn (committed (w_conn w)) (committed (w_conn w)) false
                       (EvRollback :: EvExec s false :: log (w_conn w))) (w_files w) (w_dirs w))
  else match pg_apply s (working (w_conn w)) with
       | Ret (d', _) =>
           (Ret a, mkWorld (mkConn d' d' false (EvCommit :: EvExec s true :: log (w_conn w)))
                           (w_files w) (w_dirs w))
       | Raise _ =>
           (Ret b, mkWorld (mkConn (committed (w_conn w)) (committed (w_conn w)) false
                              (EvRollback :: EvExec s false :: log (w_conn w))) (w_files w) (w_dirs w))
       end.
Proof.
  unfold attempt, st_catch, st_bind, pg_execute, pg_commit, pg_rollback, on_pg, execute.
  destruct (aborted (w_conn w)); [reflexivity|].
  destruct (pg_apply s (working (w_conn w))) as [[d' rs]|e]; reflexivity.
Qed.

(** From a clean connection an [attempt] returns [a] exactly when the
    statement succeeds on the committed database, and leaves the
    connection clean on [try_apply s]. *)
Lemma attempt_clean {A} s (a b : A) w :
  clean (w_conn w) ->
  let w' := snd (attempt s a b w) in
  fst (attempt s a b w) = Ret (if succeeds s (committed (w_conn w)) then a else b) /\
  clean (w_conn w') /\ committed (w_conn w') = try_apply s (committed (w_conn w)) /\
  w_files w' = w_files w.
Proof.
  intros [Ha Hw]. rewrite attempt_run, Ha, Hw. unfold succeeds, try_apply.
  destruct (pg_apply s (committed (w_conn w))) as [[d' rs]|e]; repeat split.
Qed.

(** From an aborted connection an [attempt] fails without running the
    statement and rolls back. *)
Lemma attempt_aborted {A} s (a b : A) w :
  aborted (w_conn w) = true ->
  let w' := snd (attempt s a b w) in
  fst (attempt s a b w) = Ret b /\ clean (w_conn w') /\
  committed (w_conn w') = committed (w_conn w) /\ w_files w' = w_files w.
Proof. intros Ha. rewrite attempt_run, Ha. repeat split. Qed.

Lemma attempt_each_clean ss w :
  clean (w_conn w) ->
  let w' := snd (attempt_each ss w) in
  fst (attempt_each ss w) = Ret tt /\ clean (w_conn w') /\
  committed (w_conn w') = apply_each ss (committed (w_conn w)) /\ w_files w' = w_files w.
Proof.
  revert w. induction ss as [|s ss IH]; intros w Hc; cbn zeta; [repeat split; apply Hc|].
  unfold apply_each. cbn [attempt_each fold_left].
  destruct (attempt_clean s tt tt w Hc) as (Hr & Hc' & Hd & Hf).
  unfold st_bind. destruct (attempt s tt tt w) as [r w1]; cbn in Hr, Hc', Hd, Hf; subst r.
  destruct (IH w1 Hc') as (Hr2 & Hc2 & Hd2 & Hf2).
  unfold apply_each in Hd2. rewrite <- Hd, <- Hf. auto.
Qed.

(** The handler of [migrate_*] around a MySQL query: a failing query
    returns [False] with nothing changed. *)
Lemma catch_lift {A B} (o : outcome A) (k : A -> st (world DB) B) (b : B) w :
  st_catch (let* x := lift o in k x) (fun _ => st_ret b) w =
  match o with Ret a => st_catch (k a) (fun _ => st_ret b) w | Raise _ => (Ret b, w) end.
Proof. destruct o; reflexivity. Qed.

Lemma catch_pass_true ss (h : string -> st (world DB) bool) w :
  clean (w_conn w) ->
  st_catch (attempt_each ss ;;; st_ret true) h w = (Ret true, snd (attempt_each ss w)).
Proof.
  intros Hc. destruct (attempt_each_clean ss w Hc) as (Hr & _).
  unfold st_catch, st_bind. destruct (attempt_each ss w) as [r w1]. cbn in Hr. by subst r.
Qed.

(** The contract of a pass of statements started on a clean connection. *)
Definition pass_result (ss : list pg_stmt) (w : world DB) (r : outcome bool * world DB) : Prop :=
  fst r = Ret true /\ clean (w_conn (snd r)) /\
  committed (w_conn (snd r)) = apply_each ss (committed (w_conn w)) /\
  w_files (snd r) = w_files w.

Lemma catch_pass_result ss (h : string -> st (world DB) bool) w :
  clean (w_conn w) -> pass_result ss w (st_catch (attempt_each ss ;;; st_ret true) h w).
Proof.
  intros Hc. rewrite catch_pass_true by exact Hc.
  destruct (attempt_each_clean ss w Hc) as (_ & ?). split; [reflexivity|assumption].
Qed.

(** ** Properties *)

(** C24: the foreign-key pass refines its contract: from a clean
    connection, when the MySQL query succeeds, [migrate_foreign_keys]
    returns [True], leaves the connection clean and the committed
    database equal to each [ALTER TABLE ... FOREIGN KEY] of the
    dictionary applied in order, a failing one skipped; when the query
    fails it returns [False] and changes nothing. *)
Theorem migrate_foreign_keys_spec db database_name w :
  clean (w_conn w) ->
  match get_foreign_keys db database_name with
  | Ret fks => pass_result (map (fun p => fk_stmt p.1 p.2) fks) w
                           (migrate_foreign_keys db database_name w)
  | Raise _ => migrate_foreign_keys db database_name w = (Ret false, w)
  end.
Proof.
  intros Hc. unfold migrate_foreign_keys. rewrite catch_lift.
  destruct (get_foreign_keys db database_name); [by apply catch_pass_result|done].
Qed.

(** C25: the same contract for the indexes of one table: each
    [CREATE [UNIQUE] INDEX] of [get_indexes] applied in order, a
    failing one skipped. *)
Theorem migrate_indexes_spec db table_name w :
  clean (w_conn w) ->
  match get_indexes db table_name with
  | Ret idxs => pass_result (map (fun p => index_stmt table_name p.1 p.2) idxs) w
                            (migrate_indexes db table_name w)
  | Raise _ => migrate_indexes db table_name w = (Ret false, w)
  end.
Proof.
  intros Hc. unfold migrate_indexes. rewrite catch_lift.
  destruct (get_indexes db table_name); [by apply catch_pass_result|done].
Qed.

(** C26: [migrate_constraints] adds the primary key when the table has
    one (and skips it if PostgreSQL rejects it), does nothing for a
    table without one, and returns [False] only when the MySQL query
    fails. *)
Theorem migrate_constraints_spec db table_name w :
  clean (w_conn w) ->
  match get_primary_keys db table_name with
  | Ret [] => migrate_constraints db table_name w = (Ret true, w)
  | Ret pks => pass_result [pk_stmt table_name pks] w (migrate_constraints db table_name w)
  | Raise _ => migrate_constraints db table_name w = (Ret false, w)
  end.
Proof.
  intros Hc. unfold migrate_constraints. rewrite catch_lift.
  destruct (get_primary_keys db table_name) as [[|pk pks]|]; [done| |done].
  destruct (attempt_clean (pk_stmt table_name (pk :: pks)) tt tt w Hc) as (Hr & ?).
  unfold pass_result, st_catch, st_bind.
  destruct (attempt _ tt tt w) as [r w1]. cbn in Hr |- *. by subst r.
Qed.

(** C5: [reset_sequences] does not roll back: when the query for the
    serial columns fails, or the transaction is already aborted, it
    returns [False] and leaves the transaction aborted, so every later
    statement on the connection fails until a [rollback]. *)
Theorem reset_sequences_leaves_aborted table_name w :
  aborted (w_conn w) = true \/ succeeds (serial_columns_stmt table_name) (working (w_conn w)) = false ->
  let r := reset_sequences table_name w in
  fst r = Ret false /\ aborted (w_conn (snd r)) = true /\
  committed (w_conn (snd r)) = committed (w_conn w) /\ w_files (snd r) = w_files w.
Proof.
  intros Hab. unfold reset_sequences, st_catch, st_bind, pg_execute, on_pg, execute, succeeds in *.
  destruct (aborted (w_conn w)); [done|].
  destruct Hab as [|Hs]; [done|].
  destruct (pg_apply _ _) as [[]|e]; done.
Qed.
End Migrate.


(** For the default PostgreSQL gives a serial column,
    [nextval('<name>'::regclass)], [sequence_info.split("'")[1]] is the
    sequence name, provided the name holds no quote. *)
Theorem sequence_name_of_nextval n :
  has_char squote n = false ->
  sequence_name_of ("nextval(" +:+ chr squote +:+ n +:+ chr squote +:+ "::regclass)") = Some n.
Proof.
  intros Hn. unfold sequence_name_of, split, chr.
  rewrite !(append_cons squote), !append_nil_l.
  rewrite split_go_sep by reflexivity. cbn [split_go].
  rewrite split_go_sep by exact Hn. reflexivity.
Qed.

Lemma sequence_name_of_nextval_witness :
  has_char squote "users_id_seq" = false /\
  sequence_name_of "nextval('users_id_seq'::regclass)" = Some "users_id_seq".
Proof.
  split; [reflexivity|]. exact (sequence_name_of_nextval "users_id_seq" eq_refl).
Defined.

(** A server on which the query for the serial columns times out. *)
Definition serial_timeout_engine : PgEngine PgSimple.pgdb := fun s db =>
  match s with
  | SelectSerialColumns _ => Raise "canceling statement due to statement timeout"
  | _ => PgSimple.pg_simple_apply s db
  end.

Lemma reset_sequences_leaves_aborted_witness :
  let r := @reset_sequences _ serial_timeout_engine "t" demo_world in
  fst r = Ret false /\ aborted (w_conn (snd r)) = true /\
  committed (w_conn (snd r)) = committed (w_conn demo_world) /\
  w_files (snd r) = w_files demo_world.
Proof.
  apply (@reset_sequences_leaves_aborted _ serial_timeout_engine). right. reflexivity.
Defined.

Lemma migrate_constraints_spec_witness :
  clean (w_conn demo_world) /\
  @migrate_constraints _ PgSimple.pg_simple example_db "users" demo_world = (Ret true, demo_world).
Proof.
  assert (Hc : clean (w_conn demo_world)) by (split; reflexivity).
  split; [exact Hc|].
  exact (@migrate_constraints_spec _ PgSimple.pg_simple example_db "users" demo_world Hc).
Defined.

Lemma migrate_foreign_keys_spec_witness :
  clean (w_conn demo_world) /\
  @pass_result _ PgSimple.pg_simple (map (fun p => fk_stmt p.1 p.2) (group_foreign_keys (fk_query_rows example_db "shop")))
    demo_world (@migrate_foreign_keys _ PgSimple.pg_simple example_db "shop" demo_world).
Proof.
  assert (Hc : clean (w_conn demo_world)) by (split; reflexivity).
  split; [exact Hc|].
  exact (@migrate_foreign_keys_spec _ PgSimple.pg_simple example_db "shop" demo_world Hc).
Defined.

Lemma migrate_indexes_spec_witness :
  clean (w_conn demo_world) /\
  @pass_result _ PgSimple.pg_simple [] demo_world (@migrate_indexes _ PgSimple.pg_simple example_db "t" demo_world).
Proof.
  assert (Hc : clean (w_conn demo_world)) by (split; reflexivity).
  split; [exact Hc|].
  exact (@migrate_indexes_spec _ PgSimple.pg_simple example_db "t" demo_world Hc).
Defined.

End Migrate.
