(* ===== verification/Orchestrator.v ===== *)
(** * Orchestrator: [main] and [generate_migration_report]
    (src/main.py, lines 494-615)

    The loop over the tables (lines 565-602) as [process_table] for one
    table and [migrate_tables] for the list, threading the lists of
    tables migrated and failed; [main] runs it after choosing the
    tables, then the foreign-key pass, the report and [pg_conn.close()].
    The theorems show that the two lists partition the tables in order,
    that a table is lost only through its own steps or through an
    aborted transaction left by the previous table, that the loop
    returns unless a schema query or [os.makedirs] raises (these two
    are outside any [try]), that it sends the [CREATE TABLE] of every
    table in order, that its segment of the log holds no foreign key and
    that after it [main] sends only foreign-key statements, and that the
    report holds exactly the lists the loop returned.  [Section Preserve] proves once
    that every step keeps any invariant of the world that the
    connection's operations and the file writes keep. *)

From S2P Require Import Prelude Catalog Ddl PgConn PgSimple Transfer Migrate.

Module Orchestrator.
Import Catalog Ddl PgConn Transfer Migrate.
Local Open Scope mig_scope.

(** [ó] in UTF-8, as the report file holds it. *)
Definition o_acute : string := String.String "195"%char (String.String "179"%char "").

Definition table_lines (tables : list string) : string :=
  String.concat "" (map (fun t => "    - " +:+ t +:+ nl) tables).

(** [generate_migration_report] (lines 494-525): the text of the
    report; the three time stamps are its inputs. *)
Definition report_text (start_time end_time duration : string)
    (tables success_tables failed_tables : list string) : string :=
  nl +:+
  "    Fecha y hora de inicio: " +:+ start_time +:+ nl +:+
  "    Fecha y hora de finalizaci" +:+ o_acute +:+ "n: " +:+ end_time +:+ nl +:+
  "    Duraci" +:+ o_acute +:+ "n total: " +:+ duration +:+ nl +:+
  "    " +:+ nl +:+
  "    Tablas procesadas: " +:+ str_of_N (N.of_nat (length tables)) +:+ nl +:+
  "    Tablas migradas exitosamente: " +:+ str_of_N (N.of_nat (length success_tables)) +:+ nl +:+
  "    Tablas con errores: " +:+ str_of_N (N.of_nat (length failed_tables)) +:+ nl +:+
  "    " +:+ nl +:+
  "    Tablas migradas:" +:+ nl +:+ "    " +:+
  table_lines success_tables +:+
  match failed_tables with
  | [] => ""
  | _ :: _ => nl +:+ "    Tablas con errores:" +:+ nl +:+ table_lines failed_tables
  end.

Definition report_file : string := "migration_report.txt".

(** ** Lemmas on the files *)

Lemma csv_not_txt (x y : string) : x +:+ ".csv" <> y +:+ ".txt".
Proof.
  revert y. induction x as [|c x IH]; intros [|d y] E.
  - discriminate.
  - rewrite append_nil_l in E. injection E as _ E.
    apply (f_equal String.length) in E. rewrite append_length in E. simpl in E. lia.
  - rewrite append_nil_l in E. injection E as _ E.
    apply (f_equal String.length) in E. rewrite append_length in E. simpl in E. lia.
  - injection E as _ E. exact (IH y E).
Qed.

Lemma path_join_app dir name :
  name <> "" -> exists pre, path_join dir name = pre +:+ name.
Proof.
  intros Hn. unfold path_join. destruct name as [|c name']; [done|].
  destruct (ascii_dec c "/"%char); [by exists ""|].
  destruct (String.eqb dir ""); [by exists ""|].
  destruct (String.eqb (suffix 1 dir) "/"); [by exists dir|].
  exists (dir +:+ "/"). by rewrite append_assoc.
Qed.

(** The export never writes the report's path. *)
Lemma export_path_not_report dir t : path_join dir (t +:+ ".csv") <> report_file.
Proof.
  destruct (path_join_app dir (t +:+ ".csv")) as [pre ->].
  { destruct t; discriminate. }
  rewrite <- append_assoc. exact (csv_not_txt _ "migration_report").
Qed.

(** The statements of the table loop: every statement but the foreign
    keys, which only [migrate_foreign_keys] sends. *)
Definition table_stmt (s : pg_stmt) : bool :=
  match s with AddForeignKey _ _ _ _ _ => false | _ => true end.

Section Main.
Context {DB : Type} `{PgEngine DB}.

(** The body of the loop (lines 570-602) for one table: [true] when
    the table reaches [success_tables.append]. *)
Definition process_table (db : mysql) (output_dir table_name : string) : st (world DB) bool :=
  let* columns := lift (get_table_schema db table_name) in
  let* created := create_postgresql_table table_name columns in
  if negb created then st_ret false else
  let* csv_file := export_table_data db table_name output_dir in
  match csv_file with
  | None => st_ret false
  | Some csv_file =>
      let* imported := import_table_data table_name csv_file in
      if negb imported then st_ret false else
      migrate_constraints db table_name ;;;
      migrate_indexes db table_name ;;;
      reset_sequences table_name ;;;
      st_ret true
  end.

(** The loop of lines 565-602. *)
Fixpoint migrate_tables (db : mysql) (output_dir : string) (tables : list string)
    (success_tables failed_tables : list string)
  : st (world DB) (list string * list string) :=
  match tables with
  | [] => st_ret (success_tables, failed_tables)
  | table_name :: rest =>
      let* ok := process_table db output_dir table_name in
      if ok then migrate_tables db output_dir rest (success_tables ++ [table_name])%list failed_tables
      else migrate_tables db output_dir rest success_tables (failed_tables ++ [table_name])%list
  end.

(** [main] (lines 527-615) after the arguments are parsed:
    [mysql_conn] is [None] when [connect_to_mysql] failed and
    [pg_connected] says whether [connect_to_postgresql] succeeded.  The
    run ends with [mysql_conn.close()], which changes nothing the model
    holds (the MySQL side is read only), and [pg_conn.close()]. *)
Definition main (mysql_conn : option mysql) (pg_connected : bool)
    (mysql_db output_dir : string) (args_tables : option (list string))
    (start_time end_time duration : string) : st (world DB) unit :=
  match mysql_conn with
  | Some db =>
      if negb pg_connected then st_ret tt else
      let* tables := match args_tables with
                     | Some ((_ :: _) as ts) => st_ret ts
                     | _ => lift (get_tables db)
                     end in
      let* res := migrate_tables db output_dir tables [] [] in
      migrate_foreign_keys db mysql_db ;;;
      write_file report_file
        (report_text start_time end_time duration tables res.1 res.2) ;;;
      pg_close
  | None => st_ret tt
  end.

(** ** Invariants of the world

    A predicate of the world that the connection calls keep and that the
    export's file writes keep is kept by every step of the program. *)

Lemma read_file_preserves (P : world DB -> Prop) f : st_preserves P (@read_file DB f).
Proof. intros w Hw. unfold read_file. by destruct (dict_find f (w_files w)). Qed.

Lemma lift_preserves (P : world DB -> Prop) {A} (o : outcome A) : st_preserves P (@lift DB A o).
Proof. intros w Hw. exact Hw. Qed.

#[local] Hint Resolve read_file_preserves lift_preserves : mig.

Section Preserve.
Variable P : world DB -> Prop.
Hypothesis P_execute : forall s, table_stmt s = true -> st_preserves P (pg_execute s).
Hypothesis P_commit : st_preserves P (@pg_commit DB).
Hypothesis P_rollback : st_preserves P (@pg_rollback DB).
Hypothesis P_export : forall dir t c,
  st_preserves P (@write_file DB (path_join dir (t +:+ ".csv")) c).
Hypothesis P_ensure : forall dir, st_preserves P (@ensure_output_dir DB dir).

#[local] Hint Resolve P_commit P_rollback : mig.
#[local] Hint Extern 1 (st_preserves P (pg_execute _)) => apply P_execute; reflexivity : mig.

Lemma attempt_preserves {A} s (a b : A) : table_stmt s = true -> st_preserves P (attempt s a b).
Proof. intros Hs. unfold attempt. repeat first [apply P_execute, Hs | preserve_step]. Qed.

#[local] Hint Extern 1 (st_preserves P (attempt _ _ _)) => apply attempt_preserves; reflexivity : mig.

Lemma attempt_each_preserves ss : forallb table_stmt ss = true -> st_preserves P (attempt_each ss).
Proof.
  induction ss as [|s ss IH]; cbn; intros Hs; [repeat preserve_step|].
  apply andb_true_iff in Hs as [Hs Hss].
  apply st_bind_preserves; [by apply attempt_preserves|intros _; by apply IH].
Qed.

Lemma execute_many_preserves t h b : st_preserves P (execute_many t h b).
Proof. induction b; cbn; repeat preserve_step. Qed.

#[local] Hint Resolve execute_many_preserves : mig.

Lemma insert_rows_preserves t h rows b : st_preserves P (insert_rows t h rows b).
Proof. revert b. induction rows; intros b; cbn; repeat preserve_step. Qed.

Lemma reset_rows_preserves t rows : st_preserves P (reset_rows t rows).
Proof. induction rows; cbn; unfold reset_row; repeat preserve_step. Qed.

#[local] Hint Resolve insert_rows_preserves reset_rows_preserves : mig.

Lemma export_table_data_preserves db t dir : st_preserves P (@export_table_data DB db t dir).
Proof. unfold export_table_data. apply st_bind_preserves; [apply P_ensure|intros ?]. repeat preserve_step. Qed.

Lemma import_table_data_preserves t f : st_preserves P (import_table_data t f).
Proof. unfold import_table_data, copy_import, fallback_import. repeat preserve_step. Qed.

Lemma migrate_steps_preserve db t :
  st_preserves P (migrate_constraints db t) /\ st_preserves P (migrate_indexes db t) /\
  st_preserves P (reset_sequences t).
Proof.
  unfold migrate_constraints, migrate_indexes, reset_sequences.
  split_and!; repeat first [ apply attempt_each_preserves; rewrite forallb_map;
                             apply forallb_forall; reflexivity
                           | preserve_step ].
Qed.

#[local] Hint Resolve export_table_data_preserves import_table_data_preserves : mig.

Lemma process_table_preserves db dir t : st_preserves P (process_table db dir t).
Proof.
  pose proof (migrate_steps_preserve db t) as (? & ? & ?).
  unfold process_table, create_postgresql_table. repeat preserve_step.
Qed.

#[local] Hint Resolve process_table_preserves : mig.

Lemma migrate_tables_preserves db dir ts s f : st_preserves P (migrate_tables db dir ts s f).
Proof. revert s f. induction ts; intros s f; cbn; repeat preserve_step. Qed.
End Preserve.

(** ** Every step but the schema query returns *)

Lemma pg_rollback_total : st_total (@pg_rollback DB).
Proof. intros w. eexists _, _. reflexivity. Qed.

Lemma pg_commit_total : st_total (@pg_commit DB).
Proof. intros w. eexists _, _. reflexivity. Qed.

Lemma lift_ret_total {A} (a : A) : st_total (@lift DB A (Ret a)).
Proof. intros w. eauto. Qed.

#[local] Hint Resolve pg_rollback_total pg_commit_total lift_ret_total : mig.

Lemma attempt_total {A} s (a b : A) : st_total (attempt s a b).
Proof. unfold attempt. auto with mig. Qed.

Lemma import_table_data_total t f : st_total (import_table_data t f).
Proof. unfold import_table_data. auto with mig. Qed.

Lemma migrate_constraints_total db t : st_total (migrate_constraints db t).
Proof. unfold migrate_constraints. auto with mig. Qed.

Lemma migrate_indexes_total db t : st_total (migrate_indexes db t).
Proof. unfold migrate_indexes. auto with mig. Qed.

Lemma migrate_foreign_keys_total db d : st_total (migrate_foreign_keys db d).
Proof. unfold migrate_foreign_keys. auto with mig. Qed.

Lemma reset_sequences_total t : st_total (reset_sequences t).
Proof. unfold reset_sequences. auto with mig. Qed.

#[local] Hint Resolve attempt_total import_table_data_total
  migrate_constraints_total migrate_indexes_total migrate_foreign_keys_total
  reset_sequences_total : mig.

(** ** The output directory

    [os.makedirs] runs before the [try] of [export_table_data] (lines
    151-152): it is the one step of a table besides the schema query
    whose exception is not caught.  The loop returns when the output
    directory exists or [os.makedirs] can make it. *)

Definition dir_ready (dir : string) (w : world DB) : Prop :=
  path_exists dir w = true \/
  (dir <> "" /\ existsb (fun kv => String.eqb kv.1 dir) (w_files w) = false /\
   blocked_by_file dir w = false).

Lemma ensure_ready dir w :
  dir_ready dir w ->
  exists w', ensure_output_dir dir w = (Ret tt, w') /\ path_exists dir w' = true /\
             w_conn w' = w_conn w /\ w_files w' = w_files w.
Proof.
  unfold ensure_output_dir. intros [Hp|(Hne & Hf & Hb)]; [rewrite Hp; by exists w|].
  destruct (path_exists dir w) eqn:Ep; [by exists w|]. unfold makedirs.
  rewrite (proj2 (String.eqb_neq _ _) Hne), Hf, Hb. eexists. split; [reflexivity|].
  unfold path_exists. cbn. by rewrite (proj2 (String.eqb_neq _ _) Hne), String.eqb_refl.
Qed.

Lemma write_file_exists dir p c : st_preserves (fun w => path_exists dir w = true) (@write_file DB p c).
Proof.
  intros w Hw. unfold write_file. destruct (blocked_by_file p w); [exact Hw|].
  unfold path_exists in *. cbn. apply andb_prop in Hw as [Hn Hw]. rewrite Hn. cbn.
  apply orb_true_iff in Hw as [Hd|Hf]; [by rewrite Hd|].
  by rewrite (existsb_key_dict_set (fun k => String.eqb k dir || String.prefix (dir +:+ "/") k)),
    orb_true_r.
Qed.

Lemma ensure_output_dir_keeps dir w :
  w_conn (snd (@ensure_output_dir DB dir w)) = w_conn w /\
  w_files (snd (@ensure_output_dir DB dir w)) = w_files w.
Proof. unfold ensure_output_dir, makedirs. by repeat case_match. Qed.

Lemma on_pg_ready {A} dir (m : st (conn DB) A) : st_preserves (dir_ready dir) (on_pg m).
Proof. intros w Hw. unfold on_pg. by destruct (m (w_conn w)). Qed.

Lemma export_table_data_total_on db t dir : st_total_on (dir_ready dir) (export_table_data db t dir).
Proof.
  intros w Hw. destruct (ensure_ready dir w Hw) as (w1 & E & Hex & _).
  unfold export_table_data. rewrite (st_bind_run _ _ _ _ _ E).
  match goal with |- exists a w', ?m w1 = _ /\ _ =>
    assert (Hm : st_total_on (fun w => path_exists dir w = true) m) end.
  { apply st_total_on_intro; [auto with mig|].
    repeat first [ apply write_file_exists | apply lift_preserves | preserve_step ]. }
  destruct (Hm w1 Hex) as (a & w2 & E2 & H2). exists a, w2. split; [exact E2|by left].
Qed.

Lemma export_table_data_ready db t dir : st_preserves (dir_ready dir) (export_table_data db t dir).
Proof.
  intros w Hw. destruct (export_table_data_total_on db t dir w Hw) as (a & w' & E & Hw').
  by rewrite E.
Qed.

#[local] Hint Resolve export_table_data_ready : mig.

Lemma steps_total_on dir db t :
  (forall s a b, st_total_on (dir_ready dir) (@attempt DB _ bool s a b)) /\
  (forall f, st_total_on (dir_ready dir) (import_table_data t f)) /\
  st_total_on (dir_ready dir) (migrate_constraints db t) /\
  st_total_on (dir_ready dir) (migrate_indexes db t) /\
  st_total_on (dir_ready dir) (reset_sequences t).
Proof.
  pose proof (fun s => on_pg_ready dir (execute s)) as He.
  pose proof (on_pg_ready dir commit) as Hc. pose proof (on_pg_ready dir rollback) as Hr.
  destruct (migrate_steps_preserve (dir_ready dir) (fun s _ => He s) Hc Hr db t) as (? & ? & ?).
  split_and!; intros; apply st_total_on_intro; auto with mig.
  - unfold attempt, pg_execute, pg_commit, pg_rollback.
    repeat first [apply on_pg_ready | preserve_step].
  - exact (import_table_data_preserves _ (fun s _ => He s) Hc Hr t f).
Qed.

Lemma steps_preserve_ready dir db t :
  st_preserves (dir_ready dir) (migrate_constraints db t) /\
  st_preserves (dir_ready dir) (migrate_indexes db t) /\
  st_preserves (dir_ready dir) (reset_sequences t).
Proof.
  destruct (migrate_steps_preserve (dir_ready dir) (fun s _ => on_pg_ready dir (execute s))
              (on_pg_ready dir commit) (on_pg_ready dir rollback) db t) as (? & ? & ?).
  by split_and!.
Qed.

Lemma process_table_total_on db dir t cols :
  get_table_schema db t = Ret cols -> st_total_on (dir_ready dir) (process_table db dir t).
Proof.
  intros Hs. destruct (steps_total_on dir db t) as (Ha & Hi & Hc & Hx & Hr).
  pose proof (export_table_data_total_on db t dir).
  unfold process_table, create_postgresql_table. rewrite Hs.
  repeat first [ solve [auto with mig] | apply st_bind_total_on; [|intros ?] | progress case_match ].
  all: apply st_total_on_intro; auto with mig.
Qed.

Lemma process_table_raise db dir t e w :
  get_table_schema db t = Raise e -> process_table db dir t w = (Raise e, w).
Proof. intros Hs. unfold process_table, st_bind, lift. by rewrite Hs. Qed.

(** ** What a table leaves behind *)

Lemma attempt_keeps_files {A} s (a b : A) w :
  w_files (snd (attempt s a b w)) = w_files w /\ w_dirs (snd (attempt s a b w)) = w_dirs w.
Proof. rewrite attempt_run. by repeat case_match. Qed.

Lemma ensure_not_ready dir w :
  ~ dir_ready dir w -> exists e, ensure_output_dir dir w = (Raise e, w).
Proof.
  intros Hn. unfold ensure_output_dir. destruct (path_exists dir w) eqn:Ep; [by exfalso; apply Hn; left|].
  unfold makedirs. destruct (String.eqb_spec dir "") as [|Hne]; [eauto|].
  destruct (existsb _ (w_files w)) eqn:Ef; [eauto|].
  destruct (blocked_by_file dir w) eqn:Eb; [eauto|]. exfalso. apply Hn. by right.
Qed.

Lemma dir_ready_same dir w w' :
  w_files w' = w_files w -> w_dirs w' = w_dirs w -> dir_ready dir w -> dir_ready dir w'.
Proof. unfold dir_ready, path_exists, blocked_by_file. by intros -> ->. Qed.

(** A table reported migrated went through [reset_sequences] last. *)
Lemma process_table_true_reset db dir t w w1 :
  process_table db dir t w = (Ret true, w1) -> exists w0 b, reset_sequences t w0 = (Ret b, w1).
Proof.
  unfold process_table. intros Hrun.
  apply st_bind_ret_inv in Hrun as (cols & w2 & _ & Hrun).
  apply st_bind_ret_inv in Hrun as ([] & w3 & _ & Hrun); [|discriminate].
  apply st_bind_ret_inv in Hrun as ([csv|] & w4 & _ & Hrun); [|discriminate].
  apply st_bind_ret_inv in Hrun as ([] & w5 & _ & Hrun); [|discriminate].
  apply st_bind_ret_inv in Hrun as (_ & w6 & _ & Hrun).
  apply st_bind_ret_inv in Hrun as (_ & w7 & _ & Hrun).
  apply st_bind_ret_inv in Hrun as (b & w8 & Hr & Hrun). injection Hrun as <-. eauto.
Qed.

(** A table processed on an aborted transaction fails at its [CREATE TABLE]. *)
Lemma process_table_aborted_fails db dir t cols w :
  aborted (w_conn w) = true -> get_table_schema db t = Ret cols ->
  fst (process_table db dir t w) = Ret false.
Proof.
  intros Ha Hs. unfold process_table, st_bind at 1, lift. rewrite Hs.
  unfold st_bind, create_postgresql_table.
  destruct (attempt_aborted (create_table_stmt t cols) true false w Ha) as (Hr & _).
  destruct (attempt _ true false w) as [r w1]. cbn in Hr |- *. by subst r.
Qed.

(** The tables of [ts] whose bit in [oks] is [b], in order. *)
Definition select (b : bool) (oks : list bool) (ts : list string) : list string :=
  map fst (List.filter (fun p => Bool.eqb p.2 b) (combine ts oks)).

Lemma select_cons b ok oks t ts :
  select b (ok :: oks) (t :: ts) =
  if Bool.eqb ok b then t :: select b oks ts else select b oks ts.
Proof. unfold select. cbn. by destruct (Bool.eqb ok b). Qed.

Lemma select_partition oks ts :
  length oks = length ts -> Permutation (select true oks ts ++ select false oks ts)%list ts.
Proof.
  revert oks. induction ts as [|t ts IH]; intros [|ok oks] Hl; try done.
  rewrite !select_cons. simpl in Hl.
  destruct ok; cbn [Bool.eqb]; simpl.
  - constructor. apply IH. lia.
  - rewrite <- Permutation_middle. constructor. apply IH. lia.
Qed.

(** ** Properties of the loop *)

(** C18: the loop returns when every schema query of the tables
    returns and the output directory exists or [os.makedirs] can make
    it: each other step of a table catches its exceptions, and once the
    directory exists [os.makedirs] is not called again.  The directory
    stays ready, so the run can go on. *)
Theorem migrate_tables_total db dir ts s f :
  Forall (fun t => exists cols, get_table_schema db t = Ret cols) ts ->
  st_total_on (dir_ready dir) (migrate_tables db dir ts s f).
Proof.
  revert s f. induction ts as [|t ts IH]; intros s f Hts; cbn [migrate_tables].
  - apply st_total_on_intro; auto with mig.
  - inversion Hts as [|? ? [cols Hc] Hts']; subst.
    apply st_bind_total_on; [exact (process_table_total_on db dir t cols Hc)|].
    intros []; auto.
Qed.

Lemma partition_perm s f oks ts :
  length oks = length ts ->
  Permutation ((s ++ select true oks ts) ++ (f ++ select false oks ts))%list (s ++ f ++ ts)%list.
Proof.
  intros Hl. etrans; [|do 2 apply Permutation_app_head; exact (select_partition oks ts Hl)].
  solve_Permutation.
Qed.

Lemma migrate_tables_select db dir ts s f w s' f' w' :
  migrate_tables db dir ts s f w = (Ret (s', f'), w') ->
  exists oks, length oks = length ts /\
    s' = (s ++ select true oks ts)%list /\ f' = (f ++ select false oks ts)%list.
Proof.
  revert s f w. induction ts as [|t ts IH]; intros s f w Hrun.
  - cbn in Hrun. injection Hrun as -> -> _. exists []. rewrite !app_nil_r. auto.
  - cbn [migrate_tables] in Hrun. apply st_bind_ret_inv in Hrun as (ok & w1 & _ & Hrun).
    destruct ok; apply IH in Hrun as (oks & Hl & -> & ->);
      [exists (true :: oks)|exists (false :: oks)];
      rewrite !select_cons; cbn; rewrite <- ?app_assoc; auto.
Qed.

(** C2: the lists of tables migrated and failed partition the tables
    processed: each table lands in exactly one of them, and each list
    keeps the order of [tables]. *)
Theorem migrate_tables_partition db dir ts s f w s' f' w' :
  migrate_tables db dir ts s f w = (Ret (s', f'), w') ->
  exists oks, length oks = length ts /\
    s' = (s ++ select true oks ts)%list /\ f' = (f ++ select false oks ts)%list /\
    Permutation (s' ++ f')%list (s ++ f ++ ts)%list.
Proof.
  intros Hrun. destruct (migrate_tables_select _ _ _ _ _ _ _ _ _ Hrun) as (oks & Hl & -> & ->).
  exists oks. repeat split; auto using partition_perm.
Qed.


(** ** The files a run leaves alone *)

Definition keeps (p : string) {A} (m : st (world DB) A) : Prop :=
  forall w, dict_find p (w_files (snd (m w))) = dict_find p (w_files w).

Lemma keeps_migrate_tables db dir ts s f : keeps report_file (migrate_tables db dir ts s f).
Proof.
  intros w. apply (migrate_tables_preserves (fun w' => dict_find report_file (w_files w') =
                                                      dict_find report_file (w_files w)));
    [| | | | |reflexivity].
  - intros s' _ w' Hw. rewrite <- Hw. unfold pg_execute, on_pg. by destruct (execute _ _).
  - intros w' Hw. exact Hw.
  - intros w' Hw. exact Hw.
  - intros dir' t' c w' Hw. rewrite <- Hw. unfold write_file. case_match; [done|].
    apply dict_find_set_ne, not_eq_sym, export_path_not_report.
  - intros dir' w' Hw. by rewrite (proj2 (ensure_output_dir_keeps dir' w')).
Qed.

(** ** The log only grows *)

Definition log_extends (L0 : list event) (w : world DB) : Prop :=
  exists L, log (w_conn w) = (L ++ L0)%list.

Lemma log_extends_hyps L0 :
  (forall s, st_preserves (log_extends L0) (pg_execute s)) /\
  st_preserves (log_extends L0) (@pg_commit DB) /\
  st_preserves (log_extends L0) (@pg_rollback DB) /\
  (forall dir t c, st_preserves (log_extends L0) (@write_file DB (path_join dir (t +:+ ".csv")) c)) /\
  (forall dir, st_preserves (log_extends L0) (@ensure_output_dir DB dir)).
Proof.
  repeat split; intros *; intros w [L HL]; unfold pg_execute, pg_commit, pg_rollback, on_pg.
  - destruct (execute_log s (w_conn w)) as [b Hb].
    destruct (execute s (w_conn w)) as [r c] eqn:E. cbn in Hb |- *.
    exists (EvExec s b :: L). cbn. by rewrite Hb, HL.
  - exists (EvCommit :: L). cbn. by rewrite HL.
  - exists (EvRollback :: L). cbn. by rewrite HL.
  - unfold write_file. case_match; by exists L.
  - exists L. by rewrite (proj1 (ensure_output_dir_keeps dir w)).
Qed.

(** What [process_table] sends first, once the schema is read, is its
    [CREATE TABLE]; everything after only adds to the log. *)
Lemma process_table_creates_first db dir t cols w :
  get_table_schema db t = Ret cols ->
  exists L b, log (w_conn (snd (process_table db dir t w))) =
              (L ++ [EvExec (create_table_stmt t cols) b] ++ log (w_conn w))%list.
Proof.
  intros Hs. unfold process_table. rewrite (st_bind_run _ _ w cols w) by (unfold lift; by rewrite Hs).
  unfold create_postgresql_table. set (c := create_table_stmt t cols).
  assert (Ha : exists L0 b, log (w_conn (snd (attempt c true false w))) =
                            (L0 ++ [EvExec c b] ++ log (w_conn w))%list).
  { rewrite attempt_run. destruct (aborted _); [|destruct (pg_apply c _) as [[]|]];
      cbn; eexists [_], _; reflexivity. }
  destruct Ha as (L0 & b & Ha).
  destruct (log_extends_hyps (EvExec c b :: log (w_conn w))) as (He & Hc & Hr & Hw & Hd).
  pose proof (fun s (_ : table_stmt s = true) => He s) as He'.
  destruct (attempt c true false w) as [[created|e] w1] eqn:E; cbn in Ha;
    [|unfold st_bind; rewrite E; by exists L0, b].
  rewrite (st_bind_run _ _ w created w1 E).
  match goal with |- context [snd (?k w1)] =>
    assert (Hk : st_preserves (log_extends (EvExec c b :: log (w_conn w))) k) end.
  { pose proof (migrate_steps_preserve _ He' Hc Hr db t) as (? & ? & ?).
    repeat first [ apply export_table_data_preserves; assumption
                 | apply import_table_data_preserves; assumption | preserve_step ]. }
  destruct (Hk w1 (ex_intro _ L0 Ha)) as [L HL]. by exists L, b.
Qed.

(** The statements a log records as sent, most recent first. *)
Definition executed (l : list event) : list pg_stmt :=
  flat_map (fun e => match e with EvExec s _ => [s] | _ => [] end) l.

Lemma executed_app l1 l2 : executed (l1 ++ l2)%list = (executed l1 ++ executed l2)%list.
Proof. apply flat_map_app. Qed.

(** The log extends [L0] with events whose statements all satisfy [Q]. *)
Definition log_extends_with (Q : pg_stmt -> Prop) (L0 : list event) (w : world DB) : Prop :=
  exists L, log (w_conn w) = (L ++ L0)%list /\ forall s b, In (EvExec s b) L -> Q s.

Lemma extends_with_execute Q L0 s : Q s -> st_preserves (log_extends_with Q L0) (pg_execute s).
Proof.
  intros Hs w (L & HL & HQ). unfold pg_execute, on_pg.
  destruct (execute_log s (w_conn w)) as [b Hb].
  destruct (execute s (w_conn w)) as [r c] eqn:E. cbn in Hb |- *.
  exists (EvExec s b :: L). cbn. rewrite Hb, HL. split; [reflexivity|].
  intros s' b' [[= -> _]|Hin]; eauto.
Qed.

Lemma extends_with_commit Q L0 : st_preserves (log_extends_with Q L0) (@pg_commit DB).
Proof.
  intros w (L & HL & HQ). exists (EvCommit :: L). cbn. rewrite HL.
  split; [done|]. intros s b [?|?]; [discriminate|eauto].
Qed.

Lemma extends_with_rollback Q L0 : st_preserves (log_extends_with Q L0) (@pg_rollback DB).
Proof.
  intros w (L & HL & HQ). exists (EvRollback :: L). cbn. rewrite HL.
  split; [done|]. intros s b [?|?]; [discriminate|eauto].
Qed.

Lemma extends_with_close Q L0 : st_preserves (log_extends_with Q L0) (@pg_close DB).
Proof.
  intros w (L & HL & HQ). exists (EvClose :: L). cbn. rewrite HL.
  split; [done|]. intros s b [?|?]; [discriminate|eauto].
Qed.

Lemma extends_with_write Q L0 f c : st_preserves (log_extends_with Q L0) (@write_file DB f c).
Proof. intros w Hw. unfold write_file. by case_match. Qed.

Lemma extends_with_start Q w : log_extends_with Q (log (w_conn w)) w.
Proof. exists []. split; [done|]. intros ? ? []. Qed.

Lemma extends_with_ensure Q L0 dir : st_preserves (log_extends_with Q L0) (@ensure_output_dir DB dir).
Proof. intros w Hw. unfold log_extends_with. by rewrite (proj1 (ensure_output_dir_keeps dir w)). Qed.

(** The table loop sends no foreign key. *)
Lemma migrate_tables_table_stmts db dir ts s f L0 :
  st_preserves (log_extends_with (fun s => table_stmt s = true) L0) (migrate_tables db dir ts s f).
Proof.
  apply migrate_tables_preserves.
  - intros s' Hs. by apply extends_with_execute.
  - apply extends_with_commit.
  - apply extends_with_rollback.
  - intros. apply extends_with_write.
  - intros. apply extends_with_ensure.
Qed.

Lemma attempt_each_extends Q L0 ss :
  Forall Q ss -> st_preserves (log_extends_with Q L0) (attempt_each ss).
Proof.
  induction 1 as [|s ss Hs _ IH]; cbn [attempt_each]; unfold attempt;
    repeat first [ exact IH | apply extends_with_execute, Hs | apply extends_with_commit
                 | apply extends_with_rollback | preserve_step ].
Qed.

(** The statements of the foreign-key pass: one per constraint that
    [get_foreign_keys] returns. *)
Definition fk_statements (db : mysql) (database_name : string) : list pg_stmt :=
  match get_foreign_keys db database_name with
  | Ret fks => map (fun p => fk_stmt p.1 p.2) fks
  | Raise _ => []
  end.

Lemma migrate_foreign_keys_extends db n L0 :
  st_preserves (log_extends_with (fun s => In s (fk_statements db n)) L0) (migrate_foreign_keys db n).
Proof.
  intros w Hw. unfold migrate_foreign_keys. rewrite catch_lift. unfold fk_statements in *.
  destruct (get_foreign_keys db n) as [fks|e]; [|exact Hw].
  revert w Hw. apply st_catch_preserves; [|intros; apply st_ret_preserves].
  apply st_bind_preserves; [|intros; apply st_ret_preserves].
  apply attempt_each_extends, List.Forall_forall. done.
Qed.

(** The tables [main] migrates: [--tables] when given and non-empty,
    else those of [get_tables] (none when that query raises, and then
    [main] stops). *)
Definition chosen_tables (db : mysql) (args_tables : option (list string)) : list string :=
  match args_tables with
  | Some ((_ :: _) as ts) => ts
  | _ => match get_tables db with Ret ts => ts | Raise _ => [] end
  end.

(** C19: every table of the list is reached: when the schema of each
    table can be read, the loop sends the [CREATE TABLE] of every table,
    in the order of the list, whatever happened to the tables before
    it. *)
Theorem migrate_tables_creates_all db dir ts s f w (schema : string -> list column_row) :
  (forall t, In t ts -> get_table_schema db t = Ret (schema t)) -> dir_ready dir w ->
  exists L, log (w_conn (snd (migrate_tables db dir ts s f w))) = (L ++ log (w_conn w))%list /\
    map (fun t => create_table_stmt t (schema t)) ts `sublist_of` rev (executed L).
Proof.
  revert s f w. induction ts as [|t ts IH]; intros s f w Hs Hd.
  - exists []. split; [reflexivity|constructor].
  - assert (Ht : get_table_schema db t = Ret (schema t)) by (apply Hs; left; done).
    destruct (process_table_creates_first db dir t (schema t) w Ht) as (L1 & b & H1).
    destruct (process_table_total_on db dir t (schema t) Ht w Hd) as (ok & w1 & E & Hd1).
    rewrite E in H1. cbn [snd] in H1. cbn [migrate_tables map].
    rewrite (st_bind_run _ _ w ok w1 E).
    destruct (IH (if ok then (s ++ [t])%list else s) (if ok then f else (f ++ [t])%list) w1)
      as (L & HL & Hsub); [intros t' Ht'; apply Hs; right; exact Ht'|exact Hd1|].
    exists (L ++ L1 ++ [EvExec (create_table_stmt t (schema t)) b])%list. split.
    + destruct ok; rewrite HL, H1, <- !app_assoc; reflexivity.
    + rewrite !executed_app, !rev_app_distr. cbn.
      apply sublist_skip, sublist_inserts_l. destruct ok; exact Hsub.
Qed.

Lemma migrate_tables_crash db dir pre t post e :
  Forall (fun t => exists cols, get_table_schema db t = Ret cols) pre ->
  get_table_schema db t = Raise e ->
  forall s f w, dir_ready dir w -> fst (migrate_tables db dir (pre ++ t :: post) s f w) = Raise e.
Proof.
  intros Hpre Ht. induction Hpre as [|t' pre [cols Hc] _ IH]; intros s f w Hd;
    cbn [app migrate_tables]; unfold st_bind at 1.
  - by rewrite (process_table_raise db dir t e w Ht).
  - destruct (process_table_total_on db dir t' cols Hc w Hd) as ([] & w1 & -> & Hd1); by apply IH.
Qed.

(** ** Properties of [main] *)

(** C7: a schema query that raises (a quote in a table name given with
    [--tables], a lost MySQL connection) is not caught: the run stops
    with the exception at that table, the later tables are not
    processed, and nothing runs after the table loop: the world [main]
    leaves is the one the loop left, so the foreign-key pass sends
    nothing, the connection is not closed, and no report is written. *)
Theorem main_crash db mysql_db dir pre t post t0 t1 d w e :
  Forall (fun t => exists cols, get_table_schema db t = Ret cols) pre ->
  get_table_schema db t = Raise e -> dir_ready dir w ->
  let r := main (Some db) true mysql_db dir (Some (pre ++ t :: post)%list) t0 t1 d w in
  fst r = Raise e /\ snd r = snd (migrate_tables db dir (pre ++ t :: post) [] [] w) /\
  dict_find report_file (w_files (snd r)) = dict_find report_file (w_files w).
Proof.
  intros Hpre Ht Hd. cbv zeta. unfold main.
  pose proof (migrate_tables_crash db dir pre t post e Hpre Ht [] [] w Hd) as Hc.
  pose proof (keeps_migrate_tables db dir (pre ++ t :: post)%list [] [] w) as Hk.
  assert (Hx : exists x xs, (pre ++ t :: post)%list = x :: xs) by (destruct pre; eauto).
  destruct Hx as (x & xs & Hx). rewrite Hx in Hc, Hk |- *.
  unfold st_bind. cbn [negb st_ret].
  destruct (migrate_tables db dir (x :: xs) [] [] w) as [[res|e'] w1]; cbn in Hc, Hk |- *;
    [discriminate|]. split_and!; congruence.
Qed.

(** C39: a run that returns writes the report for the tables it was
    given, with the lists of tables migrated and failed that the table
    loop returned; they partition the tables. *)
Theorem main_report db mysql_db dir ts t0 t1 d w w' :
  ts <> [] ->
  main (Some db) true mysql_db dir (Some ts) t0 t1 d w = (Ret tt, w') ->
  exists s f w1, migrate_tables db dir ts [] [] w = (Ret (s, f), w1) /\
    dict_find report_file (w_files w') = Some (report_text t0 t1 d ts s f) /\
    Permutation (s ++ f)%list ts.
Proof.
  intros Hne Hrun. destruct ts as [|x xs]; [done|]. unfold main in Hrun. cbn [negb] in Hrun.
  apply st_bind_ret_inv in Hrun as (ts & w1 & [= <- <-] & Hrun).
  apply st_bind_ret_inv in Hrun as ([s f] & w2 & Hm & Hrun).
  apply st_bind_ret_inv in Hrun as (_ & w3 & _ & Hrun).
  apply st_bind_ret_inv in Hrun as ([] & w4 & Hw & Hrun).
  unfold write_file in Hw. destruct (blocked_by_file _ _); [discriminate|]. injection Hw as Hw4.
  subst w4. cbn in Hrun. injection Hrun as <-. exists s, f, w2. split_and!; [exact Hm|apply dict_find_set_eq|].
  destruct (migrate_tables_select _ _ _ _ _ _ _ _ _ Hm) as (oks & Hl & -> & ->).
  exact (partition_perm [] [] oks (x :: xs) Hl).
Qed.

(** C4: a table processed while the transaction is aborted (as
    [reset_sequences] leaves it when it fails) is lost: its [CREATE
    TABLE] fails without running, is rolled back, and the table goes
    to the failed list; the rollback cleans the connection, so only
    that one table is affected. *)
Theorem process_table_after_abort db dir t cols w :
  aborted (w_conn w) = true -> get_table_schema db t = Ret cols ->
  let r := process_table db dir t w in
  fst r = Ret false /\ clean (w_conn (snd r)) /\
  committed (w_conn (snd r)) = committed (w_conn w) /\ w_files (snd r) = w_files w.
Proof.
  intros Ha Hs. cbv zeta. unfold process_table, st_bind at 1, lift. rewrite Hs.
  unfold st_bind, create_postgresql_table.
  destruct (attempt_aborted (create_table_stmt t cols) true false w Ha) as (Hr & Hc & Hd & Hf).
  destruct (attempt _ true false w) as [r w1]. cbn in Hr, Hc, Hd, Hf |- *. by subst r.
Qed.

(** C3: the foreign keys come last: whatever fails, the statements
    [main] sends split into two segments of its log.  The table loop
    over the chosen tables comes first and sends no foreign key; after
    it, [main] sends only statements of the foreign-key pass (with
    commits and rollbacks).  So no foreign key is sent before every
    table has been processed. *)
Theorem main_foreign_keys_last db mysql_db dir args t0 t1 d w :
  exists L Lt,
    log (w_conn (snd (main (Some db) true mysql_db dir args t0 t1 d w))) =
      (L ++ log (w_conn (snd (migrate_tables db dir (chosen_tables db args) [] [] w))))%list /\
    log (w_conn (snd (migrate_tables db dir (chosen_tables db args) [] [] w))) =
      (Lt ++ log (w_conn w))%list /\
    (forall s b, In (EvExec s b) L -> In s (fk_statements db mysql_db)) /\
    (forall s b, In (EvExec s b) Lt -> table_stmt s = true).
Proof.
  destruct (migrate_tables_table_stmts db dir (chosen_tables db args) [] [] (log (w_conn w)) w
              (extends_with_start _ w)) as (Lt & HLt & Ht).
  enough (exists L,
    log (w_conn (snd (main (Some db) true mysql_db dir args t0 t1 d w))) =
      (L ++ log (w_conn (snd (migrate_tables db dir (chosen_tables db args) [] [] w))))%list /\
    forall s b, In (EvExec s b) L -> In s (fk_statements db mysql_db)) as (L & HL & HQ)
    by (exists L, Lt; auto).
  unfold main, chosen_tables. cbn [negb].
  set (Q := fun s => In s (fk_statements db mysql_db)).
  assert (Hrest : forall ts w (K : list string * list string -> st (world DB) unit),
    (forall r L0, st_preserves (log_extends_with Q L0) (K r)) ->
    exists L, log (w_conn (snd (st_bind (migrate_tables db dir ts [] []) K w))) =
      (L ++ log (w_conn (snd (migrate_tables db dir ts [] [] w))))%list /\
    forall s b, In (EvExec s b) L -> Q s).
  { intros ts w0 K HK. destruct (migrate_tables db dir ts [] [] w0) as [[res|e] w1] eqn:E.
    - rewrite (st_bind_run _ _ _ _ _ E). exact (HK res _ w1 (extends_with_start _ w1)).
    - unfold st_bind. rewrite E. exists []. split; [done|]. intros ? ? []. }
  destruct args as [[|t ts]|];
    try (unfold st_bind at 1, lift; destruct (get_tables db) as [ts'|e];
         [|exists []; split; [done|intros ? ? []]]);
    (apply Hrest; intros r L0;
     apply st_bind_preserves; [apply migrate_foreign_keys_extends|intros ?];
     apply st_bind_preserves; [apply extends_with_write|intros ?; apply extends_with_close]).
Qed.

(** C6: the failure of [reset_sequences] reaches the next table.  When
    the query for the serial columns of [t] fails (a statement timeout,
    a lost privilege), a run in which [t] is processed to the end
    records [t] as migrated, and then processes the next table [t'] on
    the transaction [reset_sequences] left aborted: [t'] fails at its
    [CREATE TABLE], whatever its own data, and the loop goes on with
    [t'] in the failed list. *)
Theorem reset_failure_loses_next_table db dir t t' rest s f w w1 cols' :
  (forall d, succeeds (serial_columns_stmt t) d = false) ->
  process_table db dir t w = (Ret true, w1) -> get_table_schema db t' = Ret cols' ->
  fst (process_table db dir t' w1) = Ret false /\
  migrate_tables db dir (t :: t' :: rest) s f w =
  migrate_tables db dir rest (s ++ [t]) (f ++ [t']) (snd (process_table db dir t' w1)).
Proof.
  intros Hq Ht Hs'.
  destruct (process_table_true_reset _ _ _ _ _ Ht) as (w0 & b & Hr).
  assert (Ha : aborted (w_conn w1) = true).
  { change w1 with (snd (Ret b, w1)). rewrite <- Hr. clear Hr.
    pose proof (Hq (working (w_conn w0))) as Hs.
    unfold reset_sequences, st_catch, st_bind, pg_execute, on_pg, execute, succeeds in *.
    destruct (aborted (w_conn w0)); [done|]. destruct (pg_apply _ _) as [[]|e]; done. }
  pose proof (process_table_aborted_fails db dir t' cols' w1 Ha Hs') as Hf.
  split; [exact Hf|]. cbn [migrate_tables]. rewrite (st_bind_run _ _ _ _ _ Ht).
  destruct (process_table db dir t' w1) as [r w2] eqn:E. cbn in Hf. subst r.
  by rewrite (st_bind_run _ _ _ _ _ E).
Qed.

(** C8: [os.makedirs] runs before the [try] of [export_table_data]
    (lines 151-152), so its exception ends the run.  When the output
    directory neither exists nor can be made (a file stands in its
    path, or it is empty), the first table is created and committed,
    then [main] stops with the exception: the world is the one right
    after that [CREATE TABLE], so no later table is processed, the
    foreign-key pass does not run and no report is written. *)
Theorem makedirs_failure_crashes db mysql_db dir t rest t0 t1 d cols w w1 :
  get_table_schema db t = Ret cols -> create_postgresql_table t cols w = (Ret true, w1) ->
  ~ dir_ready dir w ->
  let r := main (Some db) true mysql_db dir (Some (t :: rest)) t0 t1 d w in
  (exists e, fst r = Raise e) /\ snd r = w1 /\ w_files (snd r) = w_files w.
Proof.
  intros Hs Hc Hn. cbv zeta.
  destruct (attempt_keeps_files (create_table_stmt t cols) true false w) as [Hf Hd].
  unfold create_postgresql_table in Hc. rewrite Hc in Hf, Hd. cbn in Hf, Hd.
  destruct (ensure_not_ready dir w1) as [e He].
  { intros Hr. apply Hn. exact (dir_ready_same dir w1 w (eq_sym Hf) (eq_sym Hd) Hr). }
  assert (Hp : process_table db dir t w = (Raise e, w1)).
  { unfold process_table, st_bind at 1, lift. rewrite Hs.
    unfold create_postgresql_table. rewrite (st_bind_run _ _ _ _ _ Hc). cbn [negb].
    unfold export_table_data, st_bind at 1 2. by rewrite He. }
  assert (Hm : migrate_tables db dir (t :: rest) [] [] w = (Raise e, w1)).
  { cbn [migrate_tables]. exact (st_bind_raise _ _ _ _ _ Hp). }
  unfold main. cbn [negb]. rewrite st_bind_ret, (st_bind_raise _ _ _ _ _ Hm).
  split_and!; [by exists e|reflexivity|exact Hf].
Qed.
End Main.

(** ** Concrete runs *)

(** Three MySQL tables with an integer key and rows. *)
Definition three_tables : mysql :=
  mkMysql [mkTable "a" [(1, mkColumn "id" "int" None "NO" None)] [(1, "id")] [] [[PyInt 1]; [PyInt 2]];
           mkTable "b" [(1, mkColumn "id" "int" None "NO" None)] [(1, "id")] [] [[PyInt 3]];
           mkTable "Users" [(1, mkColumn "id" "int" None "NO" None)] [] [] [[PyInt 3]]]
    [] (fun _ => false).

Definition empty_world : world PgSimple.pgdb :=
  mkWorld (mkConn PgSimple.empty_db PgSimple.empty_db false []) [] [].

(** ** Witnesses *)

(** The directory [out] does not exist yet and [os.makedirs] makes it. *)
Lemma out_ready : @dir_ready PgSimple.pgdb "out" empty_world.
Proof. right. split; [discriminate|split; reflexivity]. Qed.

Lemma migrate_tables_total_witness :
  exists a w', @migrate_tables _ PgSimple.pg_simple three_tables "out" ["a"; "b"] [] [] empty_world =
               (Ret a, w') /\ dir_ready "out" w'.
Proof.
  apply (@migrate_tables_total _ PgSimple.pg_simple); [|exact out_ready].
  repeat constructor; eexists; reflexivity.
Defined.

(** On a server where the query for the serial columns times out, table
    [b], which migrates on its own, is lost because it follows [a]. *)
Lemma reset_failure_loses_next_table_witness :
  fst (@migrate_tables _ PgSimple.pg_simple three_tables "out" ["a"; "b"] [] [] empty_world) =
    Ret (["a"; "b"], []) /\
  fst (@process_table _ serial_timeout_engine three_tables "out" "b"
         (snd (@process_table _ serial_timeout_engine three_tables "out" "a" empty_world))) = Ret false /\
  @migrate_tables _ serial_timeout_engine three_tables "out" ["a"; "b"] [] [] empty_world =
  @migrate_tables _ serial_timeout_engine three_tables "out" [] ["a"] ["b"]
    (snd (@process_table _ serial_timeout_engine three_tables "out" "b"
            (snd (@process_table _ serial_timeout_engine three_tables "out" "a" empty_world)))).
Proof.
  split; [vm_compute; reflexivity|].
  apply (@reset_failure_loses_next_table _ serial_timeout_engine three_tables "out" "a" "b" [] [] []
           empty_world _ [mkColumn "id" "int" None "NO" None]); [intros; reflexivity| |reflexivity].
  vm_compute. reflexivity.
Defined.

(** A world where the file [backup] already exists. *)
Definition backup_world : world PgSimple.pgdb :=
  mkWorld (mkConn PgSimple.empty_db PgSimple.empty_db false []) [("backup", "")] [].

(** With the output directory [backup/csv] below the file [backup],
    table [a] is created and committed, then the run stops with
    [NotADirectoryError]. *)
Lemma makedirs_failure_crashes_witness :
  let r := @main _ PgSimple.pg_simple (Some three_tables) true "shop" "backup/csv" (Some ["a"; "b"])
             "t0" "t1" "d" backup_world in
  fst r = Raise "NotADirectoryError" /\
  ((exists e, fst r = Raise e) /\
   snd r = snd (@create_postgresql_table _ PgSimple.pg_simple "a" [mkColumn "id" "int" None "NO" None]
                  backup_world) /\
   w_files (snd r) = w_files backup_world).
Proof.
  split; [vm_compute; reflexivity|].
  apply (@makedirs_failure_crashes _ PgSimple.pg_simple three_tables "shop" "backup/csv" "a" ["b"]
           "t0" "t1" "d" [mkColumn "id" "int" None "NO" None]);
    [reflexivity|vm_compute; reflexivity|].
  intros [H|(_ & _ & H)]; vm_compute in H; discriminate.
Defined.

Lemma migrate_tables_partition_witness :
  exists oks, length oks = 2 /\ ["a"] = ([] ++ select true oks ["a"; "b"])%list /\
    ["b"] = ([] ++ select false oks ["a"; "b"])%list /\
    Permutation (["a"] ++ ["b"])%list ([] ++ [] ++ ["a"; "b"])%list.
Proof.
  apply (@migrate_tables_partition _ serial_timeout_engine three_tables "out" ["a"; "b"] [] [] empty_world ["a"] ["b"]
           (snd (@migrate_tables _ serial_timeout_engine three_tables "out" ["a"; "b"] [] [] empty_world))).
  vm_compute. reflexivity.
Defined.

Lemma main_crash_witness :
  let r := @main _ PgSimple.pg_simple (Some three_tables) true "shop" "out"
             (Some (["a"] ++ ["o'brien"])%list) "t0" "t1" "d" empty_world in
  fst r = Raise err_syntax /\
  snd r = snd (@migrate_tables _ PgSimple.pg_simple three_tables "out" (["a"] ++ ["o'brien"])%list
                 [] [] empty_world) /\
  dict_find report_file (w_files (snd r)) = None.
Proof.
  apply (@main_crash _ PgSimple.pg_simple three_tables "shop" "out" ["a"] "o'brien" []).
  - repeat constructor. eexists. reflexivity.
  - reflexivity.
  - exact out_ready.
Defined.

Lemma main_report_witness :
  exists s f w1,
    @migrate_tables _ PgSimple.pg_simple three_tables "out" ["a"; "Users"] [] [] empty_world =
      (Ret (s, f), w1) /\
    dict_find report_file (w_files (snd (@main _ PgSimple.pg_simple (Some three_tables) true "shop" "out"
                                          (Some ["a"; "Users"]) "t0" "t1" "d" empty_world))) =
      Some (report_text "t0" "t1" "d" ["a"; "Users"] s f) /\
    Permutation (s ++ f)%list ["a"; "Users"].
Proof.
  apply (@main_report _ PgSimple.pg_simple three_tables "shop" "out" ["a"; "Users"] "t0" "t1" "d"
           empty_world); [discriminate|].
  vm_compute. reflexivity.
Defined.

Lemma process_table_after_abort_witness :
  let w := mkWorld (mkConn PgSimple.empty_db PgSimple.empty_db true []) [] [] in
  let r := @process_table _ PgSimple.pg_simple three_tables "out" "b" w in
  fst r = Ret false /\ clean (w_conn (snd r)) /\
  committed (w_conn (snd r)) = committed (w_conn w) /\ w_files (snd r) = w_files w.
Proof.
  apply (@process_table_after_abort _ PgSimple.pg_simple three_tables "out" "b"
           [mkColumn "id" "int" None "NO" None]); reflexivity.
Defined.

Lemma migrate_tables_creates_all_witness :
  exists L,
    log (w_conn (snd (@migrate_tables _ PgSimple.pg_simple three_tables "out" ["a"; "b"] [] []
                        empty_world))) = (L ++ log (w_conn empty_world))%list /\
    map (fun t => create_table_stmt t [mkColumn "id" "int" None "NO" None]) ["a"; "b"]
      `sublist_of` rev (executed L).
Proof.
  apply (@migrate_tables_creates_all _ PgSimple.pg_simple three_tables "out" ["a"; "b"] [] []
           empty_world (fun _ => [mkColumn "id" "int" None "NO" None])).
  - intros t [<-|[<-|[]]]; reflexivity.
  - exact out_ready.
Defined.

End Orchestrator.
