(* ===== verification/Copy.v ===== *)
(** * Copy: what [COPY ... WITH CSV HEADER] reads from the exported file

    [import_table_data] first sends the file that [export_table_data]
    wrote, through universal newlines, to PostgreSQL's [COPY] (lines
    208-214).  This file composes the writer of [Csv] with the [COPY]
    parser of [PgSimple] and proves the round trip: [COPY] reads every
    data row of the file in order, each field as [copy_value] of the
    value written.  [COPY] reads an unquoted empty field as [NULL] and a
    quoted one as the empty string, while Python's writer quotes an
    empty field only when it is the whole row.  So an empty string
    becomes [NULL], and a [NULL] in a one-column table becomes the empty
    string.

    The composition with the concrete engine is [import_loads_export].
    The header line of the file gives the column list, the [COPY]
    statement resolves the quoted names, and the rows it reads are
    appended and committed, so [import_table_data] returns [True] from
    its bulk path. *)

From S2P Require Import Prelude Hex Csv Catalog Ddl PgConn PgSimple Transfer Orchestrator.

Module Copy.
Import Csv Catalog Ddl PgConn PgSimple Transfer Orchestrator.
Local Open Scope mig_scope.

(** What [COPY] stores for a field written by [csv.writer] in a row of
    several fields. *)
Definition copy_value (f : option string) : option string :=
  if String.eqb (field_text f) "" then None else Some (field_text f).

(** What [COPY] stores for a row written by [csv.writer]. *)
Definition copy_read_row (r : list (option string)) : list (option string) :=
  match r with
  | [] => [None]
  | [f] => if String.eqb (field_text f) "" then [Some ""] else [copy_value f]
  | _ => map copy_value r
  end.

Definition cinit (out : list (list (option string))) : cparser :=
  mkCParser CFieldStart "" false [] out.

(** ** Lemmas on the [COPY] parser *)

Lemma crun_app s1 s2 p : crun (s1 +:+ s2) p = crun s2 (crun s1 p).
Proof. revert p. induction s1 as [|c s1 IH]; intros p; [done|]. exact (IH _). Qed.

Lemma cstep_plain p c st :
  plain c -> cst p = st -> (st = CFieldStart \/ st = CUnquoted) -> cstep p c = cadd p c CUnquoted.
Proof.
  intros (Hq & Hc & Hn) <- Hst. unfold cstep.
  destruct Hst as [-> | ->]; decide_chars; reflexivity.
Qed.

Lemma crun_plain s p :
  cst p = CUnquoted -> has_char comma s = false -> has_char dquote s = false ->
  has_char newline s = false ->
  crun s p = mkCParser CUnquoted (cfield p +:+ s) (cquoted p) (crow p) (cout p).
Proof.
  revert p. induction s as [|c s IH]; intros p Hp Hc Hq Hn.
  - destruct p; simpl in *; subst. by rewrite append_nil_r.
  - apply has_char_cons in Hc as [Hc1 Hc2], Hq as [Hq1 Hq2], Hn as [Hn1 Hn2].
    cbn [crun]. rewrite (cstep_plain p c CUnquoted); [|split_and!; congruence|done|auto].
    rewrite IH by done. unfold cadd; simpl. by rewrite append_assoc.
Qed.

Lemma crun_double_quotes s p :
  cst p = CQuoted -> cquoted p = true ->
  crun (double_quotes s) p = mkCParser CQuoted (cfield p +:+ s) (cquoted p) (crow p) (cout p).
Proof.
  revert p. induction s as [|c s IH]; intros p Hp Hq.
  - destruct p; simpl in *; subst. by rewrite append_nil_r.
  - cbn [double_quotes]. destruct (ascii_dec c dquote) as [->|Hc].
    + cbn [crun]. unfold cstep at 2. rewrite Hp. decide_chars.
      unfold cstep. cbn. decide_chars. unfold cadd. cbn.
      rewrite IH by done. cbn. rewrite <- Hq. by rewrite append_assoc.
    + cbn [crun]. unfold cstep. rewrite Hp. decide_chars.
      rewrite IH by done. unfold cadd; simpl. by rewrite append_assoc.
Qed.

Lemma needs_quote_nonempty s : needs_quote s = true -> s <> "".
Proof. by intros H ->. Qed.

(** One field: the parser ends in a state from which a comma or LF
    saves [copy_value f]. *)
Lemma crun_field f p :
  cst p = CFieldStart -> cfield p = "" -> cquoted p = false ->
  exists st q, crun (write_field f) p = mkCParser st (field_text f) q (crow p) (cout p) /\
    st <> CQuoted /\ cvalue (mkCParser st (field_text f) q (crow p) (cout p)) = copy_value f.
Proof.
  intros Hst Hf Hq. unfold write_field, copy_value. set (s := field_text f).
  destruct (needs_quote s) eqn:Q.
  - exists CQuoteSeen, true. rewrite !crun_app. cbn [crun chr].
    assert (E : cstep p dquote = mkCParser CQuoted "" true (crow p) (cout p)).
    { unfold cstep. rewrite Hst. decide_chars. reflexivity. }
    rewrite E, crun_double_quotes by done. cbn. decide_chars.
    split_and!; [reflexivity|discriminate|].
    unfold cvalue. cbn. destruct (String.eqb_spec s ""); [|done].
    by apply needs_quote_nonempty in Q.
  - apply needs_quote_false in Q as (Hc & Hq' & Hn & _).
    destruct s as [|c s'] eqn:Es.
    + exists CFieldStart, false. destruct p; simpl in *; subst. by split_and!.
    + exists CUnquoted, (cquoted p).
      apply has_char_cons in Hc as [Hc1 Hc2], Hq' as [Hq1 Hq2], Hn as [Hn1 Hn2].
      cbn [crun]. rewrite (cstep_plain p c CFieldStart); [|split_and!; congruence|done|auto].
      rewrite crun_plain by done. cbn. rewrite Hf, Hq. split_and!; [done|discriminate|].
      reflexivity.
Qed.

Lemma cstep_comma_ready q : cst q <> CQuoted -> cstep q comma = csave q.
Proof. destruct q as [[] f b r o]; intros H; unfold cstep; simpl; decide_chars; done. Qed.

Lemma cstep_newline_ready q : cst q <> CQuoted -> cstep q newline = cend q.
Proof. destruct q as [[] f b r o]; intros H; unfold cstep; simpl; decide_chars; done. Qed.

Lemma crun_fields f fs p rest :
  cst p = CFieldStart -> cfield p = "" -> cquoted p = false ->
  crun (join (chr comma) (map write_field (f :: fs)) +:+ chr newline +:+ rest) p =
  crun rest (cinit ((rev (crow p) ++ map copy_value (f :: fs))%list :: cout p)).
Proof.
  revert f p. induction fs as [|g fs IH]; intros f p Hst Hf Hq.
  - cbn [map join]. rewrite !crun_app.
    destruct (crun_field f p Hst Hf Hq) as (st & q & -> & Hne & Hv).
    cbn [crun chr]. rewrite cstep_newline_ready by exact Hne.
    unfold cend, cinit; simpl. rewrite Hv. by rewrite <- (app_nil_l [copy_value f]).
  - cbn [map]. rewrite join_cons2, !append_assoc, crun_app.
    destruct (crun_field f p Hst Hf Hq) as (st & q & -> & Hne & Hv).
    rewrite crun_app. cbn [crun chr]. rewrite cstep_comma_ready by exact Hne.
    change (write_field g :: map write_field fs) with (map write_field (g :: fs)).
    rewrite IH by reflexivity.
    unfold csave; simpl. rewrite Hv. by rewrite <- app_assoc.
Qed.

Lemma crun_row r out rest :
  crun (row_body r +:+ chr newline +:+ rest) (cinit out) =
  crun rest (cinit (copy_read_row r :: out)).
Proof.
  destruct r as [|f [|g fs]].
  - reflexivity.
  - cbn [row_body copy_read_row]. destruct (String.eqb_spec (field_text f) "") as [E|E].
    + reflexivity.
    + exact (crun_fields f [] (cinit out) rest eq_refl eq_refl eq_refl).
  - exact (crun_fields f (g :: fs) (cinit out) rest eq_refl eq_refl eq_refl).
Qed.

Lemma crun_write_rows rows out :
  Forall (Forall no_cr) rows ->
  crun (univ_nl (write_rows rows)) (cinit out) =
  cinit (rev (map copy_read_row rows) ++ out)%list.
Proof.
  intros H. revert out. induction H as [|r rows Hr Hrows IH]; intros out; [done|].
  cbn [write_rows]. unfold write_row.
  rewrite append_assoc, univ_nl_app by (by apply row_body_no_cr).
  rewrite univ_nl_crlf, crun_row, IH. simpl. by rewrite <- app_assoc.
Qed.

Lemma copy_write_rows h rows :
  Forall (Forall no_cr) (h :: rows) ->
  copy_rows (univ_nl (write_rows (h :: rows))) = map copy_read_row rows.
Proof.
  intros H. unfold copy_rows. fold (cinit []). rewrite (crun_write_rows _ [] H). cbn -[rev].
  by rewrite app_nil_r, rev_involutive.
Qed.

(** ** The header line and the names of the [COPY] statement *)

Lemma takeline_app s t :
  has_char newline s = false -> takeline (s +:+ chr newline +:+ t) = s +:+ chr newline.
Proof.
  induction s as [|c s IH]; intros H.
  - cbn [takeline chr]. by destruct (ascii_dec newline newline).
  - apply has_char_cons in H as [Hc Hs]. rewrite !append_cons. cbn [takeline].
    destruct (ascii_dec c newline) as [->|]; [congruence|]. by rewrite IH.
Qed.

(** A column name as [csv.writer] and [csv.reader] pass it unchanged
    through one line: no CR and no LF. *)
Definition header_name_ok (c : string) : bool :=
  negb (has_char creturn c) && negb (has_char newline c).

(** [next(csv.reader([f.readline()]))] on the exported file is the
    list of column names. *)
Lemma header_of_export cols rest :
  forallb header_name_ok cols = true -> header_of (write_row (map Some cols) +:+ rest) = Ret cols.
Proof.
  intros H. rewrite forallb_forall in H.
  assert (Hcr : Forall no_cr (map Some cols)).
  { apply List.Forall_map, List.Forall_forall. intros c Hc.
    specialize (H c Hc). unfold header_name_ok in H. apply andb_true_iff in H as [H _].
    unfold no_cr. cbn. by apply negb_true_iff. }
  assert (Hnl : has_char newline (row_body (map Some cols)) = false).
  { apply row_body_no_char; [discriminate|discriminate|].
    apply List.Forall_map, List.Forall_forall. intros c Hc.
    specialize (H c Hc). unfold header_name_ok in H. apply andb_true_iff in H as [_ H].
    cbn. by apply negb_true_iff. }
  pose proof (row_body_no_cr _ Hcr) as Hr.
  unfold header_of, write_row. rewrite append_assoc, univ_nl_app, univ_nl_crlf, takeline_app by done.
  unfold read_rows. rewrite univ_nl_app by done.
  rewrite <- (append_nil_r (univ_nl (chr newline))). cbn [univ_nl chr].
  unfold init. rewrite (run_row _ [] ""). cbn. by rewrite map_map, map_id.
Qed.

(** A name PostgreSQL takes quoted as written: not empty, no double
    quote, at most 63 characters. *)
Definition quoted_ok (n : string) : bool :=
  negb (String.eqb n "") && negb (has_char dquote n) && Nat.leb (String.length n) 63.

Lemma resolve_quoted n : quoted_ok n = true -> resolve (Quo n) = Ret n.
Proof.
  unfold quoted_ok, resolve. intros H.
  apply andb_true_iff in H as [H H3]. apply andb_true_iff in H as [H1 H2].
  apply negb_true_iff in H1, H2. apply Nat.leb_le in H3.
  rewrite H1, H2. cbn. by rewrite truncate_short.
Qed.

Lemma resolve_all_quoted l : forallb quoted_ok l = true -> resolve_all (map Quo l) = Ret l.
Proof.
  induction l as [|n l IH]; intros H; [done|]. cbn in H. apply andb_true_iff in H as [Hn Hl].
  cbn [map resolve_all]. rewrite resolve_quoted by done. cbn [obind]. by rewrite IH.
Qed.

Lemma add_rows_name t cols rows t' : add_rows t cols rows = Ret t' -> ptab_name t' = ptab_name t.
Proof.
  revert t. induction rows as [|r rows IH]; intros t E; cbn in E; [by simplify_eq|].
  unfold obind in E. destruct (add_row t cols r) as [t1|] eqn:E1; [|discriminate].
  rewrite (IH _ E). unfold add_row in E1. repeat case_match; by simplify_eq.
Qed.

Lemma find_put_tab db t : In (ptab_name t) (map ptab_name (pg_tables db)) ->
  find_tab (put_tab db t) (ptab_name t) = Some t.
Proof.
  unfold find_tab, put_tab. cbn. intros Hin. induction (pg_tables db) as [|t' ts IH]; [done|].
  cbn. destruct (String.eqb_spec (ptab_name t') (ptab_name t)) as [E|E].
  - cbn. by rewrite String.eqb_refl.
  - cbn. destruct (String.eqb_spec (ptab_name t') (ptab_name t)); [done|].
    apply IH. destruct Hin as [Hin|Hin]; [congruence|done].
Qed.

Lemma find_tab_name db n t :
  find_tab db n = Some t -> ptab_name t = n /\ In n (map ptab_name (pg_tables db)).
Proof.
  unfold find_tab. intros Hf. apply find_some in Hf as [Hin Heq].
  apply String.eqb_eq in Heq. split; [done|]. subst. by apply in_map.
Qed.

Lemma copy_stmt_apply t cols data db tab tab' :
  quoted_ok t = true -> forallb quoted_ok cols = true ->
  find_tab db t = Some tab -> has_cols tab cols = true ->
  add_rows tab cols (copy_rows data) = Ret tab' ->
  pg_simple_apply (copy_stmt t cols data) db = Ret (put_tab db tab', []).
Proof.
  intros Ht Hc Hf Hh Ha. unfold copy_stmt. cbn [pg_simple_apply].
  rewrite resolve_quoted, resolve_all_quoted by done. cbn [obind].
  unfold with_table. rewrite Hf, Hh. cbn [negb]. by rewrite Ha.
Qed.

Lemma count_stmt_apply t db tab :
  quoted_ok t = true -> find_tab db t = Some tab ->
  pg_simple_apply (count_stmt t) db = Ret (db, [[Some (str_of_N (N.of_nat (length (ptab_rows tab))))]]).
Proof.
  intros Ht Hf. unfold count_stmt. cbn [pg_simple_apply]. rewrite resolve_quoted by done.
  cbn [obind]. unfold with_table. by rewrite Hf.
Qed.

(** ** Properties *)



(** The rows [COPY] reads from the exported file, for header names
    that the writer and the reader pass unchanged. *)
Lemma copy_rows_export cols rows :
  forallb header_name_ok cols = true -> Forall (Forall no_cr) (map export_row rows) ->
  copy_rows (univ_nl (write_row (map Some cols) +:+ export_batches rows)) =
  map (fun r => copy_read_row (export_row r)) rows.
Proof.
  intros Hh Hr. rewrite export_batches_whole.
  change (write_row (map Some cols) +:+ write_rows (map export_row rows))
    with (write_rows (map Some cols :: map export_row rows)).
  rewrite copy_write_rows, map_map; [done|]. constructor; [|done].
  apply List.Forall_map, List.Forall_forall. intros c Hin. rewrite forallb_forall in Hh.
  specialize (Hh c Hin). unfold header_name_ok in Hh. apply andb_true_iff in Hh as [Hh _].
  unfold no_cr. cbn. by apply negb_true_iff.
Qed.


(** The whole world after the bulk import of the exported file: the
    connection is clean, its committed and working database both hold
    the table with the rows appended, and the files are unchanged. *)
Lemma import_table_data_run t path cols rows w tab tab' :
  quoted_ok t = true -> forallb quoted_ok cols = true -> forallb header_name_ok cols = true ->
  Forall (Forall no_cr) (map export_row rows) ->
  dict_find path (w_files w) = Some (write_row (map Some cols) +:+ export_batches rows) ->
  aborted (w_conn w) = false ->
  find_tab (working (w_conn w)) t = Some tab -> has_cols tab cols = true ->
  add_rows tab cols (map (fun r => copy_read_row (export_row r)) rows) = Ret tab' ->
  exists L, @import_table_data _ pg_simple t path w =
    (Ret true, mkWorld (mkConn (put_tab (working (w_conn w)) tab') (put_tab (working (w_conn w)) tab')
                               false L) (w_files w) (w_dirs w)).
Proof.
  intros Ht Hc Hh Hr Hf Ha Htab Hcols Hadd.
  rewrite <- (copy_rows_export cols rows Hh Hr) in Hadd.
  destruct (find_tab_name _ _ _ Htab) as [Hname Hin].
  assert (Hfind : find_tab (put_tab (working (w_conn w)) tab') t = Some tab').
  { rewrite <- Hname, <- (add_rows_name _ _ _ _ Hadd). apply find_put_tab.
    rewrite (add_rows_name _ _ _ _ Hadd). congruence. }
  unfold import_table_data, st_catch, copy_import, st_bind, read_file. rewrite Hf.
  unfold lift. rewrite header_of_export by done.
  unfold pg_execute, on_pg, execute. rewrite Ha. unfold pg_apply.
  rewrite (copy_stmt_apply _ _ _ _ tab tab') by done.
  cbn -[pg_simple_apply put_tab count_stmt].
  rewrite (count_stmt_apply _ _ tab') by done. cbn. by eexists.
Qed.







End Copy.
