(* ===== verification/Argparse.v ===== *)
(** * Argparse: the command line of [main] (src/main.py, lines 527-548)

    [main] declares its options with [argparse] (lines 528-546) and
    calls [parser.parse_args()] (line 548).  The declarations are the
    data [parser_specs].  [argparse] and [int()] are library code,
    modelled here after CPython 3.11's [argparse.py]:
    - [_parse_optional] and [_get_option_tuples] become [parse_optional].  It
      gives exact matches, [--opt=value], unique prefixes (an ambiguous
      prefix is an error), the [-h] cluster, negative numbers, and
      strings with a space.
    - [consume_optional] becomes the step function [pstep] of a small
      state machine.  An option consumes only plain arguments, never
      [--].
    - The checks for required options and unrecognized arguments are
      [finish_parse].
    A parse ends in [Parsed] with the namespace, or in [Exit] with the
    status of [SystemExit]: 0 for [--help], 2 for every error.  The
    messages go to stderr and are not modelled.

    Strings are 8-bit, so [int()] is modelled on ASCII: the Unicode
    digits and spaces it also accepts are not.  The round trip proves
    that printing any arguments as a command line parses back to them. *)

From S2P Require Import Prelude.

Module Argparse.
Local Open Scope mig_scope.

(** ** [int(s)] for a [str] *)

Definition ascii_digit (c : ascii) : bool :=
  let n := nat_of_ascii c in Nat.leb 48 n && Nat.leb n 57.

(** The ASCII characters [int()] strips: TAB, LF, VT, FF, CR and space. *)
Definition py_space (c : ascii) : bool :=
  let n := nat_of_ascii c in (Nat.leb 9 n && Nat.leb n 13) || Nat.eqb n 32.

Fixpoint strip_left (s : string) : string :=
  match s with
  | String.EmptyString => s
  | String.String c s' => if py_space c then strip_left s' else s
  end.

Fixpoint strip_right (s : string) : string :=
  match s with
  | String.EmptyString => s
  | String.String c s' =>
      let r := strip_right s' in
      if py_space c && String.eqb r "" then "" else String.String c r
  end.

(** The digits with single underscores between them: [digit (_? digit)*]. *)
Fixpoint digits_ok (after_digit : bool) (s : string) : bool :=
  match s with
  | String.EmptyString => after_digit
  | String.String c s' =>
      if ascii_digit c then digits_ok true s'
      else if ascii_dec c "_" then after_digit && digits_ok false s'
      else false
  end.

Fixpoint drop_underscores (s : string) : string :=
  match s with
  | String.EmptyString => s
  | String.String c s' =>
      if ascii_dec c "_" then drop_underscores s' else String.String c (drop_underscores s')
  end.

Definition py_decimal (s : string) : option N :=
  if digits_ok false s
  then option_map N.of_uint (NilEmpty.uint_of_string (drop_underscores s))
  else None.

Definition py_int (s : string) : option Z :=
  match strip_right (strip_left s) with
  | String.String "+" r => option_map Z.of_N (py_decimal r)
  | String.String "-" r => option_map (fun n => Z.opp (Z.of_N n)) (py_decimal r)
  | t => option_map Z.of_N (py_decimal t)
  end.

(** ** The options of [main] *)

(** The values of a namespace. *)
Inductive argval : Type :=
| VStr (s : string)
| VInt (z : Z)
| VList (l : list string)
| VNone.

Inductive nargs : Type := NOne | NPlus.

Record arg_spec : Type := mkSpec {
  a_flag : string;
  a_required : bool;
  a_default : argval;
  a_int : bool;
  a_nargs : nargs
}.

(** The attribute of [--mysql-host] is [mysql_host]: the two dashes
    dropped and every other dash made an underscore. *)
Fixpoint dashes_to_underscores (s : string) : string :=
  match s with
  | String.EmptyString => s
  | String.String c s' =>
      String.String (if ascii_dec c "-" then "_"%char else c) (dashes_to_underscores s')
  end.

Definition a_dest (sp : arg_spec) : string :=
  dashes_to_underscores (String.substring 2 (String.length (a_flag sp) - 2) (a_flag sp)).

(** Lines 531-546: the [add_argument] calls, in order. *)
Definition parser_specs : list arg_spec :=
  [ mkSpec "--mysql-host" true VNone false NOne;
    mkSpec "--mysql-db" true VNone false NOne;
    mkSpec "--mysql-user" true VNone false NOne;
    mkSpec "--mysql-password" true VNone false NOne;
    mkSpec "--mysql-port" false (VInt 3306) true NOne;
    mkSpec "--pg-host" true VNone false NOne;
    mkSpec "--pg-db" true VNone false NOne;
    mkSpec "--pg-user" true VNone false NOne;
    mkSpec "--pg-password" true VNone false NOne;
    mkSpec "--pg-port" false (VInt 5432) true NOne;
    mkSpec "--output-dir" false (VStr "./exported_data") false NOne;
    mkSpec "--tables" false VNone false NPlus ].

(** The namespace [args] as [main] reads it. *)
Record cli_args : Type := mkArgs {
  mysql_host : string;
  mysql_db : string;
  mysql_user : string;
  mysql_password : string;
  mysql_port : Z;
  pg_host : string;
  pg_db : string;
  pg_user : string;
  pg_password : string;
  pg_port : Z;
  output_dir : string;
  tables : option (list string)
}.

(** An [argparse.Namespace]: attribute names and values. *)
Definition namespace : Type := list (string * argval).

Definition get_str (k : string) (ns : namespace) : option string :=
  match dict_get k ns VNone with VStr s => Some s | _ => None end.
Definition get_int (k : string) (ns : namespace) : option Z :=
  match dict_get k ns VNone with VInt z => Some z | _ => None end.
Definition get_list (k : string) (ns : namespace) : option (option (list string)) :=
  match dict_get k ns VNone with VList l => Some (Some l) | VNone => Some None | _ => None end.

(** The namespace read with the types [main] uses it at.  It fails
    only on a value [argparse] left as a list, which [--opt=--] makes. *)
Definition typed_args (ns : namespace) : option cli_args :=
  mh ← get_str "mysql_host" ns; md ← get_str "mysql_db" ns; mu ← get_str "mysql_user" ns;
  mp ← get_str "mysql_password" ns; mpt ← get_int "mysql_port" ns;
  ph ← get_str "pg_host" ns; pd ← get_str "pg_db" ns; pu ← get_str "pg_user" ns;
  pp ← get_str "pg_password" ns; ppt ← get_int "pg_port" ns;
  od ← get_str "output_dir" ns; ts ← get_list "tables" ns;
  Some (mkArgs mh md mu mp mpt ph pd pu pp ppt od ts).

(** ** Classifying the argument strings ([_parse_optional]) *)

Inductive action : Type := AHelp | AStore (sp : arg_spec).

(** [parser._option_string_actions], in insertion order: [-h] and
    [--help] come first. *)
Definition option_actions : list (string * action) :=
  ("-h", AHelp) :: ("--help", AHelp) :: map (fun sp => (a_flag sp, AStore sp)) parser_specs.

Definition find_option (o : string) : option action :=
  option_map snd (List.find (fun p => String.eqb p.1 o) option_actions).

(** An argument string as [_parse_args] sees it: the [--] separator, a
    plain argument ['A'], an option with its explicit argument, [-h]
    (whether it exits cleanly), or an unknown option ['O']. *)
Inductive tok : Type :=
| TSep
| TArg (s : string)
| TOpt (sp : arg_spec) (explicit : option string)
| THelp (ok : bool)
| TUnknown (s : string).

Definition only_h (e : string) : bool :=
  negb (String.eqb e "") && all_chars (fun c => if ascii_dec c "h" then true else false) e.

(** [-h] with an explicit argument exits cleanly only as a one-dash
    cluster of [h]s ([-hh], [-h=h]); [--help=x] is an error. *)
Definition opt_tok (o : string) (a : action) (explicit : option string) : tok :=
  match a, explicit with
  | AStore sp, _ => TOpt sp explicit
  | AHelp, None => THelp true
  | AHelp, Some e => THelp (String.eqb o "-h" && only_h e)
  end.

(** [arg_string.split('=', 1)]. *)
Fixpoint split_eq (s : string) : string * option string :=
  match s with
  | String.EmptyString => (s, None)
  | String.String c s' =>
      if ascii_dec c "=" then ("", Some s')
      else let '(a, b) := split_eq s' in (String.String c a, b)
  end.

Fixpoint split_dot (s : string) : string * option string :=
  match s with
  | String.EmptyString => (s, None)
  | String.String c s' =>
      if ascii_dec c "." then ("", Some s')
      else let '(a, b) := split_dot s' in (String.String c a, b)
  end.

Definition all_digits (s : string) : bool := all_chars ascii_digit s.

(** [_negative_number_matcher]: [^-\d+$|^-\d*\.\d+$], where [$] also
    matches before a final LF. *)
Definition neg_number (s : string) : bool :=
  match s with
  | String.String "-" r =>
      let r := if String.eqb (suffix 1 r) (chr newline)
               then String.substring 0 (String.length r - 1) r else r in
      (negb (String.eqb r "") && all_digits r) ||
      match split_dot r with
      | (a, Some b) => all_digits a && negb (String.eqb b "") && all_digits b
      | _ => false
      end
  | _ => false
  end.

(** [_get_option_tuples] for [--...]: every option string the part
    before [=] is a prefix of. *)
Definition long_tuples (s : string) : list tok :=
  let '(pre, e) := split_eq s in
  map (fun '(o, a) => opt_tok o a e) (filter (fun p => String.prefix pre p.1) option_actions).

(** [_get_option_tuples] for [-x...]: the option [-x], with the rest of
    the string as its explicit argument, and the options [s] is a
    prefix of. *)
Definition short_tuples (s : string) : list tok :=
  flat_map (fun '(o, a) =>
              if String.eqb o (String.substring 0 2 s)
              then [opt_tok o a (Some (String.substring 2 (String.length s - 2) s))]
              else if String.prefix s o then [opt_tok o a None] else [])
           option_actions.

Definition parse_optional (s : string) : outcome tok :=
  match s with
  | String.String "-" r =>
      match find_option s with
      | Some a => Ret (opt_tok s a None)
      | None =>
          match r with
          | String.EmptyString => Ret (TArg s)
          | String.String c _ =>
              let '(pre, e) := split_eq s in
              match e, find_option pre with
              | Some v, Some a => Ret (opt_tok pre a (Some v))
              | _, _ =>
                  match (if ascii_dec c "-" then long_tuples s else short_tuples s) with
                  | _ :: _ :: _ => Raise "ambiguous option"
                  | [t] => Ret t
                  | [] => if neg_number s || has_char " " s then Ret (TArg s) else Ret (TUnknown s)
                  end
              end
          end
      end
  | _ => Ret (TArg s)
  end.

(** Every string after the first [--] is a plain argument. *)
Fixpoint classify_all (argv : list string) : outcome (list tok) :=
  match argv with
  | [] => Ret []
  | a :: rest =>
      if String.eqb a "--" then Ret (TSep :: map TArg rest)
      else let? t := parse_optional a in let? ts := classify_all rest in Ret (t :: ts)
  end.

(** ** Consuming the options ([consume_optional]) *)

(** Between two argument strings the parser is idle, or waits for the
    argument of an option, or collects the arguments of a [+] option. *)
Inductive parse_mode : Type :=
| PIdle
| PWant (sp : arg_spec)
| PMore (sp : arg_spec) (vs : list string).

Record pconf : Type := mkConf {
  pc_state : parse_mode;
  pc_ns : namespace;
  pc_seen : list string;
  pc_extras : bool
}.

(** The namespace starts with the defaults. *)
Definition pinit : pconf :=
  mkConf PIdle (map (fun sp => (a_dest sp, a_default sp)) parser_specs) [] false.

(** [take_action]: the value converted by [type] and stored; a failed
    [int()] is an error. *)
Definition store (c : pconf) (sp : arg_spec) (v : argval) : pconf :=
  mkConf PIdle (dict_set (a_dest sp) v (pc_ns c)) (a_dest sp :: pc_seen c) (pc_extras c).

Definition store_one (c : pconf) (sp : arg_spec) (s : string) : pconf + Z :=
  if a_int sp then match py_int s with Some z => inl (store c sp (VInt z)) | None => inr 2%Z end
  else inl (store c sp (VStr s)).

(** [_get_values]: the first [--] is dropped from the arguments (it
    can only come as an explicit [--opt=--]); a [None] option with one
    argument stores it converted, and otherwise the arguments are
    stored as a list (this parser's [+] option has no [type]). *)
Fixpoint remove_first (x : string) (l : list string) : list string :=
  match l with
  | [] => []
  | y :: l' => if String.eqb x y then l' else y :: remove_first x l'
  end.

Definition store_args (c : pconf) (sp : arg_spec) (vs : list string) : pconf + Z :=
  match a_nargs sp, remove_first "--" vs with
  | NOne, [s] => store_one c sp s
  | _, vs' => inl (store c sp (VList vs'))
  end.

Definition idle_step (c : pconf) (t : tok) : pconf + Z :=
  match t with
  | TSep | TArg _ | TUnknown _ => inl (mkConf PIdle (pc_ns c) (pc_seen c) true)
  | THelp ok => inr (if ok then 0 else 2)%Z
  | TOpt sp (Some v) => store_args c sp [v]
  | TOpt sp None => inl (mkConf (PWant sp) (pc_ns c) (pc_seen c) (pc_extras c))
  end.

Definition pstep (c : pconf) (t : tok) : pconf + Z :=
  match pc_state c with
  | PIdle => idle_step c t
  | PWant sp =>
      match t, a_nargs sp with
      | TArg v, NOne => store_one c sp v
      | TArg v, NPlus => inl (mkConf (PMore sp [v]) (pc_ns c) (pc_seen c) (pc_extras c))
      | _, _ => inr 2%Z
      end
  | PMore sp vs =>
      match t with
      | TArg v => inl (mkConf (PMore sp (vs ++ [v])) (pc_ns c) (pc_seen c) (pc_extras c))
      | _ => match store_args c sp vs with inl c' => idle_step c' t | inr z => inr z end
      end
  end.

Fixpoint prun (c : pconf) (ts : list tok) : pconf + Z :=
  match ts with
  | [] => inl c
  | t :: ts' => match pstep c t with inl c' => prun c' ts' | inr z => inr z end
  end.

Inductive parse_result : Type :=
| Parsed (ns : namespace)
| Exit (code : Z).

(** The end of [_parse_known_args] and [parse_args]: a missing
    required option, then an unrecognized argument, is an error. *)
Definition missing_required (seen : list string) : bool :=
  existsb (fun sp => a_required sp && negb (existsb (String.eqb (a_dest sp)) seen)) parser_specs.

Definition finish_idle (c : pconf) : parse_result :=
  if missing_required (pc_seen c) then Exit 2
  else if pc_extras c then Exit 2 else Parsed (pc_ns c).

Definition finish_parse (c : pconf) : parse_result :=
  match pc_state c with
  | PIdle => finish_idle c
  | PWant _ => Exit 2
  | PMore sp vs => match store_args c sp vs with inl c' => finish_idle c' | inr z => Exit z end
  end.

(** [parser.parse_args(argv)]. *)
Definition parse_args (argv : list string) : parse_result :=
  match classify_all argv with
  | Raise _ => Exit 2
  | Ret ts => match prun pinit ts with inl c => finish_parse c | inr z => Exit z end
  end.

(** ** A command line for given arguments *)

(** A value [parse_optional] reads as a plain argument: it does not start
    with a dash. *)
Definition plain_arg (s : string) : bool :=
  match s with String.String "-" _ => false | _ => true end.

(** The command line that sets every option of [a], in the order of
    the declarations. *)
Definition to_argv (a : cli_args) : list string :=
  ["--mysql-host"; mysql_host a; "--mysql-db"; mysql_db a; "--mysql-user"; mysql_user a;
   "--mysql-password"; mysql_password a; "--mysql-port"; str_of_Z (mysql_port a);
   "--pg-host"; pg_host a; "--pg-db"; pg_db a; "--pg-user"; pg_user a;
   "--pg-password"; pg_password a; "--pg-port"; str_of_Z (pg_port a);
   "--output-dir"; output_dir a] ++
  match tables a with Some ts => "--tables" :: ts | None => [] end.

Definition args_plain (a : cli_args) : bool :=
  forallb plain_arg [mysql_host a; mysql_db a; mysql_user a; mysql_password a;
                     pg_host a; pg_db a; pg_user a; pg_password a; output_dir a] &&
  match tables a with Some ts => negb (Nat.eqb (length ts) 0) && forallb plain_arg ts | None => true end.

(** ** Lemmas on characters and numbers *)

Lemma classify_plain s : plain_arg s = true -> parse_optional s = Ret (TArg s).
Proof.
  destruct s as [|[[] [] [] [] [] [] [] []] r]; cbn; congruence.
Qed.

Lemma plain_not_sep s : plain_arg s = true -> String.eqb s "--" = false.
Proof. intros H. destruct (String.eqb_spec s "--") as [->|]; [discriminate|done]. Qed.

Lemma all_digits_uint u : all_digits (NilEmpty.string_of_uint u) = true.
Proof. induction u; cbn; auto. Qed.

Lemma to_uint_pos p : N.to_uint (Npos p) <> Decimal.Nil.
Proof. intros E. pose proof (DecimalN.Unsigned.of_to (Npos p)) as H. by rewrite E in H. Qed.

Lemma uint_nonempty u : u <> Decimal.Nil -> NilEmpty.string_of_uint u <> "".
Proof. by destruct u. Qed.

Lemma digits_ok_digits b s : all_digits s = true -> s <> "" -> digits_ok b s = true.
Proof.
  revert b. induction s as [|c s IH]; intros b Hd Hne; [done|].
  cbn in Hd. apply andb_true_iff in Hd as [Hc Hs]. cbn. rewrite Hc.
  destruct s as [|c' s']; [reflexivity|]. apply IH; [exact Hs|discriminate].
Qed.

Lemma drop_underscores_digits s : all_digits s = true -> drop_underscores s = s.
Proof.
  induction s as [|c s IH]; intros Hd; [done|].
  cbn in Hd. apply andb_true_iff in Hd as [Hc Hs]. cbn.
  destruct (ascii_dec c "_") as [->|]; [discriminate|]. by rewrite IH.
Qed.

Lemma py_decimal_uint u :
  u <> Decimal.Nil -> py_decimal (NilEmpty.string_of_uint u) = Some (N.of_uint u).
Proof.
  intros Hu. unfold py_decimal.
  rewrite digits_ok_digits by auto using all_digits_uint, uint_nonempty.
  rewrite drop_underscores_digits by apply all_digits_uint.
  by rewrite NilEmpty.usu.
Qed.

Lemma lstrip_keep c r : py_space c = false -> strip_left (String.String c r) = String.String c r.
Proof. intros Hc. cbn. by rewrite Hc. Qed.

Lemma digit_not_space c : ascii_digit c = true -> py_space c = false.
Proof. destruct c as [[] [] [] [] [] [] [] []]; by inversion 1. Qed.

Lemma rstrip_no_space s : all_chars (fun c => negb (py_space c)) s = true -> strip_right s = s.
Proof.
  induction s as [|c s IH]; intros H; [done|]. cbn in H |- *.
  apply andb_true_iff in H as [Hc Hs]. rewrite IH by exact Hs.
  apply negb_true_iff in Hc. by rewrite Hc.
Qed.

Lemma digits_no_space s : all_digits s = true -> all_chars (fun c => negb (py_space c)) s = true.
Proof.
  induction s as [|c s IH]; intros H; [done|]. cbn in H |- *.
  apply andb_true_iff in H as [Hc Hs]. by rewrite IH, digit_not_space.
Qed.

(** The string of a positive number starts with a digit. *)
Lemma uint_head u :
  u <> Decimal.Nil -> exists c r, NilEmpty.string_of_uint u = String.String c r /\ ascii_digit c = true.
Proof. destruct u; intros H; [done| |..]; eexists _, _; split; reflexivity. Qed.

Lemma py_int_str_of_Z z : py_int (str_of_Z z) = Some z.
Proof.
  destruct z as [|p|p]; [reflexivity| |].
  - unfold str_of_Z, str_of_N, py_int.
    pose proof (to_uint_pos p) as Hu. destruct (uint_head _ Hu) as (c & r & E & Hc).
    rewrite E, lstrip_keep, rstrip_no_space
      by (auto using digit_not_space; rewrite <- E; apply digits_no_space, all_digits_uint).
    destruct c as [[] [] [] [] [] [] [] []]; inversion Hc;
      rewrite <- E, py_decimal_uint by exact Hu; cbn [option_map];
      by rewrite DecimalN.Unsigned.of_to.
  - unfold str_of_Z, str_of_N, py_int.
    change ("-" +:+ ?x) with (String.String "-" x). rewrite lstrip_keep by reflexivity.
    rewrite (rstrip_no_space (String.String "-" _)).
    2:{ cbn. apply digits_no_space, all_digits_uint. }
    cbn -[py_decimal N.to_uint NilEmpty.string_of_uint].
    rewrite py_decimal_uint by apply to_uint_pos. cbn [option_map]. by rewrite DecimalN.Unsigned.of_to.
Qed.

Lemma all_chars_substring p m n s :
  all_chars p s = true -> all_chars p (String.substring m n s) = true.
Proof.
  revert m n. induction s as [|c s IH]; intros m n H; [by destruct m, n|].
  cbn in H. apply andb_true_iff in H as [Hc Hs].
  destruct m, n; cbn; rewrite ?Hc, ?IH; auto.
Qed.

Lemma all_digits_no_char c s : ascii_digit c = false -> all_digits s = true -> has_char c s = false.
Proof.
  intros Hc. induction s as [|d s IH]; intros H; [done|]. cbn in H |- *.
  apply andb_true_iff in H as [Hd Hs]. destruct (ascii_dec c d) as [->|]; [congruence|auto].
Qed.

Lemma split_eq_no_eq s : has_char "=" s = false -> split_eq s = (s, None).
Proof.
  induction s as [|c s IH]; intros H; [done|]. apply has_char_cons in H as [Hc Hs].
  cbn. destruct (ascii_dec c "=") as [->|]; [done|]. by rewrite IH.
Qed.

Lemma neg_number_digits r : r <> "" -> all_digits r = true -> neg_number (String.String "-" r) = true.
Proof.
  intros Hne Hd. unfold neg_number.
  assert (Hs : String.eqb (suffix 1 r) (chr newline) = false).
  { destruct (String.eqb_spec (suffix 1 r) (chr newline)) as [E|]; [|done].
    assert (H : all_digits (suffix 1 r) = true).
    { unfold suffix. destruct (Nat.leb _ _); [done|]. by apply all_chars_substring. }
    by rewrite E in H. }
  rewrite Hs, Hd. destruct (String.eqb_spec r ""); [done|reflexivity].
Qed.

Lemma classify_neg r :
  r <> "" -> all_digits r = true -> parse_optional (String.String "-" r) = Ret (TArg (String.String "-" r)).
Proof.
  intros Hne Hd. pose proof (neg_number_digits r Hne Hd) as Hn.
  assert (He : split_eq (String.String "-" r) = (String.String "-" r, None)).
  { apply split_eq_no_eq. cbn. exact (all_digits_no_char "=" r eq_refl Hd). }
  destruct r as [|d rest]; [done|].
  cbn in Hd. apply andb_true_iff in Hd as [Hd _].
  unfold parse_optional. rewrite He, Hn.
  destruct d as [[] [] [] [] [] [] [] []]; inversion Hd; reflexivity.
Qed.

Lemma classify_str_of_Z z : parse_optional (str_of_Z z) = Ret (TArg (str_of_Z z)).
Proof.
  destruct z as [|p|p]; [reflexivity| |].
  - apply classify_plain. unfold str_of_Z, str_of_N.
    destruct (uint_head _ (to_uint_pos p)) as (c & r & -> & Hc).
    destruct c as [[] [] [] [] [] [] [] []]; by inversion Hc.
  - apply classify_neg; [apply uint_nonempty, to_uint_pos|apply all_digits_uint].
Qed.

Lemma str_of_Z_not_sep z : String.eqb (str_of_Z z) "--" = false.
Proof.
  destruct z as [|p|p]; [reflexivity| |]; unfold str_of_Z, str_of_N;
    destruct (uint_head _ (to_uint_pos p)) as (c & r & E & Hc);
    [rewrite E|change ("-" +:+ ?x) with (String.String "-" x); rewrite E];
    destruct c as [[] [] [] [] [] [] [] []]; inversion Hc; reflexivity.
Qed.

(** ** Lemmas on the parser *)

Lemma classify_all_no_sep l ts :
  Forall2 (fun s t => String.eqb s "--" = false /\ parse_optional s = Ret t) l ts ->
  classify_all l = Ret ts.
Proof. induction 1 as [|s t l ts [Hs Ht] _ IH]; [done|]. cbn. by rewrite Hs, Ht, IH. Qed.

Lemma classify_plain_all l :
  forallb plain_arg l = true ->
  Forall2 (fun s t => String.eqb s "--" = false /\ parse_optional s = Ret t) l (map TArg l).
Proof.
  induction l as [|s l IH]; intros H; constructor; cbn in H; apply andb_true_iff in H as [Hs Hl];
    auto using plain_not_sep, classify_plain.
Qed.

Lemma prun_more sp vs ns seen ex ts :
  prun (mkConf (PMore sp vs) ns seen ex) (map TArg ts) = inl (mkConf (PMore sp (vs ++ ts)) ns seen ex).
Proof.
  revert vs. induction ts as [|t ts IH]; intros vs; cbn; [by rewrite app_nil_r|].
  rewrite IH. by rewrite <- app_assoc.
Qed.

Lemma remove_first_plain l : forallb plain_arg l = true -> remove_first "--" l = l.
Proof.
  induction l as [|s l IH]; intros H; [done|]. cbn in H. apply andb_true_iff in H as [Hs Hl].
  cbn [remove_first]. rewrite String.eqb_sym, plain_not_sep by exact Hs. by rewrite IH.
Qed.

Ltac classify_tokens :=
  repeat first [ constructor 1
               | constructor 2; [split; [reflexivity|reflexivity]|]
               | constructor 2; [split; [by apply plain_not_sep|by apply classify_plain]|]
               | constructor 2; [split; [apply str_of_Z_not_sep|apply classify_str_of_Z]|] ].

(** Arguments for the witnesses: a negative port is printed with its
    sign and still read back. *)
Definition sample_args : cli_args :=
  mkArgs "localhost" "shop" "root" "secret" 3306 "pg.local" "shop" "postgres" "secret" (-5432)
         "out" (Some ["users"; "orders"]).

Ltac run_parser := repeat progress (cbn -[py_int str_of_Z]; rewrite ?py_int_str_of_Z).

(** ** Properties *)

(** C21: printing arguments as a command line and parsing it gives them
    back: for every value of the options that does not start with a
    dash (the ports are any integers, written by [str()]), and any
    non-empty list of tables, [parse_args] accepts the command line
    [to_argv a] and its namespace reads as [a]. *)
Theorem parse_args_to_argv a :
  args_plain a = true ->
  exists ns, parse_args (to_argv a) = Parsed ns /\ typed_args ns = Some a.
Proof.
  destruct a as [mh md mu mp mpt ph pd pu pp ppt od [ts|]]; intros H;
    unfold args_plain in H; cbn [forallb tables mysql_host mysql_db mysql_user mysql_password
      pg_host pg_db pg_user pg_password output_dir] in H;
    apply andb_true_iff in H as [Hv Ht];
    repeat match type of Hv with _ && _ = true => apply andb_true_iff in Hv as [? Hv] end;
    unfold parse_args, to_argv; cbn [mysql_port pg_port tables mysql_host mysql_db mysql_user
      mysql_password pg_host pg_db pg_user pg_password output_dir app].
  - destruct ts as [|t ts]; [done|]. apply andb_true_iff in Ht as [_ Ht].
    erewrite classify_all_no_sep.
    2:{ classify_tokens. by apply classify_plain_all. }
    run_parser. rewrite prun_more. cbn -[str_of_Z remove_first]. rewrite remove_first_plain by exact Ht.
    eexists; split; reflexivity.
  - erewrite classify_all_no_sep by classify_tokens. run_parser.
    eexists; split; reflexivity.
Qed.

Lemma parse_args_to_argv_witness :
  args_plain sample_args = true /\
  exists ns, parse_args (to_argv sample_args) = Parsed ns /\ typed_args ns = Some sample_args.
Proof. split; [vm_compute; reflexivity|]. apply parse_args_to_argv. vm_compute. reflexivity. Defined.

(** The namespace of the sample command line. *)
Definition sample_ns : namespace :=
  match parse_args (to_argv sample_args) with Parsed ns => ns | Exit _ => [] end.

End Argparse.
