(* ===== verification/Cli.v ===== *)
(** * Cli: the connections and the process (src/main.py, lines 8-38, 548-559, 617-618)

    [connect_to_mysql] and [connect_to_postgresql] catch any exception
    of the driver and return [None].  The drivers are the section
    variables [mysql_connect] and [pg_connect]: each returns a
    connection or raises.  [run_program] is the process [python main.py argv].
    It parses the command line ([Argparse]), opens both connections
    (both are attempted, line 554-555), and runs [main] from
    [Orchestrator].  Its result is the exit status: the code of
    [SystemExit] for a parse that exits, 1 for an exception that escapes
    [main], and 0 otherwise.

    A namespace in which [argparse] left a list where [main] expects a
    string or an int (only [--opt=--] does that) is outside the model:
    [run_program] is then [None]. *)

From S2P Require Import Prelude Catalog PgConn PgSimple Transfer Orchestrator Argparse.

Module Cli.
Import Catalog PgConn Transfer Orchestrator Argparse.
Local Open Scope mig_scope.

Section Run.
Context {DB : Type} `{PgEngine DB}.

(** [mysql.connector.connect(host=..., database=..., user=...,
    password=..., port=...)]. *)
Variable mysql_connect : string -> string -> string -> string -> Z -> outcome mysql.
(** [psycopg2.connect(...)]; the state of the connection it opens is
    the [w_conn] of the world. *)
Variable pg_connect : string -> string -> string -> string -> Z -> outcome unit.

(** Lines 8-22. *)
Definition connect_to_mysql (host database username password : string) (port : Z)
  : option mysql :=
  match mysql_connect host database username password port with
  | Ret conn => Some conn
  | Raise _ => None
  end.

(** Lines 24-38. *)
Definition connect_to_postgresql (host database username password : string) (port : Z)
  : option unit :=
  match pg_connect host database username password port with
  | Ret conn => Some conn
  | Raise _ => None
  end.

(** Lines 617-618 around [main] (lines 548-559 here, the rest in
    [Orchestrator.main]). *)
Definition run_program (argv : list string) (start_time end_time duration : string)
  : option (st (world DB) Z) :=
  match parse_args argv with
  | Exit code => Some (st_ret code)
  | Parsed ns =>
      match typed_args ns with
      | None => None
      | Some args =>
          let mysql_conn := connect_to_mysql (mysql_host args) (mysql_db args) (mysql_user args)
                              (mysql_password args) (mysql_port args) in
          let pg_conn := connect_to_postgresql (pg_host args) (pg_db args) (pg_user args)
                           (pg_password args) (pg_port args) in
          let pg_ok := match pg_conn with Some _ => true | None => false end in
          Some (st_catch (main mysql_conn pg_ok (mysql_db args) (output_dir args) (tables args)
                               start_time end_time duration ;;; st_ret 0%Z)
                         (fun _ => st_ret 1%Z))
      end
  end.

(** ** Properties *)

(** C12: a failed connection ends the run before any table: when the
    command line parses and either driver raises, the process sends no
    statement, writes no file and exits with status 0, the status of a
    completed migration. *)
Theorem run_connection_failure argv ns args t0 t1 d w :
  parse_args argv = Parsed ns -> typed_args ns = Some args ->
  connect_to_mysql (mysql_host args) (mysql_db args) (mysql_user args) (mysql_password args)
    (mysql_port args) = None \/
  connect_to_postgresql (pg_host args) (pg_db args) (pg_user args) (pg_password args)
    (pg_port args) = None ->
  exists m, run_program argv t0 t1 d = Some m /\ m w = (Ret 0%Z, w).
Proof.
  intros Hp Ht Hc. unfold run_program. rewrite Hp, Ht. eexists. split; [reflexivity|].
  destruct Hc as [Hm|Hg].
  - rewrite Hm. reflexivity.
  - rewrite Hg. unfold main. by destruct (connect_to_mysql _ _ _ _ _).
Qed.
End Run.

(** A PostgreSQL server that refuses every connection. *)
Definition refusing_pg (host database user password : string) (port : Z) : outcome unit :=
  Raise "connection refused".

Definition shop_mysql (host database user password : string) (port : Z) : outcome mysql :=
  Ret three_tables.

Lemma run_connection_failure_witness :
  parse_args (to_argv sample_args) = Parsed sample_ns /\ typed_args sample_ns = Some sample_args /\
  exists m, @run_program _ PgSimple.pg_simple shop_mysql refusing_pg (to_argv sample_args) "t0" "t1" "d" = Some m /\
    m empty_world = (Ret 0%Z, empty_world).
Proof.
  assert (Hp : parse_args (to_argv sample_args) = Parsed sample_ns) by (vm_compute; reflexivity).
  assert (Ht : typed_args sample_ns = Some sample_args) by (vm_compute; reflexivity).
  split; [exact Hp|]. split; [exact Ht|].
  apply (run_connection_failure shop_mysql refusing_pg _ _ _ "t0" "t1" "d" empty_world Hp Ht).
  right. reflexivity.
Defined.

End Cli.
