(* ===== verification/Failures.v ===== *)
(** * Failures: the tables a run loses because of how it names them

    [create_postgresql_table] writes the table and column names
    unquoted ([Ddl.create_table_stmt], lines 113-131), so PostgreSQL
    folds them to lower case, while [COPY] and [INSERT] quote them
    ([Ddl.copy_stmt], [Ddl.insert_stmt], lines 208-236) and look them up
    as written.  This file proves, for the concrete engine [PgSimple]
    and every table, that a name with an upper-case letter makes the
    table fail: [CREATE TABLE] succeeds under the folded name, then both
    import paths name a table or a column that does not exist, and
    [process_table] returns [False].

    [lacks_quoted d t hc] says that the quoted names [t] and [hc] cannot
    be used together on [d]: no table [t], or one that lacks a column of
    [hc].  [quoted_rejected] shows that [COPY] and [INSERT] then raise,
    [import_rejected] that [import_table_data] returns [False] from both
    of its paths, and [process_table_rejected] that the table fails once
    its [CREATE TABLE] leaves such a database. *)

From S2P Require Import Prelude Csv Catalog Ddl PgConn PgSimple Transfer Migrate Orchestrator Copy.

Module Failures.
Import Csv Catalog Ddl PgConn PgSimple Transfer Migrate Orchestrator Copy.
Local Open Scope mig_scope.

(** The quoted table [t] with the quoted columns [hc] names nothing on
    [d]: no table [t], or one without some column of [hc]. *)
Definition lacks_quoted (d : pgdb) (t : string) (hc : list string) : Prop :=
  forall tab, find_tab d t = Some tab ->
    exists c, In c hc /\ String.length c <= 63 /\ existsb (String.eqb c) (col_names tab) = false.

(** ** Tables and names *)

Lemma find_tab_app_l d ts n t :
  find_tab d n = Some t -> List.find (fun t => String.eqb (ptab_name t) n) (pg_tables d ++ ts) = Some t.
Proof.
  unfold find_tab. induction (pg_tables d) as [|t' l IH]; [done|]. cbn.
  by destruct (String.eqb (ptab_name t') n).
Qed.

Lemma find_tab_app_r d ts n :
  find_tab d n = None -> List.find (fun t => String.eqb (ptab_name t) n) (pg_tables d ++ ts) =
                         List.find (fun t => String.eqb (ptab_name t) n) ts.
Proof.
  unfold find_tab. induction (pg_tables d) as [|t' l IH]; [done|]. cbn.
  by destruct (String.eqb (ptab_name t') n).
Qed.

(** A name MySQL takes unquoted holds no quote, backslash or space, so
    the catalogue queries look it up as written. *)
Lemma my_plain_literal t : my_plain_ident t = true -> my_literal t = Some t.
Proof.
  unfold my_plain_ident. rewrite !andb_true_iff. intros ((((_ & Hc) & _) & _) & _).
  apply my_literal_plain; apply (has_char_all_chars _ my_ident_char); done.
Qed.

Lemma select_all_names db t columns cnames rows :
  get_table_schema db t = Ret columns -> select_all db t = Ret (cnames, rows) ->
  cnames = map col_name columns.
Proof.
  unfold get_table_schema. intros (v & Hv & -> & _)%my_select_ret.
  unfold select_all, table_part. destruct (my_fails db (QSelectAll t)); [done|].
  destruct (my_plain_ident t) eqn:Hp; [|done]. rewrite (my_plain_literal t Hp) in Hv.
  injection Hv as <-. cbn [negb]. destruct (find_table db t); [|done].
  intros [= <- _]. by rewrite map_map.
Qed.

(** ** Folded names *)

Lemma lower_substring n s : lower (String.substring 0 n s) = String.substring 0 n (lower s).
Proof.
  revert n. induction s as [|c s IH]; intros [|n]; cbn; [done|done|done|]. by rewrite IH.
Qed.

(** A folded and truncated name is in lower case, so it is never a
    name that has an upper-case letter. *)
Lemma folded_neq c x : lower c <> c -> truncate (lower x) <> c.
Proof.
  intros Hc <-. apply Hc. unfold truncate. by rewrite lower_substring, lower_idem.
Qed.

Lemma resolve_unq x n : resolve (Unq x) = Ret n -> n = truncate (lower x).
Proof. cbn. by destruct (valid_unquoted x); intros [= <-]. Qed.

Lemma resolve_quo x n : resolve (Quo x) = Ret n -> n = truncate x.
Proof. cbn. by destruct (_ || _); intros [= <-]. Qed.

Lemma resolve_all_map (f : string -> ident) (g : string -> string) l ns :
  (forall x n, resolve (f x) = Ret n -> n = g x) ->
  resolve_all (map f l) = Ret ns -> ns = map g l.
Proof.
  intros Hf. revert ns. induction l as [|x l IH]; intros ns; cbn; [by intros [= <-]|].
  destruct (resolve (f x)) as [n|] eqn:E1, (resolve_all (map f l)) as [ns'|] eqn:E2;
    intros H; inversion H; subst. by rewrite (Hf _ _ E1), (IH ns').
Qed.

(** ** [COPY] and [INSERT] on names that do not exist *)

Lemma has_cols_missing tab hc c :
  In c hc -> String.length c <= 63 -> existsb (String.eqb c) (col_names tab) = false ->
  has_cols tab (map truncate hc) = false.
Proof.
  intros Hin Hl Hn. destruct (has_cols _ _) eqn:E; [|done]. exfalso.
  unfold has_cols in E. rewrite forallb_forall in E.
  specialize (E (truncate c) (in_map _ _ _ Hin)). rewrite truncate_short in E by done. congruence.
Qed.

Lemma quoted_rejected d t hc :
  String.length t <= 63 -> lacks_quoted d t hc ->
  (forall data, exists e, pg_simple_apply (copy_stmt t hc data) d = Raise e) /\
  (forall vals, exists e, pg_simple_apply (insert_stmt t hc vals) d = Raise e).
Proof.
  intros Ht Hl. split; intros x; cbn [copy_stmt insert_stmt pg_simple_apply];
    (destruct (resolve (Quo t)) as [tn|e] eqn:Et; cbn [obind]; [|eauto];
     apply resolve_quo in Et; rewrite truncate_short in Et by done; subst tn;
     destruct (resolve_all (map Quo hc)) as [cns|e] eqn:Ec; cbn [obind]; [|eauto];
     apply (resolve_all_map _ _ _ _ resolve_quo) in Ec; subst cns;
     unfold with_table; destruct (find_tab d t) as [tab|] eqn:Ef; [|eauto];
     destruct (Hl tab Ef) as (c & Hin & Hc & Hn);
     rewrite (has_cols_missing tab hc c Hin Hc Hn); eauto).
Qed.

(** ** [CREATE TABLE] under folded names *)

Lemma map_fst_combine {A B} (l1 : list A) (l2 : list B) :
  length l1 = length l2 -> map fst (combine l1 l2) = l1.
Proof.
  revert l2. induction l1 as [|x l1 IH]; intros [|y l2] Hl; cbn in *; try lia; [done|].
  rewrite IH; [done|lia].
Qed.

Lemma resolve_all_length l ns : resolve_all l = Ret ns -> length ns = length l.
Proof.
  revert ns. induction l as [|i l IH]; intros ns; cbn; [by intros [= <-]|].
  destruct (resolve i), (resolve_all l) as [ns'|] eqn:E; intros H; inversion H; subst.
  cbn. by rewrite (IH ns').
Qed.

(** [CREATE TABLE] with an unquoted name [t] that has an upper-case
    letter adds a table under the folded name, never one named [t]. *)
Lemma create_unq_table_lacks d t cds hc d' rs :
  lower t <> t -> find_tab d t = None ->
  pg_simple_apply (CreateTable (Unq t) cds) d = Ret (d', rs) -> lacks_quoted d' t hc.
Proof.
  intros Hl Hf. cbn [pg_simple_apply].
  destruct (resolve (Unq t)) as [tn|] eqn:Et; cbn [obind]; [|discriminate].
  apply resolve_unq in Et.
  destruct (resolve_all (map cd_name cds)) as [cns|]; cbn [obind]; [|discriminate].
  destruct (find_tab d tn) eqn:Eft; [intros [= <- _]; by intros tab; rewrite Hf|].
  repeat case_match; try discriminate. intros [= <- _] tab Htab.
  unfold find_tab in Htab. cbn in Htab. rewrite find_tab_app_r in Htab by done.
  cbn in Htab. destruct (String.eqb_spec tn t) as [<-|]; [|discriminate].
  exfalso. exact (folded_neq tn tn Hl (eq_sym Et)).
Qed.

(** [CREATE TABLE] with unquoted columns, one of which has an upper-case
    letter, leaves no table [t] with that column. *)
Lemma create_unq_column_lacks d t cds names c d' rs :
  map cd_name cds = map Unq names -> find_tab d t = None ->
  In c names -> lower c <> c -> String.length c <= 63 ->
  pg_simple_apply (CreateTable (Unq t) cds) d = Ret (d', rs) -> lacks_quoted d' t names.
Proof.
  intros Hn Hf Hin Hc Hlc. cbn [pg_simple_apply].
  destruct (resolve (Unq t)) as [tn|] eqn:Et; cbn [obind]; [|discriminate].
  rewrite Hn.
  destruct (resolve_all (map Unq names)) as [cns|] eqn:Ec; cbn [obind]; [|discriminate].
  pose proof (resolve_all_length _ _ Ec) as Hlen.
  apply (resolve_all_map _ _ _ _ resolve_unq) in Ec.
  destruct (find_tab d tn) eqn:Eft; [intros [= <- _]; by intros tab; rewrite Hf|].
  repeat case_match; try discriminate. intros [= <- _] tab Htab.
  unfold find_tab in Htab. cbn in Htab. rewrite find_tab_app_r in Htab by done.
  cbn in Htab. destruct (String.eqb_spec tn t) as [<-|]; [|discriminate].
  injection Htab as <-. exists c. split_and!; [done|done|]. unfold col_names. cbn [ptab_cols].
  assert (Hnm : forall l : list (string * col_def),
    map pcol_name (map (fun '(n, c0) => mkPgCol n (cd_type c0) (cd_nullable c0)
                                          (default_of (cd_default c0))) l) = map fst l)
    by (induction l as [|[] l IH]; cbn; congruence).
  rewrite Hnm, map_fst_combine.
  - subst cns. destruct (existsb _ _) eqn:E; [|done]. exfalso.
    apply existsb_exists in E as (y & Hy & Heq). apply in_map_iff in Hy as (x & <- & _).
    apply String.eqb_eq in Heq. exact (folded_neq c x Hc (eq_sym Heq)).
  - apply (f_equal (@length _)) in Hn. rewrite !length_map in Hn. rewrite Hlen, length_map. done.
Qed.

(** ** The two import paths *)

Section Insert.
Context {DB : Type} `{PgEngine DB}.

(** When every [INSERT] of the table raises, the row-by-row loop raises
    at the first batch it sends, that is as soon as it has a row. *)
Lemma execute_many_raise t h b w :
  b <> [] -> (forall v, exists e w', pg_execute (insert_stmt t h v) w = (Raise e, w')) ->
  exists e w', execute_many t h b w = (Raise e, w').
Proof.
  destruct b as [|v b]; [done|]. intros _ Hx. destruct (Hx v) as (e & w' & E).
  exists e, w'. exact (st_bind_raise _ _ _ _ _ E).
Qed.

Lemma insert_rows_raise t h rows b w :
  (rows <> [] \/ b <> []) -> (forall v, exists e w', pg_execute (insert_stmt t h v) w = (Raise e, w')) ->
  exists e w', insert_rows t h rows b w = (Raise e, w').
Proof.
  intros Hne Hx. revert b Hne. induction rows as [|r rs IH]; intros b Hne.
  - destruct b as [|v b]; [by destruct Hne as [[]|[]]|].
    destruct (execute_many_raise t h (v :: b) w ltac:(done) Hx) as (e & w' & E).
    exists e, w'. exact (st_bind_raise _ _ _ _ _ E).
  - cbn [insert_rows]. destruct (Nat.leb _ _).
    + destruct (execute_many_raise t h (b ++ [process_row r]) w ltac:(by destruct b) Hx)
        as (e & w' & E).
      exists e, w'. exact (st_bind_raise _ _ _ _ _ E).
    + apply IH. right. by destruct b.
Qed.
End Insert.

(** [import_table_data] from a clean connection returns [False] when
    neither the [COPY] nor an [INSERT] of the header of the file can be
    applied, and the file holds a data row. *)
Lemma import_rejected t path w content hc r rs :
  String.length t <= 63 -> clean (w_conn w) -> dict_find path (w_files w) = Some content ->
  header_of content = Ret hc -> read_rows content = hc :: r :: rs ->
  lacks_quoted (committed (w_conn w)) t hc ->
  fst (@import_table_data _ pg_simple t path w) = Ret false.
Proof.
  intros Ht [Ha Hw] Hf Hh Hr Hl. destruct (quoted_rejected _ _ _ Ht Hl) as [Hcopy Hins].
  destruct w as [[dc dw ab L] files dirs].
  cbn [w_conn committed working aborted w_files] in Ha, Hw, Hf, Hcopy, Hins. subst ab dw.
  destruct (Hcopy (univ_nl content)) as [e Ec].
  unfold import_table_data, st_catch, copy_import.
  rewrite (st_bind_run _ _ _ content (mkWorld (mkConn dc dc false L) files dirs))
    by (unfold read_file; cbn; by rewrite Hf).
  rewrite (st_bind_run _ _ _ hc (mkWorld (mkConn dc dc false L) files dirs))
    by (unfold lift; by rewrite Hh).
  unfold st_bind at 1, pg_execute at 1, on_pg at 1, execute at 1. cbn [w_conn aborted working].
  change (@pg_apply _ pg_simple) with pg_simple_apply. rewrite Ec. cbn.
  unfold fallback_import.
  rewrite (st_bind_run _ _ _ content _) by (unfold read_file; cbn; by rewrite Hf).
  rewrite Hr.
  destruct (insert_rows_raise t hc (r :: rs) [] (mkWorld (mkConn dc dc false
              (EvRollback :: EvExec (copy_stmt t hc (univ_nl content)) false :: L)) files dirs))
    as (e' & w' & E); [by left| |].
  { intros v. destruct (Hins v) as [e'' Ei]. unfold pg_execute, on_pg, execute.
    cbn [w_conn aborted working].
    change (@pg_apply _ pg_simple) with pg_simple_apply. rewrite Ei. eauto. }
  by rewrite (st_bind_raise _ _ _ _ _ E).
Qed.

(** ** One table *)

(** The export never touches the connection: it returns [None] when
    the [SELECT] or the write fails, else the path of the file it wrote
    with the columns and rows of the [SELECT]. *)
Lemma export_table_data_outcome {DB} `{PgEngine DB} db t dir (w : world DB) :
  dir_ready dir w ->
  exists r w', export_table_data db t dir w = (Ret r, w') /\ w_conn w' = w_conn w /\
    (r = None \/ exists cn rows, r = Some (path_join dir (t +:+ ".csv")) /\
       select_all db t = Ret (cn, rows) /\
       dict_find (path_join dir (t +:+ ".csv")) (w_files w') =
         Some (write_row (map Some cn) +:+ export_batches rows)).
Proof.
  intros Hd. destruct (ensure_ready dir w Hd) as (w1 & E & _ & Hc & _).
  unfold export_table_data. rewrite (st_bind_run _ _ _ _ _ E).
  unfold st_catch, st_bind, lift. destruct (select_all db t) as [[cn rows]|e].
  - unfold write_file. destruct (blocked_by_file _ w1).
    + do 2 eexists. split; [reflexivity|]. split; [done|by left].
    + do 2 eexists. split; [reflexivity|]. split; [done|]. right. exists cn, rows.
      split_and!; [done|done|apply dict_find_set_eq].
  - do 2 eexists. split; [reflexivity|]. split; [done|by left].
Qed.

(** The exported file read back by [csv.reader]: the header, then a
    line per row. *)
Lemma read_export cols rows :
  Forall (fun c => has_char creturn c = false) cols -> Forall (Forall no_cr) (map export_row rows) ->
  read_rows (write_row (map Some cols) +:+ export_batches rows) =
  cols :: map (fun r => map field_text (export_row r)) rows.
Proof.
  intros Hc Hr. rewrite export_batches_whole.
  change (write_row (map Some cols) +:+ write_rows (map export_row rows))
    with (write_rows (map Some cols :: map export_row rows)).
  unfold read_rows, init. rewrite run_write_rows.
  - unfold finish; simpl. rewrite app_nil_r, rev_app_distr, rev_involutive. cbn.
    f_equal; [|by rewrite map_map]. clear. induction cols as [|c cols IH]; [done|]. simpl. by f_equal.
  - constructor; [|done]. clear Hr. induction Hc; constructor; auto.
Qed.

Lemma header_no_cr cols :
  forallb header_name_ok cols = true -> Forall (fun c => has_char creturn c = false) cols.
Proof.
  intros H. apply List.Forall_forall. intros c Hc. rewrite forallb_forall in H.
  specialize (H c Hc). unfold header_name_ok in H. apply andb_true_iff in H as [H _].
  by apply negb_true_iff.
Qed.

(** The data of a table as the program exports it: at least one row,
    names the CSV writer passes unchanged, no CR in a value. *)
Definition exportable (db : mysql) (t : string) : Prop :=
  forall cn rows, select_all db t = Ret (cn, rows) ->
    rows <> [] /\ forallb header_name_ok cn = true /\ Forall (Forall no_cr) (map export_row rows).

(** A table whose [CREATE TABLE] leaves a database on which its quoted
    names cannot be used fails: [process_table] returns [False], from
    the [CREATE TABLE], the export or the import. *)
Lemma process_table_rejected db dir t cols w :
  get_table_schema db t = Ret cols -> dir_ready dir w -> String.length t <= 63 -> exportable db t ->
  (forall d' rs, pg_simple_apply (create_table_stmt t cols) (working (w_conn w)) = Ret (d', rs) ->
     lacks_quoted d' t (map col_name cols)) ->
  fst (@process_table _ pg_simple db dir t w) = Ret false.
Proof.
  intros Hs Hd Ht Hdata Hcr. unfold process_table.
  rewrite (st_bind_run _ _ w cols w) by (unfold lift; by rewrite Hs).
  unfold create_postgresql_table, st_bind at 1. rewrite attempt_run.
  destruct (aborted (w_conn w)) eqn:Ha; [reflexivity|].
  change (@pg_apply _ pg_simple) with pg_simple_apply.
  destruct (pg_simple_apply (create_table_stmt t cols) (working (w_conn w))) as [[d' rs]|e] eqn:Ec;
    [|reflexivity].
  pose proof (Hcr d' rs eq_refl) as Hl. unfold st_bind at 1. cbn [negb].
  match goal with |- context [export_table_data db t dir ?w1] =>
    assert (Hd1 : dir_ready dir w1) by (exact (dir_ready_same dir w w1 eq_refl eq_refl Hd));
    destruct (export_table_data_outcome db t dir w1 Hd1) as (r & w2 & Ee & Hc2 & Hr) end.
  rewrite Ee.
  destruct Hr as [->|(cn & rows & -> & Hsel & Hfile)]; [reflexivity|].
  destruct (Hdata cn rows Hsel) as (Hne & Hhdr & Hnocr).
  pose proof (select_all_names _ _ _ _ _ Hs Hsel) as ->.
  destruct rows as [|row rows']; [done|].
  assert (Hi : fst (@import_table_data _ pg_simple t (path_join dir (t +:+ ".csv")) w2) = Ret false).
  { eapply (import_rejected _ _ _ _ _ _ _ Ht); [by rewrite Hc2| exact Hfile
    | by apply header_of_export
    | by rewrite read_export by auto using header_no_cr
    | by rewrite Hc2]. }
  destruct (import_table_data t _ w2) as [ri w3] eqn:Ei. cbn in Hi. subst ri.
  by rewrite (st_bind_run _ _ _ _ _ Ei).
Qed.

(** ** Properties *)

(** C9: a MySQL table whose name has an upper-case letter is lost.  It
    is created under the folded name ([CREATE TABLE Users] makes
    [users]) but filled through the quoted name ([COPY "Users"], then
    [INSERT INTO "Users"]), which names no table: whatever its schema
    and rows, [process_table] reports it failed.  The name is at most
    63 bytes, the length PostgreSQL keeps, and the data is exported as
    the program writes it. *)
Theorem mixed_case_table_fails db dir t cols w :
  get_table_schema db t = Ret cols -> lower t <> t -> String.length t <= 63 ->
  find_tab (working (w_conn w)) t = None -> dir_ready dir w -> exportable db t ->
  fst (@process_table _ pg_simple db dir t w) = Ret false.
Proof.
  intros Hs Hl Ht Hf Hd Hx. apply (process_table_rejected db dir t cols w Hs Hd Ht Hx).
  intros d' rs Hc. unfold create_table_stmt in Hc. exact (create_unq_table_lacks _ _ _ _ _ _ Hl Hf Hc).
Qed.

(** C10: column names are written unquoted in [CREATE TABLE] (line 127)
    but quoted in [COPY] and [INSERT]: a table with a column whose name
    has an upper-case letter gets the folded column ([UserId] becomes
    [userid]), so both import paths name a column that does not exist
    and the table is reported failed, whatever its rows. *)
Theorem unquoted_columns_fail db dir t cols c w :
  get_table_schema db t = Ret cols -> In c (map col_name cols) -> lower c <> c ->
  String.length c <= 63 -> String.length t <= 63 ->
  find_tab (working (w_conn w)) t = None -> dir_ready dir w -> exportable db t ->
  fst (@process_table _ pg_simple db dir t w) = Ret false.
Proof.
  intros Hs Hin Hc Hlc Ht Hf Hd Hx. apply (process_table_rejected db dir t cols w Hs Hd Ht Hx).
  intros d' rs Hcr. unfold create_table_stmt in Hcr.
  refine (create_unq_column_lacks _ _ _ _ c _ _ _ Hf Hin Hc Hlc Hcr). by rewrite !map_map.
Qed.

Lemma attempt_returns {DB} `{PgEngine DB} {A} s (a b : A) (w : world DB) :
  exists r w1, attempt s a b w = (Ret r, w1).
Proof. rewrite attempt_run. repeat case_match; eauto. Qed.

(** C20: [SELECT * FROM {table_name}] (line 158) writes the name
    unquoted, so a table whose name MySQL does not take unquoted (a
    reserved word such as [order] or [rows], a name of digits or read
    as a number, a character other than a letter, a digit, [$] or [_])
    is never exported: whatever the engine, once its schema is read
    [process_table] reports it failed. *)
Theorem unquoted_select_fails {DB} `{PgEngine DB} db dir t cols (w : world DB) :
  get_table_schema db t = Ret cols -> my_plain_ident t = false -> dir_ready dir w ->
  fst (process_table db dir t w) = Ret false.
Proof.
  intros Hs Hp Hd. unfold process_table.
  rewrite (st_bind_run _ _ w cols w) by (unfold lift; by rewrite Hs).
  unfold create_postgresql_table.
  destruct (attempt_returns (create_table_stmt t cols) true false w) as (created & w1 & Ec).
  rewrite (st_bind_run _ _ _ _ _ Ec). destruct created; [cbn [negb]|reflexivity].
  destruct (attempt_keeps_files (create_table_stmt t cols) true false w) as [Hf Hdr].
  rewrite Ec in Hf, Hdr. cbn in Hf, Hdr.
  destruct (export_table_data_outcome db t dir w1 (dir_ready_same dir w w1 Hf Hdr Hd))
    as (r & w2 & Ee & _ & [->|(cn & rows & _ & Hsel & _)]).
  - by rewrite (st_bind_run _ _ _ _ _ Ee).
  - unfold select_all in Hsel. rewrite Hp in Hsel. by destruct (my_fails db _).
Qed.

(** C22: column names are written unquoted in [CREATE TABLE] (line
    127): a table with a column that PostgreSQL does not take unquoted
    (a reserved word such as [order], [user] or [left], a name starting
    with a digit, a character other than a letter, a digit, [_] or
    [$]) is never created.  Its [CREATE TABLE] fails and is rolled
    back, [process_table] reports it failed, and the committed database
    and the files are unchanged. *)
Theorem reserved_column_fails db dir t cols c w :
  get_table_schema db t = Ret cols -> In c (map col_name cols) -> valid_unquoted c = false ->
  let r := @process_table _ pg_simple db dir t w in
  fst r = Ret false /\ committed (w_conn (snd r)) = committed (w_conn w) /\
  w_files (snd r) = w_files w.
Proof.
  intros Hs Hin Hc. cbv zeta. unfold process_table.
  rewrite (st_bind_run _ _ w cols w) by (unfold lift; by rewrite Hs).
  assert (Hx : exists e, pg_simple_apply (create_table_stmt t cols) (working (w_conn w)) = Raise e).
  { unfold create_table_stmt. cbn [pg_simple_apply].
    destruct (resolve (Unq t)) as [tn|e]; cbn [obind]; [|eauto].
    replace (map cd_name (map column_definition cols)) with (map Unq (map col_name cols))
      by (by rewrite !map_map).
    enough (Hr : exists e, resolve_all (map Unq (map col_name cols)) = Raise e)
      by (destruct Hr as [e ->]; eauto).
    clear Hs. induction (map col_name cols) as [|x l IH]; [done|]. destruct Hin as [->|Hin].
    - cbn. rewrite Hc. eauto.
    - cbn [map resolve_all]. destruct (IH Hin) as [e ->]. destruct (resolve (Unq x)); eauto. }
  destruct Hx as [e He].
  assert (Ha : exists L, attempt (create_table_stmt t cols) true false w =
    (Ret false, mkWorld (mkConn (committed (w_conn w)) (committed (w_conn w)) false L)
                        (w_files w) (w_dirs w))).
  { rewrite attempt_run. change (@pg_apply _ pg_simple) with pg_simple_apply. rewrite He.
    destruct (aborted (w_conn w)); eauto. }
  destruct Ha as [L Ha]. unfold create_postgresql_table. rewrite (st_bind_run _ _ _ _ _ Ha).
  split_and!; reflexivity.
Qed.

(** ** Witnesses *)

(** Two MySQL tables, each with one row: [accounts] has a mixed-case
    column and [orders] a column named with a reserved word. *)
Definition column_names_db : mysql :=
  mkMysql [mkTable "accounts" [(1, mkColumn "UserId" "int" None "NO" None)] [] [] [[PyInt 7]];
           mkTable "orders" [(1, mkColumn "order" "int" None "NO" None)] [] [] [[PyInt 1]]]
    [] (fun _ => false).

Lemma exportable_one db t cn rows :
  select_all db t = Ret (cn, rows) -> rows <> [] -> forallb header_name_ok cn = true ->
  Forall (Forall no_cr) (map export_row rows) -> exportable db t.
Proof. intros E Hne Hh Hc cn' rows' E'. rewrite E in E'. by injection E' as <- <-. Qed.

(** The table [Users] is lost; so is the table [users] of the run of
    [three_tables], which also leaves the empty table [users] in
    PostgreSQL. *)
Lemma mixed_case_table_fails_witness :
  fst (@process_table _ pg_simple three_tables "out" "Users" empty_world) = Ret false /\
  let r := @migrate_tables _ PgSimple.pg_simple three_tables "out" ["Users"] [] [] empty_world in
  fst r = Ret ([], ["Users"]) /\
  map PgSimple.ptab_name (PgSimple.pg_tables (committed (w_conn (snd r)))) = ["users"].
Proof.
  split; [|split; vm_compute; reflexivity].
  apply (mixed_case_table_fails three_tables "out" "Users" [mkColumn "id" "int" None "NO" None]);
    [reflexivity|discriminate|cbn; lia|reflexivity|exact out_ready|].
  apply (exportable_one _ _ ["id"] [[PyInt 3]]); [reflexivity|discriminate|reflexivity|].
  repeat constructor.
Defined.

(** The table [accounts] is lost and stays empty in PostgreSQL under
    the column [userid]; [orders] is never created. *)
Lemma unquoted_columns_fail_witness :
  fst (@process_table _ pg_simple column_names_db "out" "accounts" empty_world) = Ret false /\
  let r := @migrate_tables _ PgSimple.pg_simple column_names_db "out" ["accounts"; "orders"] [] []
             empty_world in
  fst r = Ret ([], ["accounts"; "orders"]) /\
  map (fun t => (PgSimple.ptab_name t, map PgSimple.pcol_name (PgSimple.ptab_cols t),
                 PgSimple.ptab_rows t))
      (PgSimple.pg_tables (committed (w_conn (snd r)))) = [("accounts", ["userid"], [])].
Proof.
  split; [|split; vm_compute; reflexivity].
  apply (unquoted_columns_fail column_names_db "out" "accounts" [mkColumn "UserId" "int" None "NO" None]
           "UserId"); [reflexivity|left; reflexivity|discriminate|cbn; lia|cbn; lia|reflexivity
                      |exact out_ready|].
  apply (exportable_one _ _ ["UserId"] [[PyInt 7]]); [reflexivity|discriminate|reflexivity|].
  repeat constructor.
Defined.

(** The MySQL table [rows] (a reserved word of MySQL 8, not of
    PostgreSQL) is created in PostgreSQL, then its export fails. *)
Definition rows_db : mysql :=
  mkMysql [mkTable "rows" [(1, mkColumn "id" "int" None "NO" None)] [] [] [[PyInt 1]]]
    [] (fun _ => false).

Lemma unquoted_select_fails_witness :
  my_plain_ident "rows" = false /\
  fst (@process_table _ pg_simple rows_db "out" "rows" empty_world) = Ret false.
Proof.
  split; [reflexivity|].
  apply (unquoted_select_fails rows_db "out" "rows" [mkColumn "id" "int" None "NO" None]);
    [reflexivity|reflexivity|exact out_ready].
Defined.

Lemma reserved_column_fails_witness :
  valid_unquoted "order" = false /\
  let r := @process_table _ pg_simple column_names_db "out" "orders" empty_world in
  fst r = Ret false /\ committed (w_conn (snd r)) = committed (w_conn empty_world) /\
  w_files (snd r) = w_files empty_world.
Proof.
  split; [reflexivity|].
  apply (reserved_column_fails column_names_db "out" "orders" [mkColumn "order" "int" None "NO" None]
           "order"); [reflexivity|left; reflexivity|reflexivity].
Defined.

End Failures.
