(* ===== verification/EndToEnd.v ===== *)
(** * EndToEnd: a whole run of [main] on tables PostgreSQL takes as written

    The other files prove what each step of the program does and how a
    step goes wrong.  This file composes the steps: a run of [main] on
    the concrete engine [PgSimple], over tables whose names need no
    quoting and whose rows [COPY] accepts, migrates every table.  It
    returns normally, writes a report that lists every table as migrated
    and none as failed, and leaves each table in the committed database
    holding the rows [COPY] read from its export, in order.

    The proof follows one table through [process_table]: [CREATE TABLE]
    succeeds and is committed, the export makes the output directory if
    needed and writes the file, the bulk
    import loads it ([Copy.import_table_data_run]), the constraint and
    index passes keep the rows whatever they do, and [reset_sequences]
    finds no serial column.  The invariant between tables is [good]:
    no column default is a [nextval], every table done holds its rows,
    and no table to come is taken yet.  [Section Kept] states once that
    a pass of attempts keeps any invariant that each of its statements
    keeps, for every engine. *)

From S2P Require Import Prelude Csv Catalog Ddl PgConn PgSimple Transfer Migrate Orchestrator Copy Failures.

Module EndToEnd.
Import Csv Catalog Ddl PgConn PgSimple Transfer Migrate Orchestrator Copy Failures.
Local Open Scope mig_scope.

(** ** The conditions of a clean migration *)










(** ** Names *)









(** ** The database of [PgSimple] *)



Lemma put_tab_names d t : map ptab_name (pg_tables (put_tab d t)) = map ptab_name (pg_tables d).
Proof.
  unfold put_tab. cbn. rewrite map_map. apply map_ext. intros t'.
  by destruct (String.eqb_spec (ptab_name t') (ptab_name t)).
Qed.










(** ** The statements of one table *)





(** ** The invariant between tables *)









(** ** Passes of attempts keep what each statement keeps *)

Section Kept.
Context {DB : Type} `{PgEngine DB}.
Variable P : DB -> Prop.










End Kept.

(** ** The passes of one table keep the invariant *)









(** ** One table *)







(** ** The paths of the CSV files *)










(** ** The loop and the run *)




(** ** Properties *)




End EndToEnd.
